(** * Vigilant call-audit backend: a shallow embedding and its properties

    The development follows the Python sources under [backend/services]
    and [backend/main.py].  Part I embeds the code module by module;
    Part II states and proves the properties of the embedding.

    Conventions of the embedding:
    - a Python [str] is a [string] of ASCII text, [str.lower] is ASCII
      lower-casing;
    - a Python [float] is a binary64 [float] of the kernel, compared with
      the IEEE comparisons;
    - a Python [dict] with string keys is an association list read with
      [dict_get] (first binding) and written with [dict_set];
    - an exception is a value of a sum or option type; a [try/except] is a
      [match] on it;
    - a call to a service outside the repository (speech model, vector
      index, audio decoder, the ISO-8601 parser of the standard library) is
      a [Variable] of the enclosing [Section]. *)

From Stdlib Require Import ZArith List String Ascii Bool Lia Floats PeanoNat.
From Stdlib Require Import DecimalString.
Import ListNotations.

Set Warnings "-inexact-float,-abstract-large-number,-register-all".
Local Open Scope string_scope.

(* ================================================================= *)
(** * Part I — the embedding *)
(* ================================================================= *)

(** ** Python text primitives *)

Module PyStr.

(** [c.lower()] on one ASCII character. *)
Definition lower_ascii (c : ascii) : ascii :=
  let n := nat_of_ascii c in
  if (65 <=? n)%nat && (n <=? 90)%nat then ascii_of_nat (n + 32) else c.

(** [s.lower()]. *)
Fixpoint lower (s : string) : string :=
  match s with
  | EmptyString => EmptyString
  | String c rest => String (lower_ascii c) (lower rest)
  end.

(** [sub in text]: [sub] occurs in [text] as a contiguous substring. *)
Fixpoint contains (sub text : string) : bool :=
  match text with
  | EmptyString => String.prefix sub EmptyString
  | String _ rest => String.prefix sub text || contains sub rest
  end.

(** [text.endswith(suffix)]. *)
Fixpoint endswith (text suffix : string) : bool :=
  if String.eqb text suffix then true
  else match text with
       | EmptyString => false
       | String _ rest => endswith rest suffix
       end.

(** [text[:-1]]: the text without its last character. *)
Fixpoint drop_last (text : string) : string :=
  match text with
  | EmptyString => EmptyString
  | String c EmptyString => EmptyString
  | String c rest => String c (drop_last rest)
  end.

(** [str(n)] for a natural number. *)
Definition of_nat (n : nat) : string := NilZero.string_of_uint (Nat.to_uint n).

(** [f"{n:02d}"] for a natural number: decimal, zero-padded to width 2. *)
Definition fmt_02d (n : nat) : string :=
  let s := of_nat n in
  if (String.length s <? 2)%nat then "0" ++ s else s.

(** [x in xs] for a list (or set) of strings. *)
Definition mem (x : string) (xs : list string) : bool :=
  existsb (String.eqb x) xs.

(** [c.isspace()] on one ASCII character. *)
Definition is_space (c : ascii) : bool :=
  let n := nat_of_ascii c in
  ((9 <=? n)%nat && (n <=? 13)%nat) || ((28 <=? n)%nat && (n <=? 32)%nat).

Fixpoint lstrip_chars (cs : list ascii) : list ascii :=
  match cs with
  | [] => []
  | c :: rest => if is_space c then lstrip_chars rest else cs
  end.

(** [s.strip()]. *)
Definition strip (s : string) : string :=
  string_of_list_ascii
    (rev (lstrip_chars (rev (lstrip_chars (list_ascii_of_string s))))).

End PyStr.

(** ** [services/audio_processor.py] *)

Module AudioProcessor.
Import PyStr.

Definition SEGMENT_DURATION_SECONDS : nat := 10.
Definition SAMPLE_RATE : nat := 16000.

(** Arousal thresholds. *)
Definition HIGH_ENERGY_THRESHOLD : float := 0.65%float.
Definition MEDIUM_ENERGY_THRESHOLD : float := 0.35%float.
Definition HIGH_PITCH_THRESHOLD : float := 210.0%float.

(** [_seconds_to_mmss], on the whole seconds [int(seconds)]. *)
Definition _seconds_to_mmss (seconds : nat) : string :=
  let m := (seconds / 60)%nat in
  let s := (seconds mod 60)%nat in
  fmt_02d m ++ ":" ++ fmt_02d s.

(** [_classify_arousal]: [x >= t] on floats is [t <=? x]. *)
Definition _classify_arousal (energy pitch : float) : string :=
  if ((HIGH_ENERGY_THRESHOLD <=? energy) && (HIGH_PITCH_THRESHOLD <=? pitch))%float
  then "High"
  else if (MEDIUM_ENERGY_THRESHOLD <=? energy)%float then "Medium"
  else "Low".

(** One entry of the list [analyze_audio] returns. *)
Record segment := mk_segment {
  seg_timestamp : string;
  energy_score : float;
  pitch_hz : float;
  zcr : float;
  acoustic_arousal : string
}.

(** The generic segment returned when nothing could be analysed. *)
Definition generic_segment : segment :=
  mk_segment "00:00" 0.5%float 150.0%float 0.05%float "Medium".

Section AnalyzeAudio.

(** The audio decoder and the numeric kernels of numpy and librosa. *)
Variable sample : Type.
Variable LIBROSA_AVAILABLE : bool.
(** [librosa.load(file_path, sr=SAMPLE_RATE, mono=True)]: the samples, the
    rate being [SAMPLE_RATE]; [None] when it raises. *)
Variable librosa_load : string -> option (list sample).
(** [float(np.sqrt(np.mean(x ** 2)))]. *)
Variable rms_of : list sample -> float.
(** [librosa.yin(segment, ...)]: the frame estimates; [None] when it raises. *)
Variable yin : list sample -> option (list float).
(** [float(np.median(xs))]. *)
Variable median : list float -> float.
(** [float(np.mean(librosa.feature.zero_crossing_rate(segment)))]. *)
Variable zcr_mean_of : list sample -> float.
(** [round(x, ndigits)]. *)
Variable py_round : float -> nat -> float.

(** [y[start:stop]]. *)
Definition slice (y : list sample) (start stop : nat) : list sample :=
  firstn (stop - start) (skipn start y).

(** [math.ceil(a / b)] on non-negative integers. *)
Definition ceil_div (a b : nat) : nat := ((a + b - 1) / b)%nat.

(** [x or 1e-6] on a float: zero is the only falsy float. *)
Definition or_epsilon (x : float) : float :=
  if (x =? 0)%float then 1e-6%float else x.

(** [min(1.0, x)]: the second argument when it is smaller, else the first. *)
Definition min_one (x : float) : float :=
  if (x <? 1.0)%float then x else 1.0%float.

(** The pitch of one window: the median of the positive estimates. *)
Definition pitch_of (seg : list sample) : float :=
  match yin seg with
  | Some f0 =>
      let valid_f0 := filter (fun f => (0 <? f)%float) f0 in
      if (0 <? List.length valid_f0)%nat then median valid_f0 else 0.0%float
  | None => 0.0%float
  end.

(** The body of the loop for a window that is not skipped. *)
Definition analyze_window (global_rms : float) (i : nat) (seg : list sample)
  : segment :=
  let rms := rms_of seg in
  let energy_normalized :=
    min_one (rms / (global_rms * 2.0 + 1e-6))%float in
  let pitch := pitch_of seg in
  let zcr_mean := zcr_mean_of seg in
  let timestamp := _seconds_to_mmss (i * SEGMENT_DURATION_SECONDS) in
  let arousal := _classify_arousal energy_normalized pitch in
  mk_segment timestamp (py_round energy_normalized 4) (py_round pitch 2)
             (py_round zcr_mean 6) arousal.

(** One iteration of [for i in range(num_segments)]; [sr] is the rate the
    decoder returned.  [len(segment) < sr * 0.5] compares an integer with
    half the rate, that is [2 * len(segment) < sr]. *)
Definition loop_body (sr : nat) (y : list sample) (global_rms : float)
    (results : list segment) (i : nat) : list segment :=
  let segment_samples := (SEGMENT_DURATION_SECONDS * sr)%nat in
  let total_samples := List.length y in
  let start := (i * segment_samples)%nat in
  let stop := Nat.min (start + segment_samples) total_samples in
  let seg := slice y start stop in
  if (2 * List.length seg <? sr)%nat then results
  else results ++ [analyze_window global_rms i seg].

(** The windowing loop of [analyze_audio] on decoded samples. *)
Definition analyze_samples (sr : nat) (y : list sample) : list segment :=
  let segment_samples := (SEGMENT_DURATION_SECONDS * sr)%nat in
  let total_samples := List.length y in
  let num_segments := Nat.max 1 (ceil_div total_samples segment_samples) in
  let global_rms := or_epsilon (rms_of y) in
  fold_left (loop_body sr y global_rms) (seq 0 num_segments) [].

Definition analyze_audio (file_path : string) : list segment :=
  if negb LIBROSA_AVAILABLE then [generic_segment]
  else
    match librosa_load file_path with
    | None => [generic_segment]
    | Some y =>
        let results := analyze_samples SAMPLE_RATE y in
        match results with
        | [] => [generic_segment]
        | _ => results
        end
    end.

End AnalyzeAudio.

(** *** Tone classification per transcript turn *)

Definition POSITIVE_STEMS : list string :=
  [ "thank"; "great"; "good"; "happy"; "perfect"; "nice"; "appreciat";
    "wonderful"; "excellent"; "okay"; "sure"; "fine"; "alright";
    "help"; "assist"; "solut"; "resolv"; "understand"; "pleasant";
    "cooperat"; "willing"; "absolut"; "certainly"; "of course" ].

Definition ANGRY_STEMS : list string :=
  [ "angr"; "upset"; "frustrat"; "annoy"; "complain";
    "terribl"; "horribl"; "unacceptabl"; "ridicul";
    "useless"; "fraud"; "scam"; "cheat"; "liar"; "threaten"; "threat";
    "demand"; "refus"; "impossib"; "wrong"; "mistak";
    "harass"; "abuse"; "abusiv"; "insult"; "stupid"; "idiot";
    "nonsense"; "enough"; "fed up"; "shut up"; "get out";
    "illegal"; "police"; "jail"; "arrest"; "legal action" ].

Definition FEARFUL_STEMS : list string :=
  [ "afraid"; "scar"; "worr"; "anxious"; "nervous"; "panic";
    "fear"; "stress"; "concern"; "uncertain"; "confus"; "lost";
    "pleas don"; "beg"; "mercy"; "please don't"; "please stop" ].

Definition URGENT_STEMS : list string :=
  [ "immediately"; "asap"; "urgent"; "right away"; "right now";
    "quick"; "deadlin"; "overd"; "final notice"; "last chance";
    "warning"; "must pay"; "pay now"; "today itself" ].

(** [sum(1 for s in stems if s in text_lower)]. *)
Definition _stem_score (text_lower : string) (stems : list string) : nat :=
  list_sum (map (fun _ => 1%nat) (filter (fun s => contains s text_lower) stems)).

Definition classify_tone (message : string) : string :=
  let text := lower message in
  let angry_score := _stem_score text ANGRY_STEMS in
  let positive_score := _stem_score text POSITIVE_STEMS in
  let fearful_score := _stem_score text FEARFUL_STEMS in
  let urgent_score := _stem_score text URGENT_STEMS in
  if (1 <=? angry_score)%nat && (positive_score <=? angry_score)%nat
  then "angry/frustrated"
  else if (1 <=? fearful_score)%nat then "fearful/anxious"
  else if (1 <=? urgent_score)%nat then "urgent"
  else if (1 <=? positive_score)%nat then "positive"
  else "neutral".

(** *** Calling-hours check *)

(** A [datetime]; [dt_tzinfo] is the UTC offset of an aware value as a
    [timedelta] in microseconds, [None] for a naive value. *)
Record datetime := mk_datetime {
  dt_year : Z;
  dt_month : Z;
  dt_day : Z;
  dt_hour : Z;
  dt_minute : Z;
  dt_second : Z;
  dt_microsecond : Z;
  dt_tzinfo : option Z
}.

Definition US_PER_SECOND : Z := 1000000.
Definition US_PER_MINUTE : Z := 60 * US_PER_SECOND.
Definition US_PER_HOUR : Z := 60 * US_PER_MINUTE.
Definition US_PER_DAY : Z := 24 * US_PER_HOUR.

(** [IST_OFFSET = timedelta(hours=5, minutes=30)]. *)
Definition IST_OFFSET : Z := 5 * US_PER_HOUR + 30 * US_PER_MINUTE.

(** The proleptic Gregorian ordinal of a date, as [date.toordinal]:
    day 1 is 0001-01-01 and [MAXORDINAL] is 9999-12-31. *)
Definition MAXORDINAL : Z := 3652059.

Definition is_leap (y : Z) : bool :=
  (y mod 4 =? 0)%Z && (negb (y mod 100 =? 0)%Z || (y mod 400 =? 0)%Z).

Definition days_before_year (y : Z) : Z :=
  let y1 := (y - 1)%Z in (y1 * 365 + y1 / 4 - y1 / 100 + y1 / 400)%Z.

Definition DAYS_BEFORE_MONTH : list Z :=
  [-1; 0; 31; 59; 90; 120; 151; 181; 212; 243; 273; 304; 334]%Z.

Definition days_before_month (y m : Z) : Z :=
  (nth (Z.to_nat m) DAYS_BEFORE_MONTH 0
   + (if (2 <? m)%Z && is_leap y then 1 else 0))%Z.

Definition toordinal (dt : datetime) : Z :=
  (days_before_year (dt_year dt) + days_before_month (dt_year dt) (dt_month dt)
   + dt_day dt)%Z.

(** The wall-clock reading of a [datetime] as microseconds counted from the
    midnight that starts ordinal day 0. *)
Definition wall_clock (dt : datetime) : Z :=
  (toordinal dt * US_PER_DAY + dt_hour dt * US_PER_HOUR
   + dt_minute dt * US_PER_MINUTE + dt_second dt * US_PER_SECOND
   + dt_microsecond dt)%Z.

(** [datetime + timedelta] on wall-clock readings: [OverflowError] ([None])
    unless the day of the result is within [1 .. MAXORDINAL]. *)
Definition add_timedelta (t delta : Z) : option Z :=
  let r := (t + delta)%Z in
  let days := (r / US_PER_DAY)%Z in
  if (0 <? days)%Z && (days <=? MAXORDINAL)%Z then Some r else None.

(** [dt.astimezone(timezone(offset))] for an aware [dt]: the value is first
    taken to UTC ([dt - dt.utcoffset()]), then to the target zone
    ([fromutc]: [utc + offset]); the result is the local wall-clock reading. *)
Definition astimezone (dt : datetime) (offset : Z) : option Z :=
  match dt_tzinfo dt with
  | None => None
  | Some myoffset =>
      match add_timedelta (wall_clock dt) (- myoffset) with
      | None => None
      | Some utc => add_timedelta utc offset
      end
  end.

(** [dt.replace(tzinfo=timezone.utc)]. *)
Definition replace_tzinfo_utc (dt : datetime) : datetime :=
  mk_datetime (dt_year dt) (dt_month dt) (dt_day dt) (dt_hour dt)
              (dt_minute dt) (dt_second dt) (dt_microsecond dt) (Some 0%Z).

(** [.hour] and [.minute] of a wall-clock reading. *)
Definition hour_of (t : Z) : Z := ((t mod US_PER_DAY) / US_PER_HOUR)%Z.
Definition minute_of (t : Z) : Z :=
  (((t mod US_PER_DAY) mod US_PER_HOUR) / US_PER_MINUTE)%Z.

(** [strftime("%H:%M")]. *)
Definition strftime_HM (t : Z) : string :=
  fmt_02d (Z.to_nat (hour_of t)) ++ ":" ++ fmt_02d (Z.to_nat (minute_of t)).

(** The dict [check_time_violation] returns. *)
Record time_result := mk_time_result {
  tv_violation : bool;
  tv_ist_time : string;
  tv_clause_id : string;
  tv_rule_name : string;
  tv_description : string
}.

(** The result of the [except Exception] branch. *)
Definition time_parse_error : time_result :=
  mk_time_result false "unknown" "INTERNAL-TIME-01" "Operating Hours Compliance"
    "Could not determine call time. Timestamp parse error.".

Section CheckTimeViolation.

(** [datetime.fromisoformat]: [None] when it raises [ValueError]. *)
Variable fromisoformat : string -> option datetime.

(** The body of the [try]: [None] when an exception is raised in it. *)
Definition check_time_try (call_timestamp_utc : string) : option time_result :=
  let call_timestamp_utc :=
    if endswith call_timestamp_utc "Z"
    then drop_last call_timestamp_utc ++ "+00:00"
    else call_timestamp_utc in
  match fromisoformat call_timestamp_utc with
  | None => None
  | Some utc_dt =>
      let utc_dt :=
        match dt_tzinfo utc_dt with
        | None => replace_tzinfo_utc utc_dt
        | Some _ => utc_dt
        end in
      match astimezone utc_dt IST_OFFSET with
      | None => None
      | Some ist_dt =>
          let hour := hour_of ist_dt in
          let ist_time_str := strftime_HM ist_dt in
          let is_violation := (hour <? 8)%Z || (19 <=? hour)%Z in
          let description :=
            if is_violation then
              let period :=
                if (hour <? 8)%Z then "morning (before 8 AM)"
                else "evening (after 7 PM)" in
              "Call placed outside approved hours (8 AM – 7 PM IST). "
              ++ "Call was received at " ++ ist_time_str
              ++ " IST, which is in the " ++ period ++ "."
            else
              "Call placed within approved hours. IST time: "
              ++ ist_time_str ++ "." in
          Some (mk_time_result is_violation ist_time_str "INTERNAL-TIME-01"
                               "Operating Hours Compliance" description)
      end
  end.

Definition check_time_violation (call_timestamp_utc : string) : time_result :=
  match check_time_try call_timestamp_utc with
  | Some result => result
  | None => time_parse_error
  end.

End CheckTimeViolation.

End AudioProcessor.

(** ** A parser for the plain ISO-8601 shape

    [YYYY-MM-DDTHH:MM:SS], optionally followed by [+HH:MM] or [-HH:MM]:
    the fragment of [datetime.fromisoformat] that the timestamps of this
    service use, for running the calling-hours check on concrete text. *)

Module IsoBasic.
Import AudioProcessor.

Definition digit (c : ascii) : option Z :=
  let n := nat_of_ascii c in
  if (48 <=? n)%nat && (n <=? 57)%nat then Some (Z.of_nat (n - 48)) else None.

Fixpoint number (cs : list ascii) (acc : Z) : option Z :=
  match cs with
  | [] => Some acc
  | c :: rest =>
      match digit c with
      | Some d => number rest (acc * 10 + d)%Z
      | None => None
      end
  end.

Definition days_in_month (y m : Z) : Z :=
  if (m =? 2)%Z then (if is_leap y then 29 else 28)%Z
  else if (m =? 4)%Z || (m =? 6)%Z || (m =? 9)%Z || (m =? 11)%Z then 30%Z
  else 31%Z.

(** The UTC offset text, [None] when malformed; [Some None] when absent. *)
Definition parse_offset (cs : list ascii) : option (option Z) :=
  match cs with
  | [] => Some None
  | [sg; h1; h2; ":"%char; m1; m2] =>
      match number [h1; h2] 0, number [m1; m2] 0 with
      | Some h, Some m =>
          if (h <? 24)%Z && (m <? 60)%Z then
            let off := (h * US_PER_HOUR + m * US_PER_MINUTE)%Z in
            if Ascii.eqb sg "+"%char then Some (Some off)
            else if Ascii.eqb sg "-"%char then Some (Some (- off)%Z)
            else None
          else None
      | _, _ => None
      end
  | _ => None
  end.

Definition fromisoformat (text : string) : option datetime :=
  match list_ascii_of_string text with
  | y1 :: y2 :: y3 :: y4 :: "-"%char :: mo1 :: mo2 :: "-"%char :: d1 :: d2
    :: "T"%char :: h1 :: h2 :: ":"%char :: mi1 :: mi2 :: ":"%char :: s1 :: s2
    :: rest =>
      match number [y1; y2; y3; y4] 0, number [mo1; mo2] 0, number [d1; d2] 0,
            number [h1; h2] 0, number [mi1; mi2] 0, number [s1; s2] 0,
            parse_offset rest with
      | Some y, Some mo, Some d, Some h, Some mi, Some s, Some tz =>
          if (1 <=? y)%Z && (1 <=? mo)%Z && (mo <=? 12)%Z && (1 <=? d)%Z
             && (d <=? days_in_month y mo)%Z && (h <? 24)%Z && (mi <? 60)%Z
             && (s <? 60)%Z
          then Some (mk_datetime y mo d h mi s 0 tz)
          else None
      | _, _, _, _, _, _, _ => None
      end
  | _ => None
  end.

End IsoBasic.

(** ** JSON values and Python's operations on them *)

Module Json.

(** What [json.loads] yields, and what the assembled documents hold. *)
Inductive json : Type :=
| JNull
| JBool (b : bool)
| JInt (n : Z)
| JFloat (x : float)
| JStr (s : string)
| JArr (items : list json)
| JObj (fields : list (string * json)).

Definition dict : Type := list (string * json).

(** [d.get(k)]: the value bound to [k], if any. *)
Fixpoint dict_get {V : Type} (k : string) (d : list (string * V)) : option V :=
  match d with
  | [] => None
  | (k', v) :: rest => if String.eqb k k' then Some v else dict_get k rest
  end.

(** [d.get(k, default)]. *)
Definition dict_get_default {V : Type} (k : string) (d : list (string * V))
    (default : V) : V :=
  match dict_get k d with
  | Some v => v
  | None => default
  end.

(** [d[k] = v]. *)
Fixpoint dict_set {V : Type} (k : string) (v : V) (d : list (string * V))
  : list (string * V) :=
  match d with
  | [] => [(k, v)]
  | (k', v') :: rest =>
      if String.eqb k k' then (k, v) :: rest else (k', v') :: dict_set k v rest
  end.

(** [bool(x)]. *)
Definition truthy (x : json) : bool :=
  match x with
  | JNull => false
  | JBool b => b
  | JInt n => negb (n =? 0)%Z
  | JFloat f => negb (f =? 0)%float
  | JStr s => negb (String.eqb s "")
  | JArr items => negb (Nat.eqb (List.length items) 0)
  | JObj fields => negb (Nat.eqb (List.length fields) 0)
  end.

(** [type(x).__name__]. *)
Definition type_name (x : json) : string :=
  match x with
  | JNull => "NoneType"
  | JBool _ => "bool"
  | JInt _ => "int"
  | JFloat _ => "float"
  | JStr _ => "str"
  | JArr _ => "list"
  | JObj _ => "dict"
  end.

(** The exceptions the embedded code can meet. [OtherException] is any
    class that is not one of the first three. *)
Inductive exn_class : Type :=
| JSONDecodeError
| AttributeError
| TypeError
| OtherException.

Record exn := mk_exn {
  exn_class_of : exn_class;
  exn_str : string   (* str(exc) *)
}.

Definition is_JSONDecodeError (e : exn) : bool :=
  match exn_class_of e with
  | JSONDecodeError => true
  | _ => false
  end.

Definition no_attribute (x : json) (attr : string) : exn :=
  mk_exn AttributeError
    ("'" ++ type_name x ++ "' object has no attribute '" ++ attr ++ "'").

(** [x.get]: only a dict has it. *)
Definition as_dict (x : json) : exn + dict :=
  match x with
  | JObj fields => inr fields
  | _ => inl (no_attribute x "get")
  end.

(** [len(x)]. *)
Definition py_len (x : json) : exn + nat :=
  match x with
  | JStr s => inr (String.length s)
  | JArr items => inr (List.length items)
  | JObj fields => inr (List.length fields)
  | _ => inl (mk_exn TypeError
                ("object of type '" ++ type_name x ++ "' has no len()"))
  end.

(** [for v in x]: the values the iteration yields. *)
Definition py_iter (x : json) : exn + list json :=
  match x with
  | JArr items => inr items
  | JStr s => inr (map (fun c => JStr (String c "")) (list_ascii_of_string s))
  | JObj fields => inr (map (fun kv => JStr (fst kv)) fields)
  | _ => inl (mk_exn TypeError
                ("'" ++ type_name x ++ "' object is not iterable"))
  end.

(** Membership in a set needs a hashable value: lists and dicts are not. *)
Definition hashable (x : json) : exn + json :=
  match x with
  | JArr _ | JObj _ =>
      inl (mk_exn TypeError ("unhashable type: '" ++ type_name x ++ "'"))
  | _ => inr x
  end.

(** [text == x] for a string [text]: only an equal string is equal to it. *)
Definition eq_str (text : string) (x : json) : bool :=
  match x with
  | JStr s => String.eqb text s
  | _ => false
  end.

(** [mapM] in the exception monad: the first exception stops the loop. *)
Fixpoint traverse {A B : Type} (f : A -> exn + B) (xs : list A)
  : exn + list B :=
  match xs with
  | [] => inr []
  | x :: rest =>
      match f x with
      | inl e => inl e
      | inr y =>
          match traverse f rest with
          | inl e => inl e
          | inr ys => inr (y :: ys)
          end
      end
  end.

End Json.

(** ** [services/json_builder.py] *)

Module JsonBuilder.
Import PyStr Json AudioProcessor.

Definition _complexity_from_turns (turn_count : Z) : string :=
  if (turn_count <=? 6)%Z then "low"
  else if (turn_count <=? 14)%Z then "medium"
  else "high".

Definition _severity_values : list string :=
  ["low"; "medium"; "high"; "critical"].

Definition TIME_CLAUSE_ID : string := "INTERNAL-TIME-01".

(** [str(x).lower()], as far as the membership test below can tell: for a
    string it is its lower-case form; for any other JSON value [str(x)] is
    Python's rendering of None, a boolean, a number, a list or a dict, which
    is none of the severity words, and [None] stands for it. *)
Definition str_lower (x : json) : option string :=
  match x with
  | JStr s => Some (lower s)
  | _ => None
  end.

(** [sev not in _severity_values] for
    [sev = str(v.get("severity", "")).lower()]. *)
Definition severity_unknown (v : dict) : bool :=
  match str_lower (dict_get_default "severity" v (JStr "")) with
  | Some sev => negb (mem sev _severity_values)
  | None => true
  end.

(** One iteration of the normalising loop: [v] must have [get];
    [v["severity"] = "medium"] updates the entry in place. *)
Definition normalize_violation (v : json) : exn + json :=
  match as_dict v with
  | inl e => inl e
  | inr d =>
      if severity_unknown d
      then inr (JObj (dict_set "severity" (JStr "medium") d))
      else inr v
  end.

(** The loop [for v in policy_violations: ...]: the container after the
    in-place updates.  A string or a dict is iterated by characters or
    keys, which have no [get]. *)
Definition normalize_violations (policy_violations : json) : exn + json :=
  match policy_violations with
  | JArr items =>
      match traverse normalize_violation items with
      | inl e => inl e
      | inr items' => inr (JArr items')
      end
  | _ =>
      match py_iter policy_violations with
      | inl e => inl e
      | inr items =>
          match traverse normalize_violation items with
          | inl e => inl e
          | inr _ => inr policy_violations
          end
      end
  end.

(** The entry appended for a detected time violation. *)
Definition time_violation_entry (time_violation_result : time_result) : json :=
  JObj [ ("clause_id", JStr TIME_CLAUSE_ID);
         ("rule_name", JStr (tv_rule_name time_violation_result));
         ("severity", JStr "high");
         ("description", JStr (tv_description time_violation_result));
         ("timestamp", JStr (tv_ist_time time_violation_result));
         ("evidence_quote",
          JStr ("Call timestamp detected as "
                ++ tv_ist_time time_violation_result ++ " IST.")) ].

(** [v.get("clause_id")] as an element of the set [existing_ids]. *)
Definition clause_id_of (v : json) : exn + json :=
  match as_dict v with
  | inl e => inl e
  | inr d => hashable (dict_get_default "clause_id" d JNull)
  end.

(** [policy_violations.append(entry)]. *)
Definition py_append (xs entry : json) : exn + json :=
  match xs with
  | JArr items => inr (JArr (items ++ [entry]))
  | _ => inl (no_attribute xs "append")
  end.

(** The block "Ensure time violation is included if detected and not
    already present". *)
Definition ensure_time_violation (time_violation_result : time_result)
    (policy_violations : json) : exn + json :=
  if tv_violation time_violation_result then
    match py_iter policy_violations with
    | inl e => inl e
    | inr items =>
        match traverse clause_id_of items with
        | inl e => inl e
        | inr existing_ids =>
            if negb (existsb (eq_str TIME_CLAUSE_ID) existing_ids)
            then py_append policy_violations
                           (time_violation_entry time_violation_result)
            else inr policy_violations
        end
    end
  else inr policy_violations.

(** The "compliance_and_risk_audit" section of the document. *)
Record audit := mk_audit {
  is_within_policy : json;
  compliance_flags : json;
  policy_violations : json;
  detected_threats : json;
  fraud_risk : json;
  escalation_risk : json;
  urgency_level : json;
  risk_escalation_score : json
}.

(** The block of [build_output_json] that computes the
    "compliance_and_risk_audit" section from [compliance_result] and
    [time_violation_result]; the other sections are computed from other keys
    and do not enter it.  [inl e]: the function raises [e]. *)
Definition build_audit (compliance_result : dict)
    (time_violation_result : time_result) : exn + audit :=
  let policy_violations :=
    dict_get_default "policy_violations" compliance_result (JArr []) in
  match normalize_violations policy_violations with
  | inl e => inl e
  | inr policy_violations =>
      match ensure_time_violation time_violation_result policy_violations with
      | inl e => inl e
      | inr policy_violations =>
          match py_len policy_violations with
          | inl e => inl e
          | inr n =>
              let has_violations := (0 <? n)%nat in
              let is_within_policy :=
                dict_get_default "is_within_policy" compliance_result
                                 (JBool (negb has_violations)) in
              let compliance_flags :=
                dict_get_default "compliance_flags" compliance_result (JArr []) in
              let compliance_flags :=
                if has_violations && negb (truthy compliance_flags)
                then JArr [JStr "Policy Violation Detected"]
                else compliance_flags in
              inr (mk_audit
                     is_within_policy compliance_flags policy_violations
                     (dict_get_default "detected_threats" compliance_result (JArr []))
                     (dict_get_default "fraud_risk" compliance_result (JStr "low"))
                     (dict_get_default "escalation_risk" compliance_result (JStr "low"))
                     (dict_get_default "urgency_level" compliance_result (JStr "low"))
                     (dict_get_default "risk_escalation_score" compliance_result (JInt 0)))
          end
      end
  end.

End JsonBuilder.

(** ** [services/compliance_engine.py] *)

Module ComplianceEngine.
Import PyStr Json.

Definition is_lower_letter (c : ascii) : bool :=
  let n := nat_of_ascii c in (97 <=? n)%nat && (n <=? 122)%nat.

Fixpoint drop_lower_letters (cs : list ascii) : list ascii :=
  match cs with
  | [] => []
  | c :: rest => if is_lower_letter c then drop_lower_letters rest else cs
  end.

Definition newline : ascii := ascii_of_nat 10.
Definition backtick : ascii := ascii_of_nat 96.
Definition fence : string :=
  String backtick (String backtick (String backtick "")).

(** [re.sub(r"^```[a-z]*\n?", "", text)] on a text that starts with the
    fence: the fence, the letters after it and one newline are removed. *)
Definition sub_opening_fence (text : string) : string :=
  match list_ascii_of_string text with
  | b1 :: b2 :: b3 :: rest =>
      if Ascii.eqb b1 backtick && Ascii.eqb b2 backtick && Ascii.eqb b3 backtick
      then
        let rest := drop_lower_letters rest in
        string_of_list_ascii
          match rest with
          | c :: rest' => if Ascii.eqb c newline then rest' else rest
          | [] => []
          end
      else text
  | _ => text
  end.

(** [re.sub(r"```$", "", text)]: [$] is the end of the text, or the place
    before a newline that ends it. *)
Definition sub_closing_fence (text : string) : string :=
  let is_tick c := Ascii.eqb c backtick in
  match rev (list_ascii_of_string text) with
  | b1 :: b2 :: b3 :: rest =>
      if is_tick b1 && is_tick b2 && is_tick b3
      then string_of_list_ascii (rev rest)
      else
        match rest with
        | b4 :: rest' =>
            if Ascii.eqb b1 newline && is_tick b2 && is_tick b3 && is_tick b4
            then string_of_list_ascii (rev rest' ++ [newline])
            else text
        | [] => text
        end
  | _ => text
  end.

Definition _build_fallback_compliance (error : string) : dict :=
  [ ("summary",
     JStr (if negb (String.eqb error "")
           then "Analysis could not be completed. Error: " ++ error
           else "Analysis could not be completed due to a processing error."));
    ("category", JStr "Unknown");
    ("overall_sentiment", JStr "Unknown");
    ("emotional_tone", JStr "Unknown");
    ("tone_progression", JArr [JStr "Unknown"]);
    ("emotional_graph",
     JArr [ JObj [ ("timestamp", JStr "00:00"); ("tone", JStr "Neutral");
                   ("score", JFloat 0.5%float);
                   ("acoustic_arousal", JStr "Low") ] ]);
    ("emotion_timeline",
     JArr [ JObj [("time", JStr "start"); ("emotion", JStr "unknown")];
            JObj [("time", JStr "middle"); ("emotion", JStr "unknown")];
            JObj [("time", JStr "end"); ("emotion", JStr "unknown")] ]);
    ("is_within_policy", JBool true);
    ("compliance_flags", JArr []);
    ("policy_violations", JArr []);
    ("detected_threats", JArr []);
    ("fraud_risk", JStr "low");
    ("escalation_risk", JStr "low");
    ("urgency_level", JStr "low");
    ("risk_escalation_score", JInt 0);
    ("agent_politeness", JStr "fair");
    ("agent_empathy", JStr "medium");
    ("agent_professionalism", JStr "fair");
    ("agent_quality_score", JInt 50);
    ("call_outcome_prediction", JStr "Resolved");
    ("repeat_complaint_detected", JBool false);
    ("final_status", JStr "Pending Review");
    ("recommended_action", JStr "Manual review required.") ].

(** One call of [generate_content]: the model addressed, the prompt and the
    generation configuration. *)
Record generation_call := mk_call {
  call_model_name : string;
  call_prompt : string;
  call_response_mime_type : string;
  call_temperature : float
}.

Definition PRIMARY_MODEL : string := "models/gemini-2.5-flash".
Definition SECONDARY_MODEL : string := "models/gemini-2.0-flash".

Section RunComplianceAnalysis.

(** [genai.GenerativeModel(model_name).generate_content(prompt, ...)]
    followed by [response.text]: the text, or the exception raised. *)
Variable generate_content : generation_call -> exn + string.
(** [json.loads]: the value, or the exception raised. *)
Variable json_loads : string -> exn + json.

(** "Strip markdown fences and parse JSON." *)
Definition _extract_json (text : string) : exn + json :=
  let text := strip text in
  let text :=
    if String.prefix fence text
    then strip (sub_closing_fence (sub_opening_fence text))
    else text in
  json_loads text.

(** The progress line printed after parsing reads
    [len(result.get('policy_violations', []))] and
    [result.get('risk_escalation_score', 'N/A')]. *)
Definition print_done (result : json) : exn + dict :=
  match as_dict result with
  | inl e => inl e
  | inr d =>
      match py_len (dict_get_default "policy_violations" d (JArr [])) with
      | inl e => inl e
      | inr _ => inr d
      end
  end.

(** The body of one [try]: call the model, parse the reply, print. *)
Definition attempt (call : generation_call) : exn + dict :=
  match generate_content call with
  | inl e => inl e
  | inr text =>
      match _extract_json text with
      | inl e => inl e
      | inr result => print_done result
      end
  end.

(** [run_compliance_analysis] from the rendered [prompt] on: the dict it
    returns, and the calls it made to the reasoning service, in order. *)
Definition run_compliance_analysis (prompt : string)
  : dict * list generation_call :=
  let primary := mk_call PRIMARY_MODEL prompt "application/json" 0.05%float in
  match attempt primary with
  | inr result => (result, [primary])
  | inl exc =>
      if is_JSONDecodeError exc then
        (_build_fallback_compliance ("JSON parse error: " ++ exn_str exc),
         [primary])
      else
        (* Retry with gemini-2.0-flash as fallback *)
        let secondary :=
          mk_call SECONDARY_MODEL prompt "application/json" 0.05%float in
        match attempt secondary with
        | inr result => (result, [primary; secondary])
        | inl exc2 =>
            if is_JSONDecodeError exc2 then
              (_build_fallback_compliance
                 ("JSON parse error: " ++ exn_str exc2),
               [primary; secondary])
            else
              (_build_fallback_compliance (exn_str exc2),
               [primary; secondary])
        end
  end.

End RunComplianceAnalysis.

End ComplianceEngine.

(** ** [services/rag_engine.py] *)

Module RagEngine.
Import PyStr Json.

(** A LangChain [Document]; the metadata of this service holds texts. *)
Record Document := mk_document {
  page_content : string;
  metadata : list (string * string)
}.

(** One entry of the clause lists. *)
Record clause := mk_clause {
  clause_id : string;
  rule_name : string;
  description : string;
  source : string
}.

(** The part of the client configuration the retriever reads. *)
Record client_config := mk_client_config {
  custom_rules : list (list (string * string));
  risk_triggers : list string
}.

(** [x or y] on texts: [x] unless it is absent or empty. *)
Definition or_else (x : option string) (y : string) : string :=
  match x with
  | Some s => if String.eqb s "" then y else s
  | None => y
  end.

(** The documents [load_client_rules] builds. *)
Definition client_rule_documents (cfg : client_config) : list Document :=
  (map (fun rule =>
         mk_document
           ("CLAUSE " ++ dict_get_default "rule_id" rule "CUSTOM-XX" ++ ": "
            ++ dict_get_default "rule_name" rule "" ++ String (ascii_of_nat 10) ""
            ++ dict_get_default "description" rule "")
           [ ("clause_id", dict_get_default "rule_id" rule "CUSTOM-XX");
             ("rule_name", dict_get_default "rule_name" rule "");
             ("source", "client_config") ])
      (custom_rules cfg)
  ++
  map (fun trigger =>
         mk_document
           ("RISK TRIGGER: " ++ trigger
            ++ " — Any agent behaviour constituting '" ++ trigger
            ++ "' is a policy violation.")
           [ ("clause_id", "CLIENT-TRIGGER");
             ("rule_name", trigger);
             ("source", "client_config") ])
      (risk_triggers cfg))%list.

(** The loop state of [retrieve_relevant_clauses]: the set [seen_clauses]
    (in insertion order) and the list [clauses]. *)
Definition retrieval_state : Type := (list string * list clause)%type.

Section Retrieval.

(** The vector store and the services behind it. *)
Variable store : Type.
(** [Chroma.from_documents(documents, ...)]: [None] when it raises. *)
Variable from_documents : list Document -> option store.
(** [st.as_retriever(search_kwargs={"k": k}).invoke(message)]: [None] when
    it raises. *)
Variable invoke : store -> nat -> string -> option (list Document).
(** [re.search(r"CLAUSE\s+([\w-]+):", text)], group 1. *)
Variable search_clause_id : string -> option string.
(** [re.search(r"CLAUSE\s+[\w-]+:\s*(.+)", text)], group 1. *)
Variable search_rule_name : string -> option string.

Definition _extract_clause_id (text : string) : string :=
  match search_clause_id text with
  | Some g => g
  | None => "UNKNOWN"
  end.

Definition _extract_rule_name (text : string) : string :=
  match search_rule_name text with
  | Some g => String.substring 0 80 (strip g)
  | None => "Policy Clause"
  end.

(** [load_client_rules]: [Some None] when there is nothing to index,
    [None] when building the index raises. *)
Definition load_client_rules (cfg : client_config) : option (option store) :=
  match custom_rules cfg, risk_triggers cfg with
  | [], [] => Some None
  | _, _ =>
      match client_rule_documents cfg with
      | [] => Some None
      | documents =>
          match from_documents documents with
          | Some client_store => Some (Some client_store)
          | None => None
          end
      end
  end.

(** One document of the RBI store. *)
Definition add_rbi_doc (st : retrieval_state) (doc : Document)
  : retrieval_state :=
  let '(seen_clauses, clauses) := st in
  let meta := metadata doc in
  let clause_id :=
    or_else (dict_get "clause_id" meta) (_extract_clause_id (page_content doc)) in
  if negb (mem clause_id seen_clauses) then
    ((seen_clauses ++ [clause_id])%list,
     (clauses ++ [ mk_clause clause_id
                     (or_else (dict_get "rule_name" meta)
                              (_extract_rule_name (page_content doc)))
                     (page_content doc)
                     (dict_get_default "source" meta "rbi_policies") ])%list)
  else st.

(** One document of the client store. *)
Definition add_client_doc (st : retrieval_state) (doc : Document)
  : retrieval_state :=
  let '(seen_clauses, clauses) := st in
  let meta := metadata doc in
  let clause_id := dict_get_default "clause_id" meta "CLIENT-XX" in
  let key := "CLIENT-" ++ dict_get_default "rule_name" meta clause_id in
  if negb (mem key seen_clauses) then
    ((seen_clauses ++ [key])%list,
     (clauses ++ [ mk_clause clause_id
                     (dict_get_default "rule_name" meta "Client Rule")
                     (page_content doc)
                     "client_config" ])%list)
  else st.

(** One iteration of [for message in agent_messages]; an exception of a
    retriever is caught and leaves the state as it is. *)
Definition query_message (rbi : store) (client_retriever : option store)
    (st : retrieval_state) (message : string) : retrieval_state :=
  let st :=
    match invoke rbi 8 message with
    | Some rbi_docs => fold_left add_rbi_doc rbi_docs st
    | None => st
    end in
  match client_retriever with
  | Some client_store =>
      match invoke client_store 4 message with
      | Some client_docs => fold_left add_client_doc client_docs st
      | None => st
      end
  | None => st
  end.

(** [t.get("message")] when it is truthy. *)
Definition message_of (t : list (string * string)) : option string :=
  match dict_get "message" t with
  | Some m => if String.eqb m "" then None else Some m
  | None => None
  end.

Definition is_agent_turn (t : list (string * string)) : bool :=
  String.eqb (lower (dict_get_default "speaker" t "")) "agent".

Fixpoint messages_of (ts : list (list (string * string))) : list string :=
  match ts with
  | [] => []
  | t :: rest =>
      match message_of t with
      | Some m => m :: messages_of rest
      | None => messages_of rest
      end
  end.

Definition agent_messages_of (transcript_threads : list (list (string * string)))
  : list string :=
  match messages_of (filter is_agent_turn transcript_threads) with
  | [] => messages_of transcript_threads
  | agent_messages => agent_messages
  end.

(** The state at the end of [retrieve_relevant_clauses]; [None] when the
    function raises (building the client index failed). *)
Definition retrieve_state (_rbi_vectorstore : option store)
    (transcript_threads : list (list (string * string)))
    (client_config : option client_config) : option retrieval_state :=
  match _rbi_vectorstore with
  | None => Some ([], [])
  | Some rbi =>
      let client_store :=
        match client_config with
        | Some cfg => load_client_rules cfg
        | None => Some None
        end in
      match client_store with
      | None => None
      | Some client_retriever =>
          Some (fold_left (query_message rbi client_retriever)
                          (agent_messages_of transcript_threads) ([], []))
      end
  end.

Definition retrieve_relevant_clauses (_rbi_vectorstore : option store)
    (transcript_threads : list (list (string * string)))
    (client_config : option client_config) : option (list clause) :=
  option_map snd
    (retrieve_state _rbi_vectorstore transcript_threads client_config).

End Retrieval.

End RagEngine.

(** ** [main.py]: the clause merge of [_run_analysis_pipeline] *)

Module Main.
Import PyStr RagEngine.

(** One iteration of [for c in rag_clauses]. *)
Definition merge_step (st : list string * list clause) (c : clause)
  : list string * list clause :=
  let '(seen_ids, all_clauses) := st in
  if negb (mem (clause_id c) seen_ids)
  then ((seen_ids ++ [clause_id c])%list, (all_clauses ++ [c])%list)
  else st.

(** "Merge: all_clauses first, then add any RAG clauses not already
    present". *)
Definition merge_clauses (all_clauses rag_clauses : list clause)
  : list clause :=
  let seen_ids := map clause_id all_clauses in
  snd (fold_left merge_step rag_clauses (seen_ids, all_clauses)).

End Main.

(** ** [services/audio_processor.py]: the time stamp of float seconds *)

Module SecondsStamp.
Import PyStr Json.

(** [int(x)] on a float: the value truncated toward zero; a NaN raises
    [ValueError] and an infinity [OverflowError].  A finite float is
    [m * 2 ^ e] with its sign. *)
Definition py_int (x : float) : exn + Z :=
  match Prim2SF x with
  | S754_nan =>
      inl (mk_exn OtherException "cannot convert float NaN to integer")
  | S754_infinity _ =>
      inl (mk_exn OtherException "cannot convert float infinity to integer")
  | S754_zero _ => inr 0%Z
  | S754_finite s m e =>
      let magnitude :=
        if (0 <=? e)%Z then (Zpos m * 2 ^ e)%Z else (Zpos m / 2 ^ (- e))%Z in
      inr (if s then (- magnitude)%Z else magnitude)
  end.

(** [f"{n:02d}"] for an integer: the sign counts for the width. *)
Definition fmt_02d (n : Z) : string :=
  let s := if (n <? 0)%Z then "-" ++ of_nat (Z.to_nat (- n))
           else of_nat (Z.to_nat n) in
  if (String.length s <? 2)%nat then "0" ++ s else s.

(** [_seconds_to_mmss] on the float it is declared for; [//] and [%] are
    the floor division and its remainder. *)
Definition _seconds_to_mmss (seconds : float) : exn + string :=
  match py_int seconds with
  | inl e => inl e
  | inr whole =>
      let m := (whole / 60)%Z in
      let s := (whole mod 60)%Z in
      inr (fmt_02d m ++ ":" ++ fmt_02d s)
  end.

End SecondsStamp.

(** ** [services/audio_processor.py]: the transcript annotation *)

Module ToneAnnotation.
Import PyStr Json AudioProcessor.

(** [classify_tone(message)] on a JSON value: the first step is
    [message.lower()], which only a text has. *)
Definition classify_tone_of (message : json) : exn + string :=
  match message with
  | JStr m => inr (classify_tone m)
  | _ => inl (no_attribute message "lower")
  end.

(** One iteration of the loop:
    [turn["tone"] = classify_tone(turn.get("message", ""))]. *)
Definition annotate_turn (turn : json) : exn + json :=
  match as_dict turn with
  | inl e => inl e
  | inr d =>
      match classify_tone_of (dict_get_default "message" d (JStr "")) with
      | inl e => inl e
      | inr tone => inr (JObj (dict_set "tone" (JStr tone) d))
      end
  end.

(** [add_tone_to_transcript]: the value it returns is its argument, with
    every turn updated in place; the first exception ends the loop. *)
Definition add_tone_to_transcript (transcript_threads : json) : exn + json :=
  match py_iter transcript_threads with
  | inl e => inl e
  | inr turns =>
      match traverse annotate_turn turns with
      | inl e => inl e
      | inr annotated =>
          inr (match transcript_threads with
               | JArr _ => JArr annotated
               | _ => transcript_threads
               end)
      end
  end.

End ToneAnnotation.

(** ** [services/json_builder.py]: entities and the emotional graph *)

Module JsonBuilderSections.
Import PyStr Json AudioProcessor.

(** One iteration of [for i, entity in enumerate(entities)]. *)
Definition clean_entity (i : nat) (entity : json) : exn + json :=
  match as_dict entity with
  | inl e => inl e
  | inr d =>
      inr (JObj [ ("text", dict_get_default "text" d (JStr ""));
                  ("id", dict_get_default "id" d
                           (JStr ("entity_" ++ fmt_02d i)));
                  ("type", dict_get_default "type" d (JStr "UNKNOWN")) ])
  end.

(** The loop from index [i] on. *)
Fixpoint clean_entities_from (i : nat) (entities : list json)
  : exn + list json :=
  match entities with
  | [] => inr []
  | entity :: rest =>
      match clean_entity i entity with
      | inl e => inl e
      | inr cleaned =>
          match clean_entities_from (S i) rest with
          | inl e => inl e
          | inr cleaned_rest => inr (cleaned :: cleaned_rest)
          end
      end
  end.

(** The list [cleaned_entities] built from
    [transcription_result.get("entities", [])]. *)
Definition clean_entities (entities : json) : exn + list json :=
  match py_iter entities with
  | inl e => inl e
  | inr items => clean_entities_from 0 items
  end.

(** [{seg["timestamp"]: seg["acoustic_arousal"] for seg in acoustic_segments}]:
    a later segment replaces an earlier one with the same time stamp. *)
Definition acoustic_map (acoustic_segments : list segment)
  : list (string * string) :=
  fold_left (fun m seg => dict_set (seg_timestamp seg) (acoustic_arousal seg) m)
            acoustic_segments [].

(** ["acoustic_arousal" not in point or not point["acoustic_arousal"]]. *)
Definition needs_arousal (point : dict) : bool :=
  match dict_get "acoustic_arousal" point with
  | None => true
  | Some v => negb (truthy v)
  end.

(** [acoustic_map.get(point.get("timestamp", ""), "Low")]: the key must be
    hashable, and only a text can be a key of the map. *)
Definition lookup_arousal (amap : list (string * string)) (point : dict)
  : exn + json :=
  match hashable (dict_get_default "timestamp" point (JStr "")) with
  | inl e => inl e
  | inr (JStr ts) => inr (JStr (dict_get_default ts amap "Low"))
  | inr _ => inr (JStr "Low")
  end.

(** One iteration of [for point in emotional_graph], on a point that is a
    JSON object. *)
Definition merge_point (amap : list (string * string)) (point : dict)
  : exn + dict :=
  if needs_arousal point then
    match lookup_arousal amap point with
    | inl e => inl e
    | inr arousal => inr (dict_set "acoustic_arousal" arousal point)
    end
  else inr point.

(** The block "Merge acoustic arousal if not already in emotional_graph",
    on an emotional graph that is a list of JSON objects. *)
Definition merge_acoustic_arousal (acoustic_segments : list segment)
    (emotional_graph : list dict) : exn + list dict :=
  match acoustic_segments, emotional_graph with
  | _ :: _, _ :: _ =>
      traverse (merge_point (acoustic_map acoustic_segments)) emotional_graph
  | _, _ => inr emotional_graph
  end.

End JsonBuilderSections.

(** ** [services/rag_engine.py]: parsing the policy files *)

Module PolicyCorpus.
Import PyStr Json RagEngine.

Section Parsing.

(** [re.finditer(r"CLAUSE\s+([\w-]+):\s*(.+?)\n(.*?)(?=CLAUSE\s+[\w-]+:|\Z)",
    content, re.DOTALL)]: the groups 1, 2 and 3 of the matches, in order. *)
Variable clause_matches : string -> list (string * string * string).

(** [_parse_clause_documents], from the [*.txt] files of the directory in
    sorted order, each with its name and content. *)
Definition _parse_clause_documents (files : list (string * string))
  : list Document :=
  flat_map
    (fun file =>
       let '(txt_file_name, content) := file in
       map (fun m =>
              let '(g1, g2, g3) := m in
              let clause_id := strip g1 in
              let rule_name := strip g2 in
              let description := strip g3 in
              mk_document
                ("CLAUSE " ++ clause_id ++ ": " ++ rule_name
                 ++ String (ascii_of_nat 10) "" ++ description)
                [ ("clause_id", clause_id);
                  ("rule_name", rule_name);
                  ("source", txt_file_name) ])
           (clause_matches content))
    files.

(** [get_all_policy_clauses], from the same files. *)
Definition get_all_policy_clauses (files : list (string * string))
  : list clause :=
  flat_map
    (fun file =>
       let '(txt_file_name, content) := file in
       map (fun m =>
              let '(g1, g2, g3) := m in
              mk_clause (strip g1) (strip g2) (strip g3) txt_file_name)
           (clause_matches content))
    files.

End Parsing.

End PolicyCorpus.

(** ** [services/rag_engine.py]: the retriever on the transcript as parsed *)

Module TranscriptRetrieval.
Import PyStr Json RagEngine.

(** The condition of the first comprehension,
    [t.get("speaker", "").lower() == "agent" and t.get("message")]. *)
Definition is_agent_message (t : json) : exn + bool :=
  match as_dict t with
  | inl e => inl e
  | inr d =>
      match dict_get_default "speaker" d (JStr "") with
      | JStr speaker =>
          inr (String.eqb (lower speaker) "agent"
               && truthy (dict_get_default "message" d JNull))
      | speaker => inl (no_attribute speaker "lower")
      end
  end.

(** The condition of the second comprehension, [t.get("message")]. *)
Definition has_message (t : json) : exn + bool :=
  match as_dict t with
  | inl e => inl e
  | inr d => inr (truthy (dict_get_default "message" d JNull))
  end.

(** [t["message"]]; it is read only where the condition held, so on an
    object that has the key. *)
Definition message_value (t : json) : json :=
  match t with
  | JObj d => dict_get_default "message" d JNull
  | _ => JNull
  end.

(** [[t["message"] for t in turns if cond(t)]]: the first exception of
    the condition ends the comprehension. *)
Fixpoint comprehension (cond : json -> exn + bool) (turns : list json)
  : exn + list json :=
  match turns with
  | [] => inr []
  | t :: rest =>
      match cond t with
      | inl e => inl e
      | inr keep =>
          match comprehension cond rest with
          | inl e => inl e
          | inr messages =>
              inr (if keep then message_value t :: messages else messages)
          end
      end
  end.

(** The list [agent_messages] of [retrieve_relevant_clauses], with the
    fallback to every message when no agent turn has one. *)
Definition agent_messages (transcript_threads : json) : exn + list json :=
  match py_iter transcript_threads with
  | inl e => inl e
  | inr turns =>
      match comprehension is_agent_message turns with
      | inl e => inl e
      | inr [] => comprehension has_message turns
      | inr agent_messages => inr agent_messages
      end
  end.

Section Retrieval.

Variable store : Type.
(** [Chroma.from_documents(documents, ...)], with the exception it may
    raise. *)
Variable from_documents : list Document -> exn + store.
(** [st.as_retriever(search_kwargs={"k": k}).invoke(message)] on the message
    as the transcript has it: [None] when it raises. *)
Variable invoke : store -> nat -> json -> option (list Document).
Variable search_clause_id : string -> option string.
Variable search_rule_name : string -> option string.

(** [load_client_rules]: [None] when there is nothing to index. *)
Definition load_client_rules (cfg : client_config) : exn + option store :=
  match custom_rules cfg, risk_triggers cfg with
  | [], [] => inr None
  | _, _ =>
      match client_rule_documents cfg with
      | [] => inr None
      | documents =>
          match from_documents documents with
          | inr client_store => inr (Some client_store)
          | inl e => inl e
          end
      end
  end.

(** One iteration of [for message in agent_messages]; an exception of a
    retriever is caught and leaves the state as it is. *)
Definition query_message (rbi : store) (client_retriever : option store)
    (st : retrieval_state) (message : json) : retrieval_state :=
  let st :=
    match invoke rbi 8 message with
    | Some rbi_docs =>
        fold_left (add_rbi_doc search_clause_id search_rule_name) rbi_docs st
    | None => st
    end in
  match client_retriever with
  | Some client_store =>
      match invoke client_store 4 message with
      | Some client_docs => fold_left add_client_doc client_docs st
      | None => st
      end
  | None => st
  end.

(** [retrieve_relevant_clauses]: the store is tested first, the client
    index is built next, the messages are collected outside every [try],
    and only the queries are guarded. *)
Definition retrieve_relevant_clauses (_rbi_vectorstore : option store)
    (transcript_threads : json) (client_config : option client_config)
  : exn + list clause :=
  match _rbi_vectorstore with
  | None => inr []
  | Some rbi =>
      match match client_config with
            | Some cfg => load_client_rules cfg
            | None => inr None
            end with
      | inl e => inl e
      | inr client_retriever =>
          match agent_messages transcript_threads with
          | inl e => inl e
          | inr messages =>
              inr (snd (fold_left (query_message rbi client_retriever)
                                  messages ([], [])))
          end
      end
  end.

End Retrieval.

End TranscriptRetrieval.

(** ** [services/compliance_engine.py]: the clause section of the prompt *)

Module PromptSections.
Import PyStr Json RagEngine.

(** [sep.join(lines)]. *)
Definition join (sep : string) (lines : list string) : string :=
  match lines with
  | [] => ""
  | first :: rest => fold_left (fun acc line => acc ++ sep ++ line) rest first
  end.

Definition LF : string := String (ascii_of_nat 10) "".

(** One line pair of [_format_clauses]:
    [f"[{c['clause_id']}] {c['rule_name']}\n  {c['description'][:200]}"]. *)
Definition format_clause (c : clause) : string :=
  "[" ++ clause_id c ++ "] " ++ rule_name c ++ LF ++ "  "
  ++ String.substring 0 200 (description c).

Definition _format_clauses (clauses : list clause) : string :=
  match clauses with
  | [] => "No specific clauses retrieved. Apply general RBI recovery guidelines."
  | _ => join LF (map format_clause clauses)
  end.

End PromptSections.

(** ** [main.py]: validation of a client configuration *)

Module ConfigValidation.
Import PyStr Json.

(** [k in d] for a dict. *)
Definition has_key (k : string) (d : dict) : bool :=
  match dict_get k d with
  | Some _ => true
  | None => false
  end.

Definition is_str (x : json) : bool :=
  match x with JStr _ => true | _ => false end.
Definition is_list (x : json) : bool :=
  match x with JArr _ => true | _ => false end.
Definition is_dict (x : json) : bool :=
  match x with JObj _ => true | _ => false end.

(** The issue reported when the value of [key] is present and not of the
    wanted type. *)
Definition type_issue (config : dict) (key : string)
    (wanted : json -> bool) (issue : string) : list string :=
  match dict_get key config with
  | Some v => if wanted v then [] else [issue]
  | None => []
  end.

(** One iteration of [for i, rule in enumerate(config["custom_rules"])]. *)
Definition rule_issue (i : nat) (rule : json) : list string :=
  match rule with
  | JObj fields =>
      if negb (has_key "rule_id" fields) || negb (has_key "rule_name" fields)
      then ["'custom_rules[" ++ of_nat i
            ++ "]' must have 'rule_id' and 'rule_name'."]
      else []
  | _ => ["'custom_rules[" ++ of_nat i ++ "]' must be an object."]
  end.

Fixpoint rule_issues_from (i : nat) (rules : list json) : list string :=
  match rules with
  | [] => []
  | rule :: rest => (rule_issue i rule ++ rule_issues_from (S i) rest)%list
  end.

Definition custom_rules_issues (config : dict) : list string :=
  match dict_get "custom_rules" config with
  | None => []
  | Some (JArr rules) => rule_issues_from 0 rules
  | Some _ => ["'custom_rules' must be an array of objects."]
  end.

(** The list [issues] of [validate_config]. *)
Definition config_issues (config : dict) : list string :=
  (type_issue config "business_domain" is_str
              "'business_domain' must be a string."
   ++ type_issue config "monitored_products" is_list
                 "'monitored_products' must be an array of strings."
   ++ type_issue config "risk_triggers" is_list
                 "'risk_triggers' must be an array of strings."
   ++ custom_rules_issues config)%list.

(** [{**default, **config}]: the bindings of [config] are written over
    those of [default], in order. *)
Definition dict_merge (default config : dict) : dict :=
  fold_left (fun merged kv => dict_set (fst kv) (snd kv) merged) config default.

(** The response of [validate_config]; [default] is the configuration
    [_load_default_config] reads from the file, [config] the parsed body of
    the request. *)
Record validation := mk_validation {
  valid : bool;
  issues : list string;
  effective_config : dict
}.

Definition validate_config (default config : dict) : validation :=
  let issues := config_issues config in
  let merged := dict_merge default config in
  mk_validation (Nat.eqb (List.length issues) 0) issues merged.

End ConfigValidation.

(* ================================================================= *)
(** * Part II — vocabulary of the properties *)
(* ================================================================= *)

Import PyStr Json AudioProcessor JsonBuilder ComplianceEngine RagEngine Main.

(** ** Tone classification *)

(** The decision of [classify_tone] as a function of the four scores. *)
Definition tone_of_scores (a p f u : nat) : string :=
  if (1 <=? a)%nat && (p <=? a)%nat then "angry/frustrated"
  else if (1 <=? f)%nat then "fearful/anxious"
  else if (1 <=? u)%nat then "urgent"
  else if (1 <=? p)%nat then "positive"
  else "neutral".

(** The reading "counts substring occurrences per lexicon": the number of
    positions of [text] at which [sub] occurs. *)
Fixpoint occurrences (sub text : string) : nat :=
  match text with
  | EmptyString => if String.prefix sub EmptyString then 1%nat else 0%nat
  | String _ rest =>
      ((if String.prefix sub text then 1 else 0) + occurrences sub rest)%nat
  end.

(** The count of that reading: the occurrences of the stems of a lexicon. *)
Definition occurrence_count (text : string) (stems : list string) : nat :=
  list_sum (map (fun s => occurrences s text) stems).

(** The tone that reading gives: the priority rule on occurrence counts. *)
Definition tone_by_occurrences (message : string) : string :=
  let text := lower message in
  tone_of_scores (occurrence_count text ANGRY_STEMS)
                 (occurrence_count text POSITIVE_STEMS)
                 (occurrence_count text FEARFUL_STEMS)
                 (occurrence_count text URGENT_STEMS).

(** A line with one angry stem, once, and one positive stem, three times. *)
Definition fraud_and_thanks : string :=
  "fraud. thank you, thank you, thank you".

(** A line with one angry stem and three positive stems. *)
Definition upset_but_thankful : string :=
  "Thank you, that is GREAT help, though I was upset".

(** ** Calling hours *)

(** The text handed to the parser: a trailing Z is read as +00:00. *)
Definition timestamp_text (call_timestamp_utc : string) : string :=
  if endswith call_timestamp_utc "Z"
  then drop_last call_timestamp_utc ++ "+00:00"
  else call_timestamp_utc.

(** The UTC offset of a parsed timestamp; a naive one is taken as UTC. *)
Definition utc_offset_of (dt : datetime) : Z :=
  match dt_tzinfo dt with
  | Some offset => offset
  | None => 0%Z
  end.

(** The wall clock in UTC and in UTC+5:30 of the instant [dt] denotes. *)
Definition utc_wall_clock (dt : datetime) : Z :=
  (wall_clock dt - utc_offset_of dt)%Z.
Definition ist_wall_clock (dt : datetime) : Z :=
  (utc_wall_clock dt + IST_OFFSET)%Z.

(** The UTC+5:30 local hour: whole hours since the epoch midnight, modulo
    24. *)
Definition ist_local_hour (dt : datetime) : Z :=
  ((ist_wall_clock dt / US_PER_HOUR) mod 24)%Z.

(** A wall-clock reading falls on a day a [datetime] can hold
    (years 1 to 9999). *)
Definition representable (t : Z) : bool :=
  (0 <? t / US_PER_DAY)%Z && (t / US_PER_DAY <=? MAXORDINAL)%Z.

(** ** Windows of the acoustic segmenter *)

Section WindowingVocabulary.

Variable sample : Type.
Variable rms_of : list sample -> float.
Variable yin : list sample -> option (list float).
Variable median : list float -> float.
Variable zcr_mean_of : list sample -> float.
Variable py_round : float -> nat -> float.

(** The samples of window [i]. *)
Definition window (sr : nat) (y : list sample) (i : nat) : list sample :=
  let segment_samples := (SEGMENT_DURATION_SECONDS * sr)%nat in
  slice sample y (i * segment_samples)
        (Nat.min (i * segment_samples + segment_samples) (List.length y)).

(** The segment computed for window [i]. *)
Definition window_segment (sr : nat) (y : list sample) (i : nat) : segment :=
  analyze_window sample rms_of yin median zcr_mean_of py_round
                 (or_epsilon (rms_of y)) i (window sr y i).

(** The number of windows the loop visits. *)
Definition num_windows (sr : nat) (y : list sample) : nat :=
  Nat.max 1 (ceil_div (List.length y) (SEGMENT_DURATION_SECONDS * sr)).

(** The number of samples of the last window. *)
Definition trailing_length (sr : nat) (y : list sample) : nat :=
  (List.length y - (num_windows sr y - 1) * (SEGMENT_DURATION_SECONDS * sr))%nat.

(** The number of windows kept: all, or all but the last. *)
Definition kept_windows (sr : nat) (y : list sample) : nat :=
  if (2 * trailing_length sr y <? sr)%nat
  then (num_windows sr y - 1)%nat
  else num_windows sr y.

End WindowingVocabulary.

Arguments window {sample} sr y i.
Arguments num_windows {sample} sr y.
Arguments trailing_length {sample} sr y.
Arguments kept_windows {sample} sr y.
Arguments window_segment {sample} rms_of yin median zcr_mean_of py_round sr y i.

(** ** Output assembler *)

(** The violation list the reasoning step reported. *)
Definition reported_violations (compliance_result : dict) : json :=
  dict_get_default "policy_violations" compliance_result (JArr []).

(** The entry carries the fixed temporal clause id. *)
Definition has_time_id (v : json) : bool :=
  match v with
  | JObj d => eq_str TIME_CLAUSE_ID (dict_get_default "clause_id" d JNull)
  | _ => false
  end.

Definition count_time_id (items : list json) : nat :=
  List.length (filter has_time_id items).

(** The severity is a text whose lower-case form is canonical. *)
Definition severity_accepted (d : dict) : Prop :=
  exists s, dict_get "severity" d = Some (JStr s)
            /\ In (lower s) _severity_values.

(** *** Inputs for running the assembler *)

(** A result of the temporal checker reporting a call at 19:30. *)
Definition evening_call : time_result :=
  mk_time_result true "19:30" "INTERNAL-TIME-01" "Operating Hours Compliance"
    ("Call placed outside approved hours (8 AM – 7 PM IST). "
     ++ "Call was received at 19:30 IST, which is in the evening (after 7 PM).").

(** A result of the temporal checker reporting a call at 15:30. *)
Definition afternoon_call : time_result :=
  mk_time_result false "15:30" "INTERNAL-TIME-01" "Operating Hours Compliance"
    "Call placed within approved hours. IST time: 15:30.".

(** Reasoning outputs used to run the theorems. *)
Definition one_threat_reported : dict :=
  [("policy_violations",
    JArr [JObj [("clause_id", JStr "RBI-REC-04");
                ("severity", JStr "critical")]])].

Definition odd_severities_reported : dict :=
  [("policy_violations",
    JArr [JObj [("clause_id", JStr "RBI-REC-04")];
          JObj [("clause_id", JStr "RBI-REC-07");
                ("severity", JStr "sever")]])].


(** ** Reasoning orchestrator *)

(** The keys of the JSON object the prompt asks for. *)
Definition COMPLIANCE_KEYS : list string :=
  [ "summary"; "category"; "overall_sentiment"; "emotional_tone";
    "tone_progression"; "emotional_graph"; "emotion_timeline";
    "is_within_policy"; "compliance_flags"; "policy_violations";
    "detected_threats"; "fraud_risk"; "escalation_risk"; "urgency_level";
    "risk_escalation_score"; "agent_politeness"; "agent_empathy";
    "agent_professionalism"; "agent_quality_score";
    "call_outcome_prediction"; "repeat_complaint_detected"; "final_status";
    "recommended_action" ].

Definition primary_call (prompt : string) : generation_call :=
  mk_call PRIMARY_MODEL prompt "application/json" 0.05%float.
Definition secondary_call (prompt : string) : generation_call :=
  mk_call SECONDARY_MODEL prompt "application/json" 0.05%float.

(** The failure note handed to the fallback document. *)
Definition failure_note (e : exn) : string :=
  if is_JSONDecodeError e then "JSON parse error: " ++ exn_str e
  else exn_str e.

(** *** Services for running the orchestrator *)

(** A reasoning service that is down, and one that answers with prose. *)
Definition service_down (_ : generation_call) : exn + string :=
  inl (mk_exn OtherException "503 Service Unavailable").
Definition service_prose (_ : generation_call) : exn + string :=
  inr "I cannot produce the audit.".
(** A parser that rejects the text, as [json.loads] does for prose. *)
Definition rejecting_loads (_ : string) : exn + json :=
  inl (mk_exn JSONDecodeError "Expecting value: line 1 column 1 (char 0)").

(** ** Clause retrieval *)

Definition clause_ids (cs : list clause) : list string := map clause_id cs.

(** The clauses of a list whose key was not seen before, in order, each
    with its key: [seen] grows as the list is read. *)
Fixpoint first_by_key (seen : list string) (cands : list (string * clause))
  : list (string * clause) :=
  match cands with
  | [] => []
  | (k, c) :: rest =>
      if mem k seen then first_by_key seen rest
      else (k, c) :: first_by_key (seen ++ [k]) rest
  end.

(** One step of a deduplicating loop on a keyed clause. *)
Definition add_candidate (st : retrieval_state) (kc : string * clause)
  : retrieval_state :=
  let '(seen, clauses) := st in
  if negb (mem (fst kc) seen)
  then ((seen ++ [fst kc])%list, (clauses ++ [snd kc])%list)
  else st.

Section RetrievalVocabulary.

Variable store : Type.
Variable invoke : store -> nat -> string -> option (list Document).
Variable search_clause_id : string -> option string.
Variable search_rule_name : string -> option string.

(** The deduplication key and the clause a hit of the RBI store stands
    for. *)
Definition rbi_candidate (doc : Document) : string * clause :=
  let meta := metadata doc in
  let clause_id :=
    or_else (dict_get "clause_id" meta)
            (_extract_clause_id search_clause_id (page_content doc)) in
  (clause_id,
   mk_clause clause_id
     (or_else (dict_get "rule_name" meta)
              (_extract_rule_name search_rule_name (page_content doc)))
     (page_content doc)
     (dict_get_default "source" meta "rbi_policies")).

(** The deduplication key and the clause a hit of the client store stands
    for. *)
Definition client_candidate (doc : Document) : string * clause :=
  let meta := metadata doc in
  let clause_id := dict_get_default "clause_id" meta "CLIENT-XX" in
  ("CLIENT-" ++ dict_get_default "rule_name" meta clause_id,
   mk_clause clause_id (dict_get_default "rule_name" meta "Client Rule")
             (page_content doc) "client_config").

Definition hits (st : store) (k : nat) (message : string) : list Document :=
  match invoke st k message with
  | Some docs => docs
  | None => []
  end.

(** The hits of all queries, in the order the loop meets them. *)
Definition candidates (rbi : store) (client_retriever : option store)
    (messages : list string) : list (string * clause) :=
  flat_map (fun message =>
              (map rbi_candidate (hits rbi 8 message)
               ++ match client_retriever with
                  | Some client_store =>
                      map client_candidate (hits client_store 4 message)
                  | None => []
                  end)%list)
           messages.

End RetrievalVocabulary.

(** The clauses of [rag_clauses] whose id was not seen before, in order. *)
Fixpoint first_by_id (seen_ids : list string) (rag_clauses : list clause)
  : list clause :=
  match rag_clauses with
  | [] => []
  | c :: rest =>
      if mem (clause_id c) seen_ids then first_by_id seen_ids rest
      else c :: first_by_id (seen_ids ++ [clause_id c]) rest
  end.

(** The entry did not come from the client rule index. *)
Definition not_from_client (c : clause) : bool :=
  negb (String.eqb (source c) "client_config").

(** *** A store and inputs for running the retriever *)

(** A vector store that is the list of its documents and returns the first
    [k] of them for every query. *)
Definition list_store_hits (st : list Document) (k : nat) (_ : string)
  : option (list Document) := Some (firstn k st).

Definition no_match (_ : string) : option string := None.

Definition one_agent_turn : list (list (string * string)) :=
  [[("speaker", "agent"); ("message", "pay now or we call the police");
    ("timestamp", "00:05")]].

Definition two_risk_triggers : client_config :=
  mk_client_config [] ["threat"; "abuse"].

Definition rbi_one_clause : list Document :=
  [mk_document "CLAUSE RBI-REC-04: No Physical Threats"
               [("clause_id", "RBI-REC-04"); ("rule_name", "No Physical Threats");
                ("source", "rbi_recovery_guidelines.txt")]].

(** ** Further vocabulary *)

Import ToneAnnotation.

(** ** Decimal digits of the time stamps *)

(** The character of a decimal digit. *)
Definition digit_char (d : nat) : ascii := ascii_of_nat (48 + d).

(** Two decimal digits. *)
Definition two_digits (n : nat) : string :=
  String (digit_char (n / 10)) (String (digit_char (n mod 10)) "").

(** The labels of the tone classifier. *)
Definition TONE_LABELS : list string :=
  ["angry/frustrated"; "fearful/anxious"; "urgent"; "positive"; "neutral"].

(** A turn the annotation can process: an object whose message is absent or
    a text. *)
Definition turn_with_text (turn : json) : bool :=
  match turn with
  | JObj d =>
      match dict_get "message" d with
      | Some (JStr _) | None => true
      | Some _ => false
      end
  | _ => false
  end.

(** A transcript of the transcriber: an agent turn and a customer turn. *)
Definition two_turns : list json :=
  [JObj [("speaker", JStr "agent");
         ("message", JStr "You must pay now or we call the police");
         ("timestamp", JStr "00:05")];
   JObj [("speaker", JStr "customer"); ("timestamp", JStr "00:12")]].

(** A turn the retriever can read: an object whose speaker is absent or a
    text. *)
Definition turn_with_speaker (t : json) : bool :=
  match t with
  | JObj d =>
      match dict_get "speaker" d with
      | Some (JStr _) | None => true
      | Some _ => false
      end
  | _ => false
  end.

(** The speaker of the turn is the agent, in any letter case. *)
Definition spoken_by_agent (t : json) : bool :=
  match t with
  | JObj d =>
      match dict_get "speaker" d with
      | Some (JStr speaker) => String.eqb (lower speaker) "agent"
      | _ => false
      end
  | _ => false
  end.

(** The turn has a message that is neither absent, null, empty nor zero. *)
Definition with_message (t : json) : bool :=
  match t with
  | JObj d =>
      match dict_get "message" d with
      | Some m => truthy m
      | None => false
      end
  | _ => false
  end.

(** The message of the turn. *)
Definition message_in (t : json) : json :=
  match t with
  | JObj d =>
      match dict_get "message" d with
      | Some m => m
      | None => JNull
      end
  | _ => JNull
  end.

(** A transcript whose second turn has a null speaker. *)
Definition null_speaker_turns : list json :=
  [JObj [("speaker", JStr "agent"); ("message", JStr "Hello");
         ("timestamp", JStr "00:05")];
   JObj [("speaker", JNull); ("message", JStr "Who is this?");
         ("timestamp", JStr "00:12")]].

(** A store whose index is always built and whose queries always raise. *)
Definition unit_store_built (_ : list Document) : exn + unit := inr tt.
Definition queries_raise (_ : unit) (_ : nat) (_ : json)
  : option (list Document) := None.

(** The same transcript with a turn whose message is null. *)
Definition null_message_turns : list json :=
  [JObj [("speaker", JStr "agent"); ("message", JStr "Hello");
         ("timestamp", JStr "00:05")];
   JObj [("speaker", JStr "customer"); ("message", JNull);
         ("timestamp", JStr "00:12")]].

Import JsonBuilderSections.

(** ** Shapes of the assembler's inputs *)

(** A violation entry the assembler can process: an object whose clause id
    can be put in a set. *)
Definition violation_entry_ok (v : json) : bool :=
  match v with
  | JObj d =>
      match dict_get_default "clause_id" d JNull with
      | JArr _ | JObj _ => false
      | _ => true
      end
  | _ => false
  end.

Definition is_object (v : json) : bool :=
  match v with
  | JObj _ => true
  | _ => false
  end.

(** The last segment with the time stamp [ts]. *)
Definition last_segment_at (ts : string) (acoustic_segments : list segment)
  : option segment :=
  find (fun seg => String.eqb ts (seg_timestamp seg)) (rev acoustic_segments).

(** A reasoning output whose second violation entry is a bare text. *)
Definition text_entry_reported : dict :=
  [("policy_violations",
    JArr [JObj [("clause_id", JStr "RBI-REC-04")]; JStr "RBI-REC-07"])].

(** The arousal the merge gives to a point that lacks one. *)
Definition merged_arousal (acoustic_segments : list segment) (point : dict)
  : string :=
  match dict_get_default "timestamp" point (JStr "") with
  | JStr ts =>
      match last_segment_at ts acoustic_segments with
      | Some seg => acoustic_arousal seg
      | None => "Low"
      end
  | _ => "Low"
  end.

(** ** Replies of the reasoning service *)

(** A reply wrapped in a markdown fence: the fence, a language tag, a
    newline, the body, a newline and the closing fence. *)
Definition fenced (lang body : string) : string :=
  fence ++ lang ++ String newline "" ++ body ++ String newline "" ++ fence.

(** [len] is defined on the value: it is a text, a list or an object. *)
Definition sized (x : json) : bool :=
  match x with
  | JStr _ | JArr _ | JObj _ => true
  | _ => false
  end.

(** A service that answers every call with the same text. *)
Definition service_says (text : string) (_ : generation_call) : exn + string :=
  inr text.
(** A parser that reads every text as the empty list. *)
Definition loads_empty_list (_ : string) : exn + json := inr (JArr []).

(** The three characters of a fence. *)
Definition ticks : list ascii := [backtick; backtick; backtick].

Import PolicyCorpus.

(** ** Policy files *)

(** The clause an indexed document stands for: its metadata and the
    description after the heading line. *)
Definition indexed_clause (c : clause) : Document :=
  mk_document
    ("CLAUSE " ++ clause_id c ++ ": " ++ rule_name c
     ++ String (ascii_of_nat 10) "" ++ description c)
    [ ("clause_id", clause_id c); ("rule_name", rule_name c);
      ("source", source c) ].

(** A pattern matcher for files that hold one clause, the whole content
    being its body. *)
Definition one_clause_per_file (content : string)
  : list (string * string * string) :=
  [("RBI-REC-04", "No Physical Threats", content)].

Definition two_policy_files : list (string * string) :=
  [("internal.txt", "Agents must not call before 8 AM.");
   ("rbi.txt", "Agents must not threaten.")].

Import PromptSections ConfigValidation.

(** ** Client configurations *)

(** A custom rule the validation accepts: an object with a rule id and a
    rule name. *)
Definition rule_ok (rule : json) : bool :=
  match rule with
  | JObj fields => has_key "rule_id" fields && has_key "rule_name" fields
  | _ => false
  end.

(** The value of [key], when present, has the wanted type. *)
Definition key_ok (config : dict) (key : string) (wanted : json -> bool)
  : bool :=
  match dict_get key config with
  | Some v => wanted v
  | None => true
  end.

(** The configuration is well-typed in the four fields the validation
    reads. *)
Definition config_ok (config : dict) : bool :=
  key_ok config "business_domain" is_str
  && key_ok config "monitored_products" is_list
  && key_ok config "risk_triggers" is_list
  && match dict_get "custom_rules" config with
     | None => true
     | Some (JArr rules) => forallb rule_ok rules
     | Some _ => false
     end.

Definition sample_default_config : dict :=
  [("business_domain", JStr "Banking / Debt Recovery");
   ("active_policy_set", JStr "RBI_Compliance_v2.1");
   ("risk_triggers", JArr [JStr "threat"])].

Definition sample_client_config : dict :=
  [("business_domain", JStr "Credit Cards");
   ("custom_rules",
    JArr [JObj [("rule_id", JStr "CC-01"); ("rule_name", JStr "No Sunday calls")]])].

(* ================================================================= *)
(** * Part III — properties *)
(* ================================================================= *)

(** ** Text primitives *)

Lemma prefix_spec (sub text : string) :
  String.prefix sub text = true <-> exists post, text = sub ++ post.
Proof.
  revert text; induction sub as [|c sub IH]; intros text.
  - split; [intros _; now exists text | intros _; now destruct text].
  - destruct text as [|d text]; simpl.
    + split; [discriminate | intros [post H]; discriminate].
    + destruct (Ascii.ascii_dec c d) as [->|ne].
      * rewrite IH. split; intros [post H]; exists post.
        -- now rewrite H.
        -- now inversion H.
      * split; [discriminate | intros [post H]; inversion H; subst; now elim ne].
Qed.

(** [contains] is Python's substring test. *)
Lemma contains_spec (sub text : string) :
  contains sub text = true <-> exists pre post, text = pre ++ sub ++ post.
Proof.
  induction text as [|d text IH].
  - change (contains sub "") with (String.prefix sub "").
    rewrite prefix_spec. split.
    + intros [post H]. exists "", post. exact H.
    + intros [pre [post H]]. destruct pre; simpl in H.
      * now exists post.
      * discriminate.
  - change (contains sub (String d text))
      with (String.prefix sub (String d text) || contains sub text).
    rewrite orb_true_iff, prefix_spec, IH. split.
    + intros [[post H] | [pre [post H]]].
      * exists "", post. exact H.
      * exists (String d pre), post. simpl. now rewrite H.
    + intros [pre [post H]]. destruct pre as [|e pre]; simpl in H.
      * left. now exists post.
      * right. inversion H. now exists pre, post.
Qed.

Lemma mem_true_In (x : string) (xs : list string) :
  mem x xs = true <-> In x xs.
Proof.
  unfold mem. rewrite existsb_exists. split.
  - intros [y [Hy E]]. apply String.eqb_eq in E. now subst.
  - intros H. exists x. split; [exact H | apply String.eqb_refl].
Qed.

Lemma mem_false_In (x : string) (xs : list string) :
  mem x xs = false <-> ~ In x xs.
Proof.
  rewrite <- mem_true_In. destruct (mem x xs); split; congruence.
Qed.

(** ** Tone classification *)

(** [_stem_score] counts the stems of the lexicon that occur in the text. *)
Lemma stem_score_counts (text : string) (stems : list string) :
  _stem_score text stems
  = List.length (filter (fun s => contains s text) stems).
Proof.
  unfold _stem_score.
  induction (filter (fun s => contains s text) stems) as [|s l IH]; simpl.
  - reflexivity.
  - now rewrite IH.
Qed.

Lemma classify_tone_scores (message : string) :
  classify_tone message
  = tone_of_scores (_stem_score (lower message) ANGRY_STEMS)
                   (_stem_score (lower message) POSITIVE_STEMS)
                   (_stem_score (lower message) FEARFUL_STEMS)
                   (_stem_score (lower message) URGENT_STEMS).
Proof. unfold classify_tone, tone_of_scores. cbv zeta. reflexivity. Qed.

Lemma tone_of_scores_cases (a p f u : nat) :
  (1 <= a /\ p <= a /\ tone_of_scores a p f u = "angry/frustrated")
  \/ (~ (1 <= a /\ p <= a) /\ 1 <= f
      /\ tone_of_scores a p f u = "fearful/anxious")
  \/ (~ (1 <= a /\ p <= a) /\ f = 0 /\ 1 <= u
      /\ tone_of_scores a p f u = "urgent")
  \/ (~ (1 <= a /\ p <= a) /\ f = 0 /\ u = 0 /\ 1 <= p
      /\ tone_of_scores a p f u = "positive")
  \/ (~ (1 <= a /\ p <= a) /\ f = 0 /\ u = 0 /\ p = 0
      /\ tone_of_scores a p f u = "neutral").
Proof.
  unfold tone_of_scores.
  destruct (Nat.leb_spec 1 a) as [Ha|Ha]; destruct (Nat.leb_spec p a) as [Hpa|Hpa];
    cbn [andb]; [left; auto | | | ];
    (right;
     destruct (Nat.leb_spec 1 f) as [Hf|Hf];
     [left; repeat split; try reflexivity; lia |];
     right;
     destruct (Nat.leb_spec 1 u) as [Hu|Hu];
     [left; repeat split; try reflexivity; lia |];
     right;
     destruct (Nat.leb_spec 1 p) as [Hp|Hp];
     [left; repeat split; try reflexivity; lia
     |right; repeat split; try reflexivity; lia]).
Qed.

Lemma lower_length (s : string) : String.length (lower s) = String.length s.
Proof. induction s as [|c s IH]; cbn; [reflexivity | now rewrite IH]. Qed.

Lemma lower_get (s : string) (i : nat) :
  String.get i (lower s) = option_map lower_ascii (String.get i s).
Proof.
  revert i. induction s as [|c s IH]; intros i; [reflexivity|].
  destruct i as [|i]; cbn; [reflexivity | apply IH].
Qed.

Lemma filter_length_le {A} (f : A -> bool) (l : list A) :
  List.length (filter f l) <= List.length l.
Proof.
  induction l as [|x l IH]; cbn; [lia|]. destruct (f x); cbn; lia.
Qed.

(** C10 (as the code has it). Lexical tone classification lower-cases the
    line (the letters A to Z become a to z, nothing else changes) and
    counts, for each lexicon, how many of its stems occur in the line as a
    substring: a stem counts once however often it occurs.  It picks the
    first matching label in the order angry (angry count at least 1 and at
    least the positive count), fearful, urgent, positive, neutral; a line
    in which more positive stems than angry stems occur is never classified
    angry. *)
Theorem classify_tone_priority_order (message : string) :
  let text := lower message in
  let count stems := List.length (filter (fun s => contains s text) stems) in
  let a := count ANGRY_STEMS in
  let p := count POSITIVE_STEMS in
  let f := count FEARFUL_STEMS in
  let u := count URGENT_STEMS in
  let angry := 1 <= a /\ p <= a in
  (String.length text = String.length message
   /\ forall i,
        String.get i text
        = option_map
            (fun c => if (65 <=? nat_of_ascii c)%nat && (nat_of_ascii c <=? 90)%nat
                      then ascii_of_nat (nat_of_ascii c + 32) else c)
            (String.get i message))
  /\ (forall s, contains s text = true
                 <-> exists pre post, text = pre ++ s ++ post)
  /\ (forall stems, count stems <= List.length stems)
  /\ (classify_tone message = "angry/frustrated" <-> angry)
  /\ (classify_tone message = "fearful/anxious" <-> ~ angry /\ 1 <= f)
  /\ (classify_tone message = "urgent" <-> ~ angry /\ f = 0 /\ 1 <= u)
  /\ (classify_tone message = "positive"
      <-> ~ angry /\ f = 0 /\ u = 0 /\ 1 <= p)
  /\ (classify_tone message = "neutral"
      <-> ~ angry /\ f = 0 /\ u = 0 /\ p = 0)
  /\ (a < p -> classify_tone message <> "angry/frustrated").
Proof.
  intros text count a p f u angry.
  split; [split; [apply lower_length | intros i; apply lower_get]|].
  split; [intros s; apply contains_spec|].
  split; [intros stems; apply filter_length_le|].
  rewrite classify_tone_scores, !stem_score_counts.
  fold text. fold (count ANGRY_STEMS) (count POSITIVE_STEMS)
                  (count FEARFUL_STEMS) (count URGENT_STEMS).
  fold a p f u. subst angry.
  clearbody a p f u. clear count text.
  destruct (tone_of_scores_cases a p f u)
    as [(H1 & H2 & E) | [(N & H2 & E) | [(N & H2 & H3 & E)
       | [(N & H2 & H3 & H4 & E) | (N & H2 & H3 & H4 & E)]]]];
    rewrite E;
    (repeat split; intros; try discriminate; try assumption; try lia).
Qed.

(** A run of the theorem: one angry stem (upset) and three positive stems
    (thank, great, help) occur, no fearful and no urgent one, so the line
    is positive. *)
Lemma classify_tone_priority_order_witness :
  classify_tone upset_but_thankful = "positive".
Proof.
  destruct (classify_tone_priority_order upset_but_thankful)
    as (_ & _ & _ & _ & _ & _ & Hpos & _).
  apply Hpos.
  assert (Ha : List.length (filter (fun s => contains s (lower upset_but_thankful))
                              ANGRY_STEMS) = 1) by (vm_compute; reflexivity).
  assert (Hp : List.length (filter (fun s => contains s (lower upset_but_thankful))
                              POSITIVE_STEMS) = 3) by (vm_compute; reflexivity).
  assert (Hf : List.length (filter (fun s => contains s (lower upset_but_thankful))
                              FEARFUL_STEMS) = 0) by (vm_compute; reflexivity).
  assert (Hu : List.length (filter (fun s => contains s (lower upset_but_thankful))
                              URGENT_STEMS) = 0) by (vm_compute; reflexivity).
  rewrite Ha, Hp, Hf, Hu. lia.
Defined.

(** C10, counterexample to "counts substring occurrences": in this line the
    angry stem fraud occurs once and the positive stem thank three times.
    Counting occurrences, the positive count 3 exceeds the angry count 1
    and the line would be positive; the code counts each stem once, 1
    against 1, and classifies the line as angry. *)
Lemma classify_tone_counts_each_stem_once :
  occurrence_count (lower fraud_and_thanks) ANGRY_STEMS = 1
  /\ occurrence_count (lower fraud_and_thanks) POSITIVE_STEMS = 3
  /\ tone_by_occurrences fraud_and_thanks = "positive"
  /\ _stem_score (lower fraud_and_thanks) ANGRY_STEMS = 1
  /\ _stem_score (lower fraud_and_thanks) POSITIVE_STEMS = 1
  /\ classify_tone fraud_and_thanks = "angry/frustrated".
Proof. vm_compute. repeat split; reflexivity. Qed.

(** ** Arousal classification *)

(** C7. Arousal classification is a total function of (energy, pitch)
    evaluated in a fixed order: High iff energy >= 0.65 and pitch >= 210;
    otherwise Medium iff energy >= 0.35; otherwise Low.  At the boundary
    values: (0.65, 210) is High, (0.65, 209.9) is Medium and (0.34, any
    pitch) is Low. *)
Theorem classify_arousal_decision_rule :
  (forall energy pitch : float,
      let high := ((0.65 <=? energy) && (210 <=? pitch))%float in
      let medium := (0.35 <=? energy)%float in
      In (_classify_arousal energy pitch) ["High"; "Medium"; "Low"]
      /\ (_classify_arousal energy pitch = "High" <-> high = true)
      /\ (_classify_arousal energy pitch = "Medium"
          <-> high = false /\ medium = true)
      /\ (_classify_arousal energy pitch = "Low"
          <-> high = false /\ medium = false))
  /\ _classify_arousal 0.65 210 = "High"
  /\ _classify_arousal 0.65 209.9 = "Medium"
  /\ (forall pitch : float, _classify_arousal 0.34 pitch = "Low").
Proof.
  split; [| split; [reflexivity | split; [reflexivity |]]].
  - intros energy pitch high medium.
    unfold _classify_arousal, HIGH_ENERGY_THRESHOLD, HIGH_PITCH_THRESHOLD,
      MEDIUM_ENERGY_THRESHOLD.
    fold high. fold medium.
    destruct high; destruct medium; cbn;
      repeat split; intros; try discriminate; try reflexivity; auto;
      try tauto;
      try match goal with H : _ /\ _ |- _ => destruct H; discriminate end.
  - intros pitch. unfold _classify_arousal.
    replace (HIGH_ENERGY_THRESHOLD <=? 0.34)%float with false by reflexivity.
    reflexivity.
Qed.

(** ** Calling hours *)

Lemma hour_of_local_hour (dt : datetime) :
  hour_of (ist_wall_clock dt) = ist_local_hour dt.
Proof.
  unfold hour_of, ist_local_hour.
  generalize (ist_wall_clock dt). intros t.
  change US_PER_DAY with (US_PER_HOUR * 24)%Z.
  assert (H : (0 < US_PER_HOUR)%Z) by reflexivity.
  generalize dependent US_PER_HOUR. intros h Hh.
  rewrite Z.rem_mul_r by lia.
  rewrite Z.mul_comm, Z.div_add by lia.
  rewrite (Z.div_small (t mod h) h) by (apply Z.mod_pos_bound; lia).
  reflexivity.
Qed.

Lemma add_timedelta_representable (t delta : Z) :
  add_timedelta t delta
  = if representable (t + delta) then Some (t + delta)%Z else None.
Proof. reflexivity. Qed.

Lemma add_timedelta_twice (t a b : Z) :
  match add_timedelta t a with
  | Some u => add_timedelta u b
  | None => None
  end
  = if representable (t + a) && representable (t + a + b)
    then Some (t + a + b)%Z else None.
Proof.
  rewrite add_timedelta_representable.
  destruct (representable (t + a)); cbn [andb]; [|reflexivity].
  apply add_timedelta_representable.
Qed.

Lemma wall_clock_replace_tzinfo (dt : datetime) :
  wall_clock (replace_tzinfo_utc dt) = wall_clock dt.
Proof. destruct dt. unfold wall_clock, toordinal, replace_tzinfo_utc. reflexivity. Qed.

Lemma astimezone_spec (dt : datetime) :
  astimezone (match dt_tzinfo dt with
              | None => replace_tzinfo_utc dt
              | Some _ => dt
              end) IST_OFFSET
  = if representable (utc_wall_clock dt) && representable (ist_wall_clock dt)
    then Some (ist_wall_clock dt) else None.
Proof.
  unfold ist_wall_clock, utc_wall_clock, utc_offset_of.
  destruct (dt_tzinfo dt) as [off|] eqn:E; unfold astimezone.
  - rewrite E, add_timedelta_twice, Z.add_opp_r. reflexivity.
  - replace (dt_tzinfo (replace_tzinfo_utc dt)) with (Some 0%Z)
      by (destruct dt; reflexivity).
    rewrite add_timedelta_twice, wall_clock_replace_tzinfo, Z.add_opp_r.
    reflexivity.
Qed.

Lemma check_time_violation_unfold (fromisoformat : string -> option datetime)
    (s : string) :
  check_time_violation fromisoformat s
  = match fromisoformat (timestamp_text s) with
    | None => time_parse_error
    | Some dt =>
        if representable (utc_wall_clock dt) && representable (ist_wall_clock dt)
        then
          let hour := ist_local_hour dt in
          let ist_time_str := strftime_HM (ist_wall_clock dt) in
          let is_violation := ((hour <? 8) || (19 <=? hour))%Z in
          mk_time_result is_violation ist_time_str "INTERNAL-TIME-01"
            "Operating Hours Compliance"
            (if is_violation then
               "Call placed outside approved hours (8 AM – 7 PM IST). "
               ++ "Call was received at " ++ ist_time_str
               ++ " IST, which is in the "
               ++ (if (hour <? 8)%Z then "morning (before 8 AM)"
                   else "evening (after 7 PM)") ++ "."
             else "Call placed within approved hours. IST time: "
                  ++ ist_time_str ++ ".")
        else time_parse_error
    end.
Proof.
  unfold check_time_violation, check_time_try. fold (timestamp_text s).
  destruct (fromisoformat (timestamp_text s)) as [dt|]; [|reflexivity].
  rewrite (astimezone_spec dt).
  destruct (representable (utc_wall_clock dt) && representable (ist_wall_clock dt));
    [|reflexivity].
  rewrite hour_of_local_hour. reflexivity.
Qed.

(** C9 (as the code has it). The temporal check returns a result for every
    input text.  When the text parses as a timestamp whose UTC and UTC+5:30
    wall clocks both fall in years 1 to 9999, it reports a violation exactly
    when the UTC+5:30 local hour is below 8 or at least 19 (hour 8 is no
    violation), with the local time as HH:MM.  When the text does not parse,
    or the conversion leaves that range, it reports no violation, local time
    "unknown" and a non-empty error note. *)
Theorem check_time_violation_rule
    (fromisoformat : string -> option datetime) (s : string) :
  let r := check_time_violation fromisoformat s in
  (forall dt, fromisoformat (timestamp_text s) = Some dt ->
     representable (utc_wall_clock dt) = true ->
     representable (ist_wall_clock dt) = true ->
     (tv_violation r = true
      <-> (ist_local_hour dt < 8 \/ 19 <= ist_local_hour dt)%Z)
     /\ (ist_local_hour dt = 8%Z -> tv_violation r = false)
     /\ tv_ist_time r = strftime_HM (ist_wall_clock dt)
     /\ tv_clause_id r = "INTERNAL-TIME-01")
  /\ (fromisoformat (timestamp_text s) = None
      \/ (exists dt, fromisoformat (timestamp_text s) = Some dt
          /\ (representable (utc_wall_clock dt) = false
              \/ representable (ist_wall_clock dt) = false)) ->
      tv_violation r = false /\ tv_ist_time r = "unknown"
      /\ tv_description r
         = "Could not determine call time. Timestamp parse error."
      /\ tv_clause_id r = "INTERNAL-TIME-01").
Proof.
  intros r. subst r. rewrite check_time_violation_unfold. split.
  - intros dt Hp Hu Hi. rewrite Hp, Hu, Hi. cbn [andb]. cbv zeta.
    cbn [tv_violation tv_ist_time tv_clause_id].
    repeat split.
    + rewrite orb_true_iff, Z.ltb_lt, Z.leb_le. tauto.
    + rewrite orb_true_iff, Z.ltb_lt, Z.leb_le. tauto.
    + intros ->. reflexivity.
  - intros [Hn | [dt [Hp Hr]]].
    + rewrite Hn. repeat split.
    + rewrite Hp.
      replace (representable (utc_wall_clock dt) && representable (ist_wall_clock dt))
        with false.
      * repeat split.
      * destruct Hr as [-> | ->]; [reflexivity | now rewrite andb_false_r].
Qed.

(** The boundary of the rule on a concrete text: 02:30 UTC is 08:00 in
    UTC+5:30, which is inside the permitted hours. *)
Lemma check_time_violation_rule_witness :
  tv_violation (check_time_violation IsoBasic.fromisoformat "2026-02-20T02:30:00Z")
  = false.
Proof.
  refine (proj1 (proj2 (proj1
            (check_time_violation_rule IsoBasic.fromisoformat
               "2026-02-20T02:30:00Z")
            (mk_datetime 2026 2 20 2 30 0 0 (Some 0%Z)) _ _ _)) _);
    reflexivity.
Defined.

(** C9, counterexample: the text parses as a timestamp and its UTC+5:30
    local hour is 1, yet no violation is reported: the conversion leaves the
    range of dates and the check falls back to its error result. *)
Lemma check_time_violation_overflow :
  exists dt,
    IsoBasic.fromisoformat (timestamp_text "9999-12-31T20:00:00Z") = Some dt
    /\ ist_local_hour dt = 1%Z
    /\ tv_violation
         (check_time_violation IsoBasic.fromisoformat "9999-12-31T20:00:00Z")
       = false.
Proof.
  exists (mk_datetime 9999 12 31 20 0 0 0 (Some 0%Z)).
  repeat split.
Qed.

(** ** Windowing of the acoustic segmenter *)

Section Windowing.

Variable sample : Type.
Variable LIBROSA_AVAILABLE : bool.
Variable librosa_load : string -> option (list sample).
Variable rms_of : list sample -> float.
Variable yin : list sample -> option (list float).
Variable median : list float -> float.
Variable zcr_mean_of : list sample -> float.
Variable py_round : float -> nat -> float.

Lemma slice_length (y : list sample) (a b : nat) :
  List.length (slice sample y a b) = Nat.min (b - a) (List.length y - a).
Proof. unfold slice. now rewrite length_firstn, length_skipn. Qed.

Lemma fold_loop_body (sr : nat) (y : list sample) (g : float)
    (l : list nat) (acc : list segment) :
  fold_left (loop_body sample rms_of yin median zcr_mean_of py_round sr y g) l acc
  = (acc ++ map (fun i => analyze_window sample rms_of yin median zcr_mean_of
                            py_round g i (window sr y i))
               (filter (fun i => negb (2 * List.length (window sr y i) <? sr)%nat) l))%list.
Proof.
  revert acc. induction l as [|i l IH]; intros acc; cbn [fold_left filter map].
  - now rewrite app_nil_r.
  - rewrite IH. unfold loop_body. fold (window sr y i).
    destruct (2 * List.length (window sr y i) <? sr)%nat; cbn [negb map].
    + reflexivity.
    + now rewrite <- app_assoc.
Qed.

Lemma ceil_div_bounds (a b : nat) :
  (0 < b)%nat ->
  (a <= ceil_div a b * b)%nat
  /\ ((1 <= ceil_div a b)%nat -> ((ceil_div a b - 1) * b < a)%nat).
Proof.
  intros Hb. unfold ceil_div.
  pose proof (Nat.div_mod_eq (a + b - 1) b) as E.
  pose proof (Nat.mod_upper_bound (a + b - 1) b ltac:(lia)) as U.
  set (q := ((a + b - 1) / b)%nat) in *.
  set (r := ((a + b - 1) mod b)%nat) in *.
  split.
  - nia.
  - intros Hq. destruct q as [|q']; [lia|].
    replace (S q' - 1)%nat with q' by lia. nia.
Qed.

Lemma window_length_full (sr : nat) (y : list sample) (i : nat) :
  (0 < sr)%nat -> (i < num_windows sr y - 1)%nat ->
  List.length (window sr y i) = (SEGMENT_DURATION_SECONDS * sr)%nat.
Proof.
  intros Hsr Hi. unfold window. rewrite slice_length.
  unfold num_windows in Hi.
  set (W := (SEGMENT_DURATION_SECONDS * sr)%nat) in *.
  assert (HW : (0 < W)%nat) by (unfold W, SEGMENT_DURATION_SECONDS; lia).
  destruct (ceil_div_bounds (List.length y) W HW) as [_ H2].
  assert (Hq : (1 <= ceil_div (List.length y) W)%nat) by lia.
  specialize (H2 Hq).
  assert ((i + 1) * W <= (ceil_div (List.length y) W - 1) * W)%nat
    by (apply Nat.mul_le_mono_r; lia).
  lia.
Qed.

Lemma window_length_last (sr : nat) (y : list sample) :
  (0 < sr)%nat ->
  List.length (window sr y (num_windows sr y - 1)) = trailing_length sr y.
Proof.
  intros Hsr. unfold window, trailing_length. rewrite slice_length.
  unfold num_windows.
  set (W := (SEGMENT_DURATION_SECONDS * sr)%nat) in *.
  assert (HW : (0 < W)%nat) by (unfold W, SEGMENT_DURATION_SECONDS; lia).
  destruct (ceil_div_bounds (List.length y) W HW) as [H1 H2].
  destruct (ceil_div (List.length y) W) as [|q].
  - cbn in *. lia.
  - replace (Nat.max 1 (S q) - 1)%nat with q by lia.
    cbn [Nat.mul] in H1. lia.
Qed.

Lemma filter_all_true {A} (f : A -> bool) (l : list A) :
  (forall x, In x l -> f x = true) -> filter f l = l.
Proof.
  induction l as [|x l IH]; intros H; cbn; [reflexivity|].
  rewrite (H x (or_introl eq_refl)). f_equal. apply IH. intros; apply H; now right.
Qed.

(** The loop keeps the windows [0 .. kept_windows - 1], in order. *)
Lemma analyze_samples_windows (sr : nat) (y : list sample) :
  (0 < sr)%nat ->
  analyze_samples sample rms_of yin median zcr_mean_of py_round sr y
  = map (window_segment rms_of yin median zcr_mean_of py_round sr y) (seq 0 (kept_windows sr y)).
Proof.
  intros Hsr. unfold analyze_samples. fold (num_windows sr y).
  rewrite fold_loop_body. cbn [app]. unfold window_segment. f_equal.
  unfold kept_windows. rewrite <- (window_length_last sr y Hsr).
  set (n := num_windows sr y).
  assert (Hn : (1 <= n)%nat) by (unfold n, num_windows; lia).
  replace n with ((n - 1) + 1)%nat at 1 by lia.
  rewrite seq_app, filter_app. cbn [seq filter]. rewrite Nat.add_0_l.
  rewrite filter_all_true.
  - destruct (2 * List.length (window sr y (n - 1)) <? sr)%nat; cbn [negb].
    + now rewrite app_nil_r.
    + replace n with ((n - 1) + 1)%nat at 3 by lia.
      now rewrite seq_app.
  - intros i Hi. apply in_seq in Hi.
    rewrite (window_length_full sr y i Hsr) by (fold n; lia).
    apply negb_true_iff, Nat.ltb_ge. unfold SEGMENT_DURATION_SECONDS. lia.
Qed.

Lemma SAMPLE_RATE_pos : (0 < SAMPLE_RATE)%nat.
Proof. apply Nat.ltb_lt. vm_compute. reflexivity. Qed.

(** C8 (as the code has it). For every decoded sample sequence the
    segmenter produces one segment per 10-second window, in order, except
    that the trailing window is dropped when it is shorter than half a
    second (fewer than half the sample rate in samples); no other window is
    dropped, and when no window is left the generic segment is returned. *)
Theorem analyze_audio_windows (file_path : string) (y : list sample) :
  LIBROSA_AVAILABLE = true ->
  librosa_load file_path = Some y ->
  let n := num_windows SAMPLE_RATE y in
  let k := kept_windows SAMPLE_RATE y in
  analyze_audio sample LIBROSA_AVAILABLE librosa_load rms_of yin median
                zcr_mean_of py_round file_path
  = (if (k =? 0)%nat then [generic_segment]
     else map (window_segment rms_of yin median zcr_mean_of py_round SAMPLE_RATE y) (seq 0 k))
  /\ (k = n \/ k = (n - 1)%nat)
  /\ (k = (n - 1)%nat
      <-> (2 * trailing_length SAMPLE_RATE y < SAMPLE_RATE)%nat).
Proof.
  intros Hlib Hload n k. unfold analyze_audio. rewrite Hlib, Hload. cbn [negb].
  rewrite (analyze_samples_windows SAMPLE_RATE y SAMPLE_RATE_pos). fold k.
  assert (Hn : (1 <= n)%nat) by (unfold n, num_windows; lia).
  split; [|split].
  - destruct k as [|k']; [reflexivity|].
    change (S k' =? 0)%nat with false. cbv iota.
    rewrite <- cons_seq. reflexivity.
  - unfold k, kept_windows. fold n.
    destruct (2 * trailing_length SAMPLE_RATE y <? SAMPLE_RATE)%nat; auto.
  - unfold k, kept_windows. fold n.
    destruct (Nat.ltb_spec (2 * trailing_length SAMPLE_RATE y) SAMPLE_RATE);
      split; intros; try lia; reflexivity.
Qed.

End Windowing.

(** A run of the theorem: three samples make one window, which is shorter
    than half a second, so the generic segment is returned. *)
Lemma analyze_audio_windows_witness :
  analyze_audio unit true (fun _ => Some [tt; tt; tt]) (fun _ => 0.1%float)
                (fun _ => None) (fun _ => 0%float) (fun _ => 0%float)
                (fun x _ => x) "call.wav"
  = [generic_segment].
Proof.
  exact (proj1 (analyze_audio_windows unit true (fun _ => Some [tt; tt; tt])
                  (fun _ => 0.1%float) (fun _ => None) (fun _ => 0%float)
                  (fun _ => 0%float) (fun x _ => x) "call.wav" [tt; tt; tt]
                  eq_refl eq_refl)).
Defined.

(** C8, counterexample: a recording of one second (16000 samples) is a
    single trailing window shorter than half the window length (five
    seconds), and the segmenter still produces a segment for it. *)
Lemma analyze_samples_keeps_one_second :
  (2 * List.length (repeat tt 16000)
   < SEGMENT_DURATION_SECONDS * SAMPLE_RATE)%nat
  /\ num_windows SAMPLE_RATE (repeat tt 16000) = 1%nat
  /\ List.length
       (analyze_samples unit (fun _ => 0.1%float) (fun _ => None)
          (fun _ => 0%float) (fun _ => 0%float) (fun x _ => x)
          SAMPLE_RATE (repeat tt 16000))
     = 1%nat.
Proof.
  split; [apply Nat.ltb_lt; vm_compute; reflexivity|].
  split; [vm_compute; reflexivity|].
  rewrite (analyze_samples_windows unit _ _ _ _ _ SAMPLE_RATE _ SAMPLE_RATE_pos).
  rewrite length_map, length_seq. vm_compute. reflexivity.
Qed.

(** ** Dictionaries *)

Lemma dict_get_set_same {V} (k : string) (v : V) (d : list (string * V)) :
  dict_get k (dict_set k v d) = Some v.
Proof.
  induction d as [|[k' v'] d IH]; cbn.
  - now rewrite String.eqb_refl.
  - destruct (String.eqb k k') eqn:E; cbn.
    + now rewrite String.eqb_refl.
    + now rewrite E.
Qed.

Lemma dict_get_set_other {V} (k k' : string) (v : V) (d : list (string * V)) :
  k <> k' -> dict_get k (dict_set k' v d) = dict_get k d.
Proof.
  intros ne. induction d as [|[k0 v0] d IH]; cbn.
  - destruct (String.eqb_spec k k'); [contradiction | reflexivity].
  - destruct (String.eqb_spec k' k0) as [->|ne0]; cbn.
    + destruct (String.eqb_spec k k0); [contradiction | reflexivity].
    + destruct (String.eqb_spec k k0); [reflexivity | exact IH].
Qed.

(** ** The traversal of the exception monad *)

Lemma traverse_Forall2 {A B} (f : A -> exn + B) (xs : list A) (ys : list B) :
  traverse f xs = inr ys <-> Forall2 (fun x y => f x = inr y) xs ys.
Proof.
  revert ys. induction xs as [|x xs IH]; intros ys; cbn.
  - split; [intros [= <-]; constructor | intros H; now inversion H].
  - destruct (f x) as [e|y] eqn:Ex.
    + split; [discriminate | intros H; inversion H; congruence].
    + destruct (traverse f xs) as [e|ys'] eqn:Et.
      * split; [discriminate|]. intros H. inversion H; subst.
        apply IH in H4. discriminate.
      * split.
        -- intros [= <-]. constructor; [exact Ex | now apply IH].
        -- intros H. inversion H; subst. apply IH in H4.
           congruence.
Qed.

(** ** Severity normalisation and the temporal entry *)

Lemma severity_unknown_false (d : dict) :
  severity_unknown d = false <-> severity_accepted d.
Proof.
  unfold severity_unknown, severity_accepted, dict_get_default.
  destruct (dict_get "severity" d) as [[| | | |s| |]|]; cbn [str_lower];
    try (split; [discriminate | intros [s' [[=] _]]]).
  - rewrite negb_false_iff, mem_true_In. split.
    + intros H. now exists s.
    + intros [s' [[= <-] H]]. exact H.
Qed.

(** What one step of the normalising loop does to an entry. *)
Lemma normalize_violation_spec (v v' : json) :
  normalize_violation v = inr v' ->
  exists d, v = JObj d
    /\ (severity_accepted d -> v' = v)
    /\ (~ severity_accepted d
        -> v' = JObj (dict_set "severity" (JStr "medium") d))
    /\ (exists d', v' = JObj d' /\ severity_accepted d')
    /\ has_time_id v' = has_time_id v.
Proof.
  unfold normalize_violation. destruct v as [| | | | | |d]; cbn; try discriminate.
  destruct (severity_unknown d) eqn:E; intros [= <-]; exists d.
  - assert (N : ~ severity_accepted d).
    { intros H. apply severity_unknown_false in H. congruence. }
    repeat split.
    + intros H. contradiction.
    + exists (dict_set "severity" (JStr "medium") d). split; [reflexivity|].
      exists "medium". rewrite dict_get_set_same. split; [reflexivity|].
      cbn. auto.
    + cbn. unfold dict_get_default.
      now rewrite dict_get_set_other by discriminate.
  - apply severity_unknown_false in E. repeat split.
    + intros N. contradiction.
    + now exists d.
Qed.

Lemma normalize_violations_list (items : list json) (pv : json) :
  normalize_violations (JArr items) = inr pv ->
  exists items', pv = JArr items'
    /\ Forall2 (fun v v' => normalize_violation v = inr v') items items'.
Proof.
  cbn. destruct (traverse normalize_violation items) as [e|items'] eqn:E;
    [discriminate|].
  intros [= <-]. exists items'. split; [reflexivity|].
  now apply traverse_Forall2.
Qed.

(** On anything but a list the loop changes nothing, when it runs through. *)
Lemma normalize_violations_other (pv pv' : json) :
  (forall items, pv <> JArr items) ->
  normalize_violations pv = inr pv' -> pv' = pv.
Proof.
  intros N. destruct pv; cbn; try discriminate.
  - destruct (traverse _ _); [discriminate | now intros [= <-]].
  - now elim (N items).
  - destruct (traverse _ _); [discriminate | now intros [= <-]].
Qed.

Lemma normalized_count (items items' : list json) :
  Forall2 (fun v v' => normalize_violation v = inr v') items items' ->
  count_time_id items' = count_time_id items
  /\ List.length items' = List.length items.
Proof.
  unfold count_time_id. induction 1 as [|v v' l l' Hv _ [IH1 IH2]];
    [split; reflexivity|].
  destruct (normalize_violation_spec v v' Hv) as (d & _ & _ & _ & _ & Hid).
  cbn [filter List.length]. rewrite Hid, IH2.
  split; [|reflexivity].
  destruct (has_time_id v); cbn [List.length]; now rewrite IH1.
Qed.

Lemma existing_ids_has_time_id (items ids : list json) :
  traverse clause_id_of items = inr ids ->
  existsb (eq_str TIME_CLAUSE_ID) ids = existsb has_time_id items.
Proof.
  intros H. apply traverse_Forall2 in H.
  induction H as [|v id l l' Hv _ IH]; [reflexivity|].
  cbn [existsb]. rewrite IH. f_equal.
  unfold clause_id_of in Hv. destruct v; cbn in Hv; try discriminate.
  cbn [has_time_id]. destruct (dict_get_default "clause_id" fields JNull);
    cbn in Hv; try discriminate; now injection Hv as <-.
Qed.

Lemma existsb_count (items : list json) :
  existsb has_time_id items = (1 <=? count_time_id items)%nat.
Proof.
  unfold count_time_id. induction items as [|v l IH]; [reflexivity|].
  cbn [existsb filter]. destruct (has_time_id v); cbn; [reflexivity | exact IH].
Qed.

Lemma count_time_id_app (l1 l2 : list json) :
  count_time_id (l1 ++ l2) = (count_time_id l1 + count_time_id l2)%nat.
Proof. unfold count_time_id. now rewrite filter_app, length_app. Qed.

(** The injection step on a list, when a violation was detected. *)
Lemma ensure_time_violation_list (tv : time_result) (items : list json)
    (pv : json) :
  tv_violation tv = true ->
  ensure_time_violation tv (JArr items) = inr pv ->
  pv = JArr (if (1 <=? count_time_id items)%nat then items
             else items ++ [time_violation_entry tv]).
Proof.
  intros Hv. unfold ensure_time_violation. rewrite Hv. cbn [py_iter].
  destruct (traverse clause_id_of items) as [e|ids] eqn:E; [discriminate|].
  rewrite (existing_ids_has_time_id _ _ E), existsb_count.
  destruct (1 <=? count_time_id items)%nat; cbn; now intros [= <-].
Qed.

(** With a detected violation the injection step raises on anything but a
    list. *)
Lemma ensure_time_violation_needs_list (tv : time_result) (pv pv' : json) :
  tv_violation tv = true ->
  normalize_violations pv = inr pv ->
  ensure_time_violation tv pv = inr pv' ->
  exists items, pv = JArr items.
Proof.
  intros Hv Hn. unfold ensure_time_violation. rewrite Hv.
  destruct pv; cbn; try discriminate.
  - destruct s as [|c s]; cbn; discriminate.
  - intros _. now exists items.
  - destruct fields as [|[k v] fields]; cbn; discriminate.
Qed.

(** What [build_audit] computed when it returns. *)
Lemma build_audit_returns (cr : dict) (tv : time_result) (doc : audit) :
  build_audit cr tv = inr doc ->
  exists pv1 pv2 n,
    normalize_violations (reported_violations cr) = inr pv1
    /\ ensure_time_violation tv pv1 = inr pv2
    /\ py_len pv2 = inr n
    /\ policy_violations doc = pv2
    /\ is_within_policy doc
       = dict_get_default "is_within_policy" cr (JBool (negb (0 <? n)%nat)).
Proof.
  unfold build_audit. fold (reported_violations cr).
  destruct (normalize_violations (reported_violations cr)) as [e|pv1];
    [discriminate|].
  destruct (ensure_time_violation tv pv1) as [e|pv2] eqn:E2; [discriminate|].
  destruct (py_len pv2) as [e|n] eqn:E3; [discriminate|].
  intros [= <-]. exists pv1, pv2, n. cbn [policy_violations is_within_policy].
  auto 10.
Qed.

(** C1 (as the code has it). With a temporal-checker result that reports a
    violation, the final violation list holds the reported entries,
    normalised, followed by the synthesized temporal entry when no reported
    entry carries the id INTERNAL-TIME-01, and nothing more when one does.
    So the list holds at least one entry with that id, and exactly one
    whenever the reasoning step reported at most one. *)
Theorem time_violation_entry_present (cr : dict) (tv : time_result)
    (doc : audit) :
  tv_violation tv = true ->
  build_audit cr tv = inr doc ->
  exists items items' out,
    reported_violations cr = JArr items
    /\ Forall2 (fun v v' => normalize_violation v = inr v') items items'
    /\ policy_violations doc = JArr out
    /\ (count_time_id items = 0%nat
        -> out = (items' ++ [time_violation_entry tv])%list)
    /\ ((1 <= count_time_id items)%nat -> out = items')
    /\ count_time_id out = Nat.max 1 (count_time_id items)
    /\ ((count_time_id items <= 1)%nat -> count_time_id out = 1%nat).
Proof.
  intros Hv Hb.
  destruct (build_audit_returns cr tv doc Hb) as (pv1 & pv2 & n & H1 & H2 & _ & Hd & _).
  assert (Hl : exists items, reported_violations cr = JArr items).
  { destruct (reported_violations cr) eqn:E;
      try (assert (pv1 = reported_violations cr)
            by (rewrite E; apply normalize_violations_other;
                [intros ? ?; discriminate | rewrite <- E at 1; rewrite E; exact H1]));
      try (rewrite E in *; subst pv1;
           destruct (ensure_time_violation_needs_list tv _ pv2 Hv H1 H2);
           discriminate).
    now exists items. }
  destruct Hl as [items Hi]. rewrite Hi in H1.
  destruct (normalize_violations_list items pv1 H1) as (items' & -> & HF).
  destruct (normalized_count items items' HF) as [Hc _].
  apply (ensure_time_violation_list tv items' pv2 Hv) in H2.
  rewrite Hc in H2.
  exists items, items',
    (if (1 <=? count_time_id items)%nat then items'
     else (items' ++ [time_violation_entry tv])%list).
  split; [exact Hi|]. split; [exact HF|]. split; [congruence|].
  assert (Ht : count_time_id [time_violation_entry tv] = 1%nat) by reflexivity.
  destruct (Nat.leb_spec 1 (count_time_id items)) as [Hge|Hlt].
  - repeat split; intros; try lia; try reflexivity; rewrite Hc; lia.
  - repeat split; intros; try lia; try reflexivity;
      rewrite count_time_id_app, Hc, Ht; lia.
Qed.

(** A run of the theorem: the reasoning step reported one threat and no
    temporal entry, and the assembled list counts one temporal entry. *)
Lemma time_violation_entry_present_witness :
  exists doc,
    build_audit one_threat_reported evening_call = inr doc
    /\ exists out, policy_violations doc = JArr out
                   /\ count_time_id out = 1%nat.
Proof.
  eexists. split; [reflexivity|].
  destruct (time_violation_entry_present one_threat_reported evening_call _
              eq_refl eq_refl)
    as (items & items' & out & Hi & _ & Ho & _ & _ & _ & H1).
  exists out. split; [exact Ho|]. apply H1.
  injection Hi as <-. cbn. lia.
Defined.

(** C1, counterexample: the reasoning step reported the temporal violation
    twice under the fixed id; nothing is appended and nothing removed, and
    the final list holds two entries with that id. *)
Lemma time_violation_entry_twice :
  tv_violation evening_call = true
  /\ exists doc,
       build_audit
         [("policy_violations",
           JArr [JObj [("clause_id", JStr "INTERNAL-TIME-01");
                       ("severity", JStr "high");
                       ("timestamp", JStr "00:05")];
                 JObj [("clause_id", JStr "INTERNAL-TIME-01");
                       ("severity", JStr "high");
                       ("timestamp", JStr "01:40")]])]
         evening_call = inr doc
       /\ exists out, policy_violations doc = JArr out
                      /\ count_time_id out = 2%nat.
Proof.
  split; [reflexivity|]. eexists. split; [reflexivity|].
  eexists. split; reflexivity.
Qed.

(** C2 (as the code has it). After the normalising step every entry of the
    violation list has a severity whose lower-case form is one of low,
    medium, high, critical.  An entry whose severity already is such a text
    passes through unchanged, in its own letter case; any other severity
    (absent, not a text, or another word) becomes "medium". *)
Theorem severity_normalized (cr : dict) (tv : time_result) (doc : audit)
    (items : list json) :
  reported_violations cr = JArr items ->
  build_audit cr tv = inr doc ->
  exists out,
    policy_violations doc = JArr out
    /\ (forall v', In v' out ->
          exists d', v' = JObj d' /\ severity_accepted d')
    /\ Forall2 (fun v v' =>
                  exists d, v = JObj d
                    /\ (severity_accepted d -> v' = v)
                    /\ (~ severity_accepted d ->
                        v' = JObj (dict_set "severity" (JStr "medium") d)))
               items (firstn (List.length items) out).
Proof.
  intros Hi Hb.
  destruct (build_audit_returns cr tv doc Hb) as (pv1 & pv2 & n & H1 & H2 & _ & Hd & _).
  rewrite Hi in H1.
  destruct (normalize_violations_list items pv1 H1) as (items' & -> & HF).
  destruct (normalized_count items items' HF) as [_ Hlen].
  assert (Hacc : forall v', In v' items' ->
                   exists d', v' = JObj d' /\ severity_accepted d').
  { clear -HF. induction HF as [|v v' l l' Hv _ IH]; intros w Hw; [easy|].
    destruct Hw as [<- | Hw]; [|now apply IH].
    now destruct (normalize_violation_spec v v' Hv) as (_ & _ & _ & _ & H & _). }
  assert (Hrel : Forall2 (fun v v' =>
                  exists d, v = JObj d
                    /\ (severity_accepted d -> v' = v)
                    /\ (~ severity_accepted d ->
                        v' = JObj (dict_set "severity" (JStr "medium") d)))
               items items').
  { clear -HF. induction HF as [|v v' l l' Hv _ IH]; constructor; [|exact IH].
    destruct (normalize_violation_spec v v' Hv) as (d & E & A & B & _).
    now exists d. }
  assert (Hout : pv2 = JArr items'
                 \/ pv2 = JArr (items' ++ [time_violation_entry tv])).
  { destruct (tv_violation tv) eqn:Hv.
    - rewrite (ensure_time_violation_list tv items' pv2 Hv H2).
      destruct (1 <=? count_time_id items')%nat; auto.
    - unfold ensure_time_violation in H2. rewrite Hv in H2.
      injection H2 as <-. now left. }
  destruct Hout as [-> | ->].
  - exists items'. split; [exact Hd|]. split; [exact Hacc|].
    rewrite <- Hlen, firstn_all. exact Hrel.
  - exists (items' ++ [time_violation_entry tv])%list.
    split; [exact Hd|]. split.
    + intros v' Hv'. apply in_app_or in Hv'. destruct Hv' as [Hv'|[<-|[]]].
      * now apply Hacc.
      * eexists. split; [reflexivity|]. exists "high". split; [reflexivity|].
        cbn. auto.
    + rewrite <- Hlen, firstn_app, firstn_all, Nat.sub_diag, firstn_0, app_nil_r.
      exact Hrel.
Qed.

(** A run of the theorem: an absent and a misspelt severity both become
    "medium". *)
Lemma severity_normalized_witness :
  exists doc,
    build_audit odd_severities_reported afternoon_call = inr doc
    /\ exists out, policy_violations doc = JArr out
         /\ forall v', In v' out ->
              exists d', v' = JObj d' /\ severity_accepted d'.
Proof.
  eexists. split; [reflexivity|].
  destruct (severity_normalized odd_severities_reported afternoon_call _ _
              eq_refl eq_refl)
    as (out & Ho & Hacc & _).
  exists out. split; [exact Ho | exact Hacc].
Defined.

(** C2, counterexample: the severity "High" is not one of the four
    canonical values, and it is neither replaced by "medium" nor
    lower-cased. *)
Lemma severity_capitalised_kept :
  ~ In "High" _severity_values
  /\ exists doc,
       build_audit [("policy_violations",
                     JArr [JObj [("clause_id", JStr "RBI-REC-04");
                                 ("severity", JStr "High")]])]
                   afternoon_call = inr doc
       /\ policy_violations doc
          = JArr [JObj [("clause_id", JStr "RBI-REC-04");
                        ("severity", JStr "High")]].
Proof.
  split.
  - cbn. intros [H|[H|[H|[H|[]]]]]; discriminate H.
  - eexists. split; reflexivity.
Qed.



(** ** The reasoning orchestrator *)

Lemma fallback_document_fields (error : string) :
  let doc := _build_fallback_compliance error in
  map fst doc = COMPLIANCE_KEYS
  /\ dict_get "is_within_policy" doc = Some (JBool true)
  /\ dict_get "policy_violations" doc = Some (JArr [])
  /\ dict_get "agent_politeness" doc = Some (JStr "fair")
  /\ dict_get "agent_empathy" doc = Some (JStr "medium")
  /\ dict_get "agent_professionalism" doc = Some (JStr "fair")
  /\ dict_get "final_status" doc = Some (JStr "Pending Review")
  /\ exists summary, dict_get "summary" doc = Some (JStr summary)
       /\ summary <> ""
       /\ (error <> "" ->
           summary = "Analysis could not be completed. Error: " ++ error).
Proof.
  cbv zeta. repeat (split; [reflexivity|]).
  unfold _build_fallback_compliance. cbn [dict_get String.eqb Ascii.eqb Bool.eqb].
  eexists. split; [reflexivity|].
  destruct (String.eqb_spec error "") as [->|ne]; cbn [negb].
  - split; [discriminate | intros H; now elim H].
  - split; [discriminate | reflexivity].
Qed.

(** Every field of the fallback document but the summary, value by value. *)
Lemma fallback_document_values (error : string) :
  let doc := _build_fallback_compliance error in
  dict_get "category" doc = Some (JStr "Unknown")
  /\ dict_get "overall_sentiment" doc = Some (JStr "Unknown")
  /\ dict_get "emotional_tone" doc = Some (JStr "Unknown")
  /\ dict_get "tone_progression" doc = Some (JArr [JStr "Unknown"])
  /\ dict_get "emotional_graph" doc
     = Some (JArr [JObj [("timestamp", JStr "00:00"); ("tone", JStr "Neutral");
                         ("score", JFloat 0.5%float);
                         ("acoustic_arousal", JStr "Low")]])
  /\ dict_get "emotion_timeline" doc
     = Some (JArr [JObj [("time", JStr "start"); ("emotion", JStr "unknown")];
                   JObj [("time", JStr "middle"); ("emotion", JStr "unknown")];
                   JObj [("time", JStr "end"); ("emotion", JStr "unknown")]])
  /\ dict_get "compliance_flags" doc = Some (JArr [])
  /\ dict_get "detected_threats" doc = Some (JArr [])
  /\ dict_get "fraud_risk" doc = Some (JStr "low")
  /\ dict_get "escalation_risk" doc = Some (JStr "low")
  /\ dict_get "urgency_level" doc = Some (JStr "low")
  /\ dict_get "risk_escalation_score" doc = Some (JInt 0)
  /\ dict_get "agent_quality_score" doc = Some (JInt 50)
  /\ dict_get "call_outcome_prediction" doc = Some (JStr "Resolved")
  /\ dict_get "repeat_complaint_detected" doc = Some (JBool false)
  /\ dict_get "recommended_action" doc = Some (JStr "Manual review required.").
Proof. cbv zeta. repeat split; reflexivity. Qed.

(** No field of the fallback document is missing or null. *)
Lemma fallback_document_populated (error : string) (k : string) :
  In k COMPLIANCE_KEYS ->
  exists v, dict_get k (_build_fallback_compliance error) = Some v
            /\ v <> JNull.
Proof.
  unfold COMPLIANCE_KEYS. cbn [In]. intros H.
  repeat (destruct H as [<- | H];
          [eexists; split; [reflexivity | discriminate]|]).
  destruct H.
Qed.

Section Orchestrator.

Variable generate_content : generation_call -> exn + string.
Variable json_loads : string -> exn + json.

(** C3 (as the code has it). When the primary attempt fails with anything
    but a JSON decoding error, the orchestrator makes exactly one more call,
    to the secondary model, with the same prompt and generation settings.
    When the primary reply is not parseable as JSON there is no retry: the
    fallback document is returned after the one call.  A successful primary
    attempt is returned as it is, and no run makes more than two calls. *)
Theorem retry_on_primary_failure (prompt : string) :
  let doc := fst (run_compliance_analysis generate_content json_loads prompt) in
  let calls := snd (run_compliance_analysis generate_content json_loads prompt) in
  let primary := attempt generate_content json_loads (primary_call prompt) in
  let secondary := attempt generate_content json_loads (secondary_call prompt) in
  (forall result, primary = inr result ->
     doc = result /\ calls = [primary_call prompt])
  /\ (forall e, primary = inl e -> is_JSONDecodeError e = false ->
        calls = [primary_call prompt; secondary_call prompt]
        /\ call_prompt (secondary_call prompt) = call_prompt (primary_call prompt)
        /\ call_response_mime_type (secondary_call prompt)
           = call_response_mime_type (primary_call prompt)
        /\ call_temperature (secondary_call prompt)
           = call_temperature (primary_call prompt)
        /\ call_model_name (secondary_call prompt) = SECONDARY_MODEL
        /\ (forall result, secondary = inr result -> doc = result))
  /\ (forall e, primary = inl e -> is_JSONDecodeError e = true ->
        calls = [primary_call prompt]
        /\ doc = _build_fallback_compliance ("JSON parse error: " ++ exn_str e))
  /\ (List.length calls <= 2)%nat.
Proof.
  cbv zeta. unfold run_compliance_analysis.
  fold (primary_call prompt). fold (secondary_call prompt).
  destruct (attempt generate_content json_loads (primary_call prompt))
    as [e|result] eqn:E1.
  - destruct (is_JSONDecodeError e) eqn:J1.
    + cbn [fst snd]. split; [intros r [=]|]. split; [intros e' [= <-]; congruence|].
      split; [intros e' [= <-] _; split; reflexivity | cbn; lia].
    + destruct (attempt generate_content json_loads (secondary_call prompt))
        as [e2|r2] eqn:E2; [destruct (is_JSONDecodeError e2)|];
        cbn [fst snd];
        (split; [intros r [=]|]);
        (split; [intros e' [= <-] _; repeat split;
                 solve [intros r [=] | intros r [= <-]; reflexivity] |]);
        (split; [intros e' [= <-]; congruence | cbn; lia]).
  - cbn [fst snd]. split; [intros r [= <-]; split; reflexivity|].
    split; [intros e' [=]|]. split; [intros e' [=] | cbn; lia].
Qed.

(** C4. When the primary attempt and the secondary attempt both fail, the
    orchestrator returns the fixed fallback document, fully populated: the
    keys are those of the result schema, in order, and none of them is
    missing or null; [is_within_policy] is true, the violation list is
    empty, the ratings are fair/medium/fair with the quality score 50, the
    status is "Pending Review", every other field has its fixed neutral
    value, and the summary is a non-empty text that carries the failure
    note. *)
Theorem fallback_when_both_fail (prompt : string) (e1 e2 : exn) :
  attempt generate_content json_loads (primary_call prompt) = inl e1 ->
  attempt generate_content json_loads (secondary_call prompt) = inl e2 ->
  let doc := fst (run_compliance_analysis generate_content json_loads prompt) in
  let note := if is_JSONDecodeError e1 then failure_note e1
              else failure_note e2 in
  doc = _build_fallback_compliance note
  /\ map fst doc = COMPLIANCE_KEYS
  /\ (forall k, In k COMPLIANCE_KEYS ->
        exists v, dict_get k doc = Some v /\ v <> JNull)
  /\ dict_get "is_within_policy" doc = Some (JBool true)
  /\ dict_get "policy_violations" doc = Some (JArr [])
  /\ dict_get "agent_politeness" doc = Some (JStr "fair")
  /\ dict_get "agent_empathy" doc = Some (JStr "medium")
  /\ dict_get "agent_professionalism" doc = Some (JStr "fair")
  /\ dict_get "agent_quality_score" doc = Some (JInt 50)
  /\ dict_get "final_status" doc = Some (JStr "Pending Review")
  /\ dict_get "category" doc = Some (JStr "Unknown")
  /\ dict_get "overall_sentiment" doc = Some (JStr "Unknown")
  /\ dict_get "emotional_tone" doc = Some (JStr "Unknown")
  /\ dict_get "tone_progression" doc = Some (JArr [JStr "Unknown"])
  /\ dict_get "emotional_graph" doc
     = Some (JArr [JObj [("timestamp", JStr "00:00"); ("tone", JStr "Neutral");
                         ("score", JFloat 0.5%float);
                         ("acoustic_arousal", JStr "Low")]])
  /\ dict_get "emotion_timeline" doc
     = Some (JArr [JObj [("time", JStr "start"); ("emotion", JStr "unknown")];
                   JObj [("time", JStr "middle"); ("emotion", JStr "unknown")];
                   JObj [("time", JStr "end"); ("emotion", JStr "unknown")]])
  /\ dict_get "compliance_flags" doc = Some (JArr [])
  /\ dict_get "detected_threats" doc = Some (JArr [])
  /\ dict_get "fraud_risk" doc = Some (JStr "low")
  /\ dict_get "escalation_risk" doc = Some (JStr "low")
  /\ dict_get "urgency_level" doc = Some (JStr "low")
  /\ dict_get "risk_escalation_score" doc = Some (JInt 0)
  /\ dict_get "call_outcome_prediction" doc = Some (JStr "Resolved")
  /\ dict_get "repeat_complaint_detected" doc = Some (JBool false)
  /\ dict_get "recommended_action" doc = Some (JStr "Manual review required.")
  /\ exists summary, dict_get "summary" doc = Some (JStr summary)
       /\ summary <> ""
       /\ (note <> "" ->
           summary = "Analysis could not be completed. Error: " ++ note)
       /\ (note = "" ->
           summary = "Analysis could not be completed due to a processing error.").
Proof.
  intros E1 E2 doc note.
  assert (Hdoc : doc = _build_fallback_compliance note).
  { subst doc note. unfold run_compliance_analysis.
    fold (primary_call prompt). fold (secondary_call prompt).
    rewrite E1. unfold failure_note.
    destruct (is_JSONDecodeError e1) eqn:J1; [reflexivity|].
    rewrite E2. destruct (is_JSONDecodeError e2); reflexivity. }
  split; [exact Hdoc|]. rewrite Hdoc. clear Hdoc doc.
  destruct (fallback_document_fields note)
    as (K & F1 & F2 & F3 & F4 & F5 & F6 & summary & S1 & S2 & S3).
  destruct (fallback_document_values note)
    as (V1 & V2 & V3 & V4 & V5 & V6 & V7 & V8 & V9 & V10 & V11 & V12 & V13
        & V14 & V15 & V16).
  split; [exact K|].
  split; [intros k Hk; now apply fallback_document_populated|].
  repeat (split; [assumption|]).
  exists summary. split; [exact S1|]. split; [exact S2|]. split; [exact S3|].
  intros Hn. unfold _build_fallback_compliance in S1.
  cbn [dict_get String.eqb Ascii.eqb Bool.eqb] in S1.
  rewrite Hn in S1. cbn in S1. now injection S1 as <-.
Qed.

End Orchestrator.

(** A run of the theorem: the service is down for both models. *)
Lemma fallback_when_both_fail_witness :
  dict_get "summary"
           (fst (run_compliance_analysis service_down rejecting_loads "PROMPT"))
  = Some (JStr "Analysis could not be completed. Error: 503 Service Unavailable").
Proof.
  pose proof (fallback_when_both_fail service_down rejecting_loads "PROMPT"
                (mk_exn OtherException "503 Service Unavailable")
                (mk_exn OtherException "503 Service Unavailable")
                eq_refl eq_refl) as H.
  cbv zeta in H. do 25 (apply proj2 in H).
  destruct H as (summary & Hs & _ & Hnote & _).
  rewrite Hs. do 2 f_equal. apply Hnote. discriminate.
Defined.

(** C3, counterexample: the primary reply is not parseable as JSON, and the
    orchestrator makes no second call: the only call is the primary one and
    the fallback document is returned. *)
Lemma no_retry_on_malformed_output :
  attempt service_prose rejecting_loads (primary_call "PROMPT")
  = inl (mk_exn JSONDecodeError "Expecting value: line 1 column 1 (char 0)")
  /\ snd (run_compliance_analysis service_prose rejecting_loads "PROMPT")
     = [primary_call "PROMPT"]
  /\ fst (run_compliance_analysis service_prose rejecting_loads "PROMPT")
     = _build_fallback_compliance
         "JSON parse error: Expecting value: line 1 column 1 (char 0)".
Proof. repeat split. Qed.

(** ** Deduplicating loops *)

Lemma fold_add_candidate (cands : list (string * clause))
    (seen : list string) (clauses : list clause) :
  fold_left add_candidate cands (seen, clauses)
  = ((seen ++ map fst (first_by_key seen cands))%list,
     (clauses ++ map snd (first_by_key seen cands))%list).
Proof.
  revert seen clauses. induction cands as [|[k c] rest IH]; intros seen clauses.
  - cbn. now rewrite !app_nil_r.
  - cbn [fold_left first_by_key]. unfold add_candidate at 2. cbn [fst snd].
    destruct (mem k seen); cbn [negb].
    + apply IH.
    + rewrite IH. cbn [map fst snd]. now rewrite <- !app_assoc.
Qed.

Lemma first_by_key_NoDup (cands : list (string * clause)) (seen : list string) :
  NoDup seen -> NoDup (seen ++ map fst (first_by_key seen cands)).
Proof.
  revert seen. induction cands as [|[k c] rest IH]; intros seen Hs; cbn.
  - now rewrite app_nil_r.
  - destruct (mem k seen) eqn:E.
    + now apply IH.
    + cbn [map fst].
      replace (seen ++ k :: map fst (first_by_key (seen ++ [k]) rest))%list
        with ((seen ++ [k]) ++ map fst (first_by_key (seen ++ [k]) rest))%list
        by now rewrite <- app_assoc.
      apply IH. apply NoDup_app; [exact Hs | repeat constructor; easy |].
      intros x Hx [<-|[]]. now apply mem_false_In in E.
Qed.

Lemma first_by_key_In (cands : list (string * clause)) (seen : list string)
    (kc : string * clause) :
  In kc (first_by_key seen cands) -> In kc cands /\ ~ In (fst kc) seen.
Proof.
  revert seen. induction cands as [|[k c] rest IH]; intros seen; cbn; [easy|].
  destruct (mem k seen) eqn:E.
  - intros H. destruct (IH _ H). auto.
  - intros [<-|H].
    + split; [now left | now apply mem_false_In].
    + destruct (IH _ H) as [H1 H2]. split; [now right|].
      intros Hin. apply H2, in_or_app. now left.
Qed.

(** Every key met is a key seen or a key kept. *)
Lemma first_by_key_covers (cands : list (string * clause)) (seen : list string)
    (kc : string * clause) :
  In kc cands -> In (fst kc) (seen ++ map fst (first_by_key seen cands)).
Proof.
  revert seen. induction cands as [|[k c] rest IH]; intros seen; cbn; [easy|].
  intros [<-|H].
  - cbn [fst]. destruct (mem k seen) eqn:E.
    + apply in_or_app. left. now apply mem_true_In.
    + apply in_or_app. right. now left.
  - destruct (mem k seen) eqn:E.
    + now apply IH.
    + specialize (IH (seen ++ [k])%list H). cbn [map fst].
      rewrite <- app_assoc in IH. exact IH.
Qed.

Lemma fold_left_map_step {A B C} (f : A -> C -> A) (g : B -> C) (h : A -> B -> A)
    (l : list B) (a : A) :
  (forall a b, h a b = f a (g b)) ->
  fold_left h l a = fold_left f (map g l) a.
Proof.
  intros H. revert a. induction l as [|b l IH]; intros a; cbn; [reflexivity|].
  now rewrite H, IH.
Qed.

Lemma fold_left_flat_map {A B C} (f : A -> C -> A) (g : B -> list C)
    (l : list B) (a : A) :
  fold_left f (flat_map g l) a = fold_left (fun a b => fold_left f (g b) a) l a.
Proof.
  revert a. induction l as [|b l IH]; intros a; cbn; [reflexivity|].
  now rewrite fold_left_app, IH.
Qed.

Section RetrievalProofs.

Variable store : Type.
Variable from_documents : list Document -> option store.
Variable invoke : store -> nat -> string -> option (list Document).
Variable search_clause_id : string -> option string.
Variable search_rule_name : string -> option string.

Lemma add_rbi_doc_candidate (st : retrieval_state) (doc : Document) :
  add_rbi_doc search_clause_id search_rule_name st doc
  = add_candidate st (rbi_candidate search_clause_id search_rule_name doc).
Proof. destruct st as [seen clauses]. reflexivity. Qed.

Lemma add_client_doc_candidate (st : retrieval_state) (doc : Document) :
  add_client_doc st doc = add_candidate st (client_candidate doc).
Proof. destruct st as [seen clauses]. reflexivity. Qed.

Lemma query_message_candidates (rbi : store) (client_retriever : option store)
    (st : retrieval_state) (message : string) :
  query_message store invoke search_clause_id search_rule_name rbi
                client_retriever st message
  = fold_left add_candidate
      (candidates store invoke search_clause_id search_rule_name rbi
                  client_retriever [message]) st.
Proof.
  unfold query_message, candidates, hits. cbn [flat_map].
  rewrite app_nil_r, fold_left_app.
  assert (R : forall st,
             match invoke rbi 8 message with
             | Some rbi_docs =>
                 fold_left (add_rbi_doc search_clause_id search_rule_name) rbi_docs st
             | None => st
             end
             = fold_left add_candidate
                 (map (rbi_candidate search_clause_id search_rule_name)
                      match invoke rbi 8 message with
                      | Some docs => docs
                      | None => []
                      end) st).
  { intros st0. destruct (invoke rbi 8 message); [|reflexivity].
    apply fold_left_map_step. apply add_rbi_doc_candidate. }
  rewrite R. destruct client_retriever as [cs|]; [|reflexivity].
  destruct (invoke cs 4 message); [|reflexivity].
  apply fold_left_map_step. apply add_client_doc_candidate.
Qed.

(** The loop of the retriever keeps the first hit of every key. *)
Lemma retrieval_loop_first_by_key (rbi : store)
    (client_retriever : option store) (messages : list string) :
  fold_left (query_message store invoke search_clause_id search_rule_name rbi
                           client_retriever) messages ([], [])
  = (map fst (first_by_key []
                (candidates store invoke search_clause_id search_rule_name
                            rbi client_retriever messages)),
     map snd (first_by_key []
                (candidates store invoke search_clause_id search_rule_name
                            rbi client_retriever messages))).
Proof.
  pose proof (fold_add_candidate
                (candidates store invoke search_clause_id search_rule_name
                            rbi client_retriever messages) [] []) as F.
  cbn [app] in F. rewrite <- F. clear F.
  unfold candidates at 1. rewrite fold_left_flat_map.
  generalize (@nil string, @nil clause).
  induction messages as [|m ms IH]; intros st; cbn [fold_left]; [reflexivity|].
  rewrite query_message_candidates. unfold candidates at 1. cbn [flat_map].
  rewrite app_nil_r. apply IH.
Qed.

End RetrievalProofs.

(** ** The merge with the full corpus *)

Lemma first_by_id_keys (seen : list string) (cs : list clause) :
  map (fun c => (clause_id c, c)) (first_by_id seen cs)
  = first_by_key seen (map (fun c => (clause_id c, c)) cs).
Proof.
  revert seen. induction cs as [|c cs IH]; intros seen; cbn; [reflexivity|].
  destruct (mem (clause_id c) seen); cbn; now rewrite IH.
Qed.

Lemma merge_step_candidate (st : list string * list clause) (c : clause) :
  merge_step st c = add_candidate st (clause_id c, c).
Proof. destruct st. reflexivity. Qed.

Lemma merge_clauses_first_by_id (all_clauses rag_clauses : list clause) :
  merge_clauses all_clauses rag_clauses
  = (all_clauses ++ first_by_id (clause_ids all_clauses) rag_clauses)%list.
Proof.
  unfold merge_clauses.
  rewrite (fold_left_map_step add_candidate (fun c => (clause_id c, c))
             merge_step rag_clauses _ merge_step_candidate).
  rewrite fold_add_candidate. cbn [snd]. fold (clause_ids all_clauses).
  rewrite <- first_by_id_keys, map_map. cbn [snd]. now rewrite map_id.
Qed.

Lemma merge_clauses_NoDup (all_clauses rag_clauses : list clause) :
  NoDup (clause_ids all_clauses) ->
  NoDup (clause_ids (merge_clauses all_clauses rag_clauses)).
Proof.
  intros H. rewrite merge_clauses_first_by_id. unfold clause_ids.
  rewrite map_app.
  replace (map clause_id (first_by_id (map clause_id all_clauses) rag_clauses))
    with (map fst (first_by_key (map clause_id all_clauses)
                     (map (fun c => (clause_id c, c)) rag_clauses))).
  - now apply first_by_key_NoDup.
  - rewrite <- first_by_id_keys, map_map. reflexivity.
Qed.

Lemma keyed_NoDup_ids (kept : list (string * clause)) :
  NoDup (map fst kept) ->
  (forall k c, In (k, c) kept -> k = clause_id c \/ source c = "client_config") ->
  NoDup (clause_ids (filter not_from_client (map snd kept))).
Proof.
  induction kept as [|[k c] kept IH]; intros Hnd Hk; cbn; [constructor|].
  inversion Hnd as [|? ? Hnotin Hnd']; subst.
  assert (IH' : NoDup (clause_ids (filter not_from_client (map snd kept)))).
  { apply IH; [exact Hnd' | intros k' c' H; apply Hk; now right]. }
  destruct (not_from_client c) eqn:E; [|exact IH'].
  cbn. constructor; [|exact IH'].
  intros Hin. apply Hnotin.
  destruct (Hk k c (or_introl eq_refl)) as [-> | Hs].
  - unfold clause_ids in Hin. apply in_map_iff in Hin.
    destruct Hin as [c' [Hid Hc']]. apply filter_In in Hc'.
    destruct Hc' as [Hc' Hnc]. apply in_map_iff in Hc'.
    destruct Hc' as [[k' c''] [Hsnd Hkc]]. cbn in Hsnd. subst c''.
    destruct (Hk k' c' (or_intror Hkc)) as [-> | Hs'].
    + rewrite <- Hid. apply in_map_iff. now exists (clause_id c', c').
    + unfold not_from_client in Hnc. rewrite Hs' in Hnc. discriminate.
  - unfold not_from_client in E. rewrite Hs in E. discriminate.
Qed.

Section RetrievalTheorem.

Variable store : Type.
Variable from_documents : list Document -> option store.
Variable invoke : store -> nat -> string -> option (list Document).
Variable search_clause_id : string -> option string.
Variable search_rule_name : string -> option string.

Lemma candidates_keyed (rbi : store) (client_retriever : option store)
    (messages : list string) (k : string) (c : clause) :
  In (k, c) (candidates store invoke search_clause_id search_rule_name rbi
                        client_retriever messages) ->
  k = clause_id c \/ source c = "client_config".
Proof.
  unfold candidates. rewrite in_flat_map. intros [m [_ H]].
  apply in_app_or in H. destruct H as [H|H].
  - apply in_map_iff in H. destruct H as [doc [[= <- <-] _]]. now left.
  - destruct client_retriever; [|easy].
    apply in_map_iff in H. destruct H as [doc [[= <- <-] _]]. now right.
Qed.

(** C5 (as the code has it). The list the Clause Retriever returns holds the
    first hit of every deduplication key, in the order the hits were met:
    the key is the clause_id for a hit of the primary index and "CLIENT-"
    with the rule name for a hit of the client index.  So no key occurs
    twice, and no two entries that did not come from the client index share
    a clause_id.  The union with the full corpus made by the orchestrating
    layer is the corpus followed by the retrieved clauses whose clause_id was
    not seen before, in order; it holds no clause_id twice when the corpus
    holds none twice. *)
Theorem clause_deduplication (_rbi_vectorstore : option store)
    (transcript_threads : list (list (string * string)))
    (cfg : option client_config) (clauses : list clause) :
  retrieve_relevant_clauses store from_documents invoke search_clause_id
    search_rule_name _rbi_vectorstore transcript_threads cfg = Some clauses ->
  (exists kept,
      clauses = map snd kept
      /\ NoDup (map fst kept)
      /\ (forall k c, In (k, c) kept ->
            k = clause_id c \/ source c = "client_config")
      /\ (_rbi_vectorstore = None -> kept = [])
      /\ (forall rbi, _rbi_vectorstore = Some rbi ->
            exists client_retriever,
              match cfg with
              | Some c => load_client_rules store from_documents c
              | None => Some None
              end = Some client_retriever
              /\ kept = first_by_key []
                          (candidates store invoke search_clause_id
                             search_rule_name rbi client_retriever
                             (agent_messages_of transcript_threads))))
  /\ NoDup (clause_ids (filter not_from_client clauses))
  /\ (forall corpus,
        merge_clauses corpus clauses
        = (corpus ++ first_by_id (clause_ids corpus) clauses)%list
        /\ (NoDup (clause_ids corpus) ->
            NoDup (clause_ids (merge_clauses corpus clauses)))).
Proof.
  intros H.
  assert (K : exists kept,
      clauses = map snd kept
      /\ NoDup (map fst kept)
      /\ (forall k c, In (k, c) kept ->
            k = clause_id c \/ source c = "client_config")
      /\ (_rbi_vectorstore = None -> kept = [])
      /\ (forall rbi, _rbi_vectorstore = Some rbi ->
            exists client_retriever,
              match cfg with
              | Some c => load_client_rules store from_documents c
              | None => Some None
              end = Some client_retriever
              /\ kept = first_by_key []
                          (candidates store invoke search_clause_id
                             search_rule_name rbi client_retriever
                             (agent_messages_of transcript_threads)))).
  { unfold retrieve_relevant_clauses, retrieve_state in H.
    destruct _rbi_vectorstore as [rbi|].
    - destruct (match cfg with
                | Some c => load_client_rules store from_documents c
                | None => Some None
                end) as [client_retriever|] eqn:E; [|discriminate].
      cbn [option_map] in H. rewrite retrieval_loop_first_by_key in H.
      cbn [snd] in H. injection H as <-.
      eexists. split; [reflexivity|]. split; [|split; [|split]].
      + apply (first_by_key_NoDup _ []). constructor.
      + intros k c Hin. apply first_by_key_In in Hin.
        destruct Hin as [Hin _]. exact (candidates_keyed _ _ _ _ _ Hin).
      + discriminate.
      + intros rbi' [= <-]. exists client_retriever. split; reflexivity.
    - cbn in H. injection H as <-. exists []. repeat split.
      + constructor.
      + intros k c [].
      + discriminate. }
  split; [exact K|].
  destruct K as (kept & -> & Hnd & Hk & _).
  split; [now apply keyed_NoDup_ids|].
  intros corpus. split; [apply merge_clauses_first_by_id | apply merge_clauses_NoDup].
Qed.

End RetrievalTheorem.

(** A run of the theorem: one clause of the primary index is retrieved and
    merged with a corpus that already lists it. *)
Lemma clause_deduplication_witness :
  NoDup (clause_ids
           (merge_clauses
              [mk_clause "RBI-REC-04" "No Physical Threats" "text"
                         "rbi_recovery_guidelines.txt"]
              [mk_clause "RBI-REC-04" "No Physical Threats"
                         "CLAUSE RBI-REC-04: No Physical Threats"
                         "rbi_recovery_guidelines.txt"])).
Proof.
  refine (proj2 (proj2 (proj2
            (clause_deduplication (list Document) Some list_store_hits
               no_match no_match (Some rbi_one_clause) one_agent_turn None
               _ eq_refl))
            [mk_clause "RBI-REC-04" "No Physical Threats" "text"
                       "rbi_recovery_guidelines.txt"]) _).
  repeat constructor. intros [].
Defined.

(** C5, counterexample: with two risk triggers in the client configuration
    the retriever returns two entries with the clause_id CLIENT-TRIGGER. *)
Lemma retriever_repeats_trigger_id :
  exists c1 c2,
    retrieve_relevant_clauses (list Document) Some list_store_hits
      no_match no_match (Some []) one_agent_turn (Some two_risk_triggers)
    = Some [c1; c2]
    /\ clause_id c1 = "CLIENT-TRIGGER" /\ clause_id c2 = "CLIENT-TRIGGER"
    /\ ~ NoDup (clause_ids [c1; c2]).
Proof.
  eexists. eexists. split; [reflexivity|]. split; [reflexivity|].
  split; [reflexivity|].
  intros H. inversion H as [|? ? Hn _]. apply Hn. now left.
Qed.

(* ================================================================= *)
(** * Part IV — further properties of the code *)
(* ================================================================= *)

(** ** The traversal of the exception monad, continued *)

Lemma traverse_app {A B} (f : A -> exn + B) (xs ys : list A) :
  traverse f (xs ++ ys)
  = match traverse f xs with
    | inl e => inl e
    | inr xs' =>
        match traverse f ys with
        | inl e => inl e
        | inr ys' => inr (xs' ++ ys')%list
        end
    end.
Proof.
  induction xs as [|x xs IH]; cbn.
  - now destruct (traverse f ys).
  - destruct (f x); [reflexivity|]. rewrite IH.
    destruct (traverse f xs); [reflexivity|].
    now destruct (traverse f ys).
Qed.

Lemma traverse_total {A B} (f : A -> exn + B) (xs : list A) :
  (forall x, In x xs -> exists y, f x = inr y) ->
  exists ys, traverse f xs = inr ys.
Proof.
  induction xs as [|x xs IH]; intros H; cbn; [now exists []|].
  destruct (H x (or_introl eq_refl)) as [y ->].
  destruct IH as [ys ->]; [intros; apply H; now right|].
  now exists (y :: ys).
Qed.

Lemma traverse_fails_at {A B} (f : A -> exn + B) (before after : list A)
    (x : A) (e : exn) :
  (forall y, In y before -> exists z, f y = inr z) ->
  f x = inl e ->
  traverse f (before ++ x :: after) = inl e.
Proof.
  intros Hb Hx. induction before as [|y l IH]; cbn [app traverse].
  - now rewrite Hx.
  - destruct (Hb y (or_introl eq_refl)) as [z ->].
    rewrite IH; [reflexivity|]. intros; apply Hb; now right.
Qed.

(** ** Time stamps *)

Lemma fmt_02d_two_digits (n : nat) :
  (n < 100)%nat -> fmt_02d n = two_digits n.
Proof.
  intros H.
  assert (A : forallb (fun n => String.eqb (fmt_02d n) (two_digits n))
                      (seq 0 100) = true) by (vm_compute; reflexivity).
  rewrite forallb_forall in A.
  apply String.eqb_eq, A, in_seq. lia.
Qed.

Lemma digit_char_inj (a b : nat) :
  (a < 10)%nat -> (b < 10)%nat -> digit_char a = digit_char b -> a = b.
Proof.
  intros Ha Hb E. unfold digit_char in E.
  apply (f_equal nat_of_ascii) in E.
  rewrite !nat_ascii_embedding in E by lia. lia.
Qed.

Lemma two_digits_inj (a b : nat) :
  (a < 100)%nat -> (b < 100)%nat -> two_digits a = two_digits b -> a = b.
Proof.
  intros Ha Hb E. unfold two_digits in E.
  pose proof (Nat.div_mod_eq a 10) as Da.
  pose proof (Nat.div_mod_eq b 10) as Db.
  pose proof (Nat.mod_upper_bound a 10 ltac:(lia)) as Ra.
  pose proof (Nat.mod_upper_bound b 10 ltac:(lia)) as Rb.
  remember (a / 10)%nat as qa. remember (b / 10)%nat as qb.
  remember (a mod 10)%nat as ra. remember (b mod 10)%nat as rb.
  injection E as E1 E2.
  apply digit_char_inj in E1; [|lia|lia].
  apply digit_char_inj in E2; [|lia|lia]. lia.
Qed.

(** On whole seconds below one hundred minutes the stamp is MM:SS, and
    different seconds have different stamps. *)
Lemma seconds_to_mmss_whole (seconds : nat) :
  (seconds < 100 * 60)%nat ->
  _seconds_to_mmss seconds
  = two_digits (seconds / 60) ++ ":" ++ two_digits (seconds mod 60)
  /\ String.length (_seconds_to_mmss seconds) = 5%nat
  /\ (forall other, (other < 100 * 60)%nat ->
        _seconds_to_mmss other = _seconds_to_mmss seconds -> other = seconds).
Proof.
  intros H.
  assert (F : forall s, (s < 100 * 60)%nat ->
            _seconds_to_mmss s
            = two_digits (s / 60) ++ ":" ++ two_digits (s mod 60)).
  { intros s Hs. unfold _seconds_to_mmss. cbv zeta.
    assert ((s / 60 < 100)%nat) by (apply Nat.Div0.div_lt_upper_bound; lia).
    assert ((s mod 60 < 100)%nat)
      by (pose proof (Nat.mod_upper_bound s 60); lia).
    now rewrite !fmt_02d_two_digits by assumption. }
  split; [now apply F|]. split; [now rewrite F|].
  intros other Ho E. rewrite (F other Ho), (F seconds H) in E.
  pose proof (Nat.div_mod_eq other 60) as Do.
  pose proof (Nat.div_mod_eq seconds 60) as Ds.
  pose proof (Nat.mod_upper_bound other 60 ltac:(lia)) as Ro.
  pose proof (Nat.mod_upper_bound seconds 60 ltac:(lia)) as Rs.
  assert (Qo : (other / 60 < 100)%nat)
    by (apply Nat.Div0.div_lt_upper_bound; lia).
  assert (Qs : (seconds / 60 < 100)%nat)
    by (apply Nat.Div0.div_lt_upper_bound; lia).
  remember (other / 60)%nat as mo. remember (seconds / 60)%nat as ms.
  remember (other mod 60)%nat as so. remember (seconds mod 60)%nat as ss.
  assert (Hm : two_digits mo = two_digits ms
               /\ two_digits so = two_digits ss).
  { unfold two_digits in *. cbn [append] in E.
    remember (digit_char (mo / 10)) as c1. remember (digit_char (mo mod 10)) as c2.
    remember (digit_char (ms / 10)) as c3. remember (digit_char (ms mod 10)) as c4.
    remember (digit_char (so / 10)) as c5. remember (digit_char (so mod 10)) as c6.
    remember (digit_char (ss / 10)) as c7. remember (digit_char (ss mod 10)) as c8.
    injection E as -> -> -> ->. split; reflexivity. }
  destruct Hm as [Hm Hs].
  apply two_digits_inj in Hm; [|lia|lia].
  apply two_digits_inj in Hs; [|lia|lia]. lia.
Qed.

Lemma fmt_02d_nonnegative (n : Z) :
  (0 <= n)%Z -> SecondsStamp.fmt_02d n = fmt_02d (Z.to_nat n).
Proof.
  intros H. unfold SecondsStamp.fmt_02d, fmt_02d.
  replace (n <? 0)%Z with false by (symmetry; apply Z.ltb_ge; lia).
  reflexivity.
Qed.

Lemma seconds_to_mmss_of_whole (seconds : float) (whole : Z) :
  SecondsStamp.py_int seconds = inr whole -> (0 <= whole)%Z ->
  SecondsStamp._seconds_to_mmss seconds
  = inr (_seconds_to_mmss (Z.to_nat whole)).
Proof.
  intros H Hw. unfold SecondsStamp._seconds_to_mmss, _seconds_to_mmss.
  rewrite H. cbv zeta.
  rewrite !fmt_02d_nonnegative
    by (try apply Z.div_pos; try apply Z.mod_pos_bound; lia).
  rewrite Z2Nat.inj_div, Z2Nat.inj_mod by lia.
  reflexivity.
Qed.

(** X1. [_seconds_to_mmss] stamps the whole seconds [int(seconds)] of its
    float argument.  When they lie between 0 and one hundred minutes, the
    stamp is exactly MM:SS, the two decimal digits of the minutes and of the
    seconds, and it is the stamp of the segmenter for that whole second; two
    such arguments get the same stamp exactly when their whole seconds are
    the same, so 59.0 and 59.5 share the stamp 00:59. *)
Theorem seconds_to_mmss_format (seconds : float) (whole : Z) :
  SecondsStamp.py_int seconds = inr whole ->
  (0 <= whole < 6000)%Z ->
  SecondsStamp._seconds_to_mmss seconds
  = inr (two_digits (Z.to_nat (whole / 60)) ++ ":"
         ++ two_digits (Z.to_nat (whole mod 60)))
  /\ SecondsStamp._seconds_to_mmss seconds
     = inr (_seconds_to_mmss (Z.to_nat whole))
  /\ (forall other whole',
        SecondsStamp.py_int other = inr whole' ->
        (0 <= whole' < 6000)%Z ->
        (SecondsStamp._seconds_to_mmss other
         = SecondsStamp._seconds_to_mmss seconds
         <-> whole' = whole)).
Proof.
  intros H Hw.
  assert (N : forall w, (0 <= w < 6000)%Z -> (Z.to_nat w < 100 * 60)%nat)
    by (intros; lia).
  destruct (seconds_to_mmss_whole (Z.to_nat whole) (N whole Hw))
    as (F & _ & I).
  rewrite (seconds_to_mmss_of_whole seconds whole H) by lia.
  split; [|split; [reflexivity|]].
  - rewrite F, Z2Nat.inj_div, Z2Nat.inj_mod by lia. reflexivity.
  - intros other whole' H' Hw'.
    rewrite (seconds_to_mmss_of_whole other whole' H') by lia. split.
    + intros E. injection E as E. apply I in E; [lia | now apply N].
    + now intros ->.
Qed.

(** A run of the theorem: 59.5 seconds are stamped as 59 whole seconds. *)
Lemma seconds_to_mmss_format_witness :
  SecondsStamp._seconds_to_mmss 59.5%float = inr "00:59".
Proof.
  exact (proj1 (seconds_to_mmss_format 59.5%float 59%Z eq_refl
                  ltac:(split; [discriminate | reflexivity]))).
Defined.

(** ** The list of segments *)

Lemma classify_arousal_label (energy pitch : float) :
  In (_classify_arousal energy pitch) ["High"; "Medium"; "Low"].
Proof.
  unfold _classify_arousal.
  destruct ((HIGH_ENERGY_THRESHOLD <=? energy)%float
            && (HIGH_PITCH_THRESHOLD <=? pitch)%float); [now left|].
  destruct (MEDIUM_ENERGY_THRESHOLD <=? energy)%float;
    [right; now left | right; right; now left].
Qed.

Section SegmentList.

Variable sample : Type.
Variable LIBROSA_AVAILABLE : bool.
Variable librosa_load : string -> option (list sample).
Variable rms_of : list sample -> float.
Variable yin : list sample -> option (list float).
Variable median : list float -> float.
Variable zcr_mean_of : list sample -> float.
Variable py_round : float -> nat -> float.

(** Every window is skipped exactly when the recording is shorter than
    half a second. *)
Lemma kept_windows_zero (sr : nat) (y : list sample) :
  (0 < sr)%nat ->
  kept_windows sr y = 0%nat <-> (2 * List.length y < sr)%nat.
Proof.
  intros Hsr. unfold kept_windows, trailing_length, num_windows.
  change SEGMENT_DURATION_SECONDS with 10%nat.
  set (W := (10 * sr)%nat).
  assert (HW : (0 < W)%nat) by (unfold W; lia).
  destruct (ceil_div_bounds (List.length y) W HW) as [H1 H2].
  set (c := ceil_div (List.length y) W) in *.
  assert (Hc : (2 * List.length y < sr)%nat -> (c <= 1)%nat).
  { intros Hs. destruct c as [|[|c]]; [lia | lia |].
    specialize (H2 ltac:(lia)).
    replace (S (S c) - 1)%nat with (S c) in H2 by lia.
    unfold W in H2. nia. }
  destruct (Nat.ltb_spec
              (2 * (List.length y - (Nat.max 1 c - 1) * W)) sr) as [Ht|Ht].
  - split.
    + intros Hn. replace (Nat.max 1 c - 1)%nat with 0%nat in Ht by lia.
      cbn [Nat.mul] in Ht. lia.
    + intros Hs. specialize (Hc Hs). lia.
  - split; [lia|]. intros Hs. specialize (Hc Hs).
    replace (Nat.max 1 c - 1)%nat with 0%nat in Ht by lia.
    cbn [Nat.mul] in Ht. lia.
Qed.

(** X2. [analyze_audio] never returns an empty list.  It returns the one
    generic segment without librosa, when the file cannot be decoded, and
    when every window is skipped, which happens exactly when the decoded
    recording is shorter than half a second; on a longer recording it
    returns the segments of the kept windows, at least one. *)
Theorem analyze_audio_nonempty (file_path : string) :
  analyze_audio sample LIBROSA_AVAILABLE librosa_load rms_of yin median
                zcr_mean_of py_round file_path <> []
  /\ (LIBROSA_AVAILABLE = false \/ librosa_load file_path = None ->
      analyze_audio sample LIBROSA_AVAILABLE librosa_load rms_of yin median
                    zcr_mean_of py_round file_path = [generic_segment])
  /\ (forall y,
        LIBROSA_AVAILABLE = true -> librosa_load file_path = Some y ->
        (analyze_samples sample rms_of yin median zcr_mean_of py_round
                         SAMPLE_RATE y = []
         <-> (2 * List.length y < SAMPLE_RATE)%nat)
        /\ ((2 * List.length y < SAMPLE_RATE)%nat ->
            analyze_audio sample LIBROSA_AVAILABLE librosa_load rms_of yin
                          median zcr_mean_of py_round file_path
            = [generic_segment])
        /\ ((SAMPLE_RATE <= 2 * List.length y)%nat ->
            analyze_audio sample LIBROSA_AVAILABLE librosa_load rms_of yin
                          median zcr_mean_of py_round file_path
            = map (window_segment rms_of yin median zcr_mean_of py_round
                                  SAMPLE_RATE y)
                  (seq 0 (kept_windows SAMPLE_RATE y))
            /\ (1 <= kept_windows SAMPLE_RATE y)%nat)).
Proof.
  unfold analyze_audio. split; [|split].
  - destruct LIBROSA_AVAILABLE; cbn [negb]; [|discriminate].
    destruct (librosa_load file_path) as [y|]; [|discriminate].
    destruct (analyze_samples _ _ _ _ _ _ _ y); discriminate.
  - intros [-> | ->]; [reflexivity|].
    destruct LIBROSA_AVAILABLE; reflexivity.
  - intros y -> ->. cbn [negb].
    rewrite (analyze_samples_windows sample rms_of yin median zcr_mean_of
               py_round SAMPLE_RATE y SAMPLE_RATE_pos).
    pose proof (kept_windows_zero SAMPLE_RATE y SAMPLE_RATE_pos) as K.
    assert (E : map (window_segment rms_of yin median zcr_mean_of py_round
                       SAMPLE_RATE y) (seq 0 (kept_windows SAMPLE_RATE y)) = []
                <-> kept_windows SAMPLE_RATE y = 0%nat).
    { destruct (kept_windows SAMPLE_RATE y); cbn; split; congruence. }
    split; [now rewrite E|]. split.
    + intros Hs. apply K in Hs. now rewrite Hs.
    + intros Hs.
      destruct (kept_windows SAMPLE_RATE y) as [|k] eqn:Ek.
      * exfalso. assert (H0 : 0%nat = 0%nat) by reflexivity.
        apply K in H0. lia.
      * split; [reflexivity | lia].
Qed.

(** X3. The time stamps of the segments [analyze_audio] returns are those of
    0, 10, 20, ... seconds, without a gap, and every arousal label is one of
    High, Medium, Low. *)
Theorem analyze_audio_stamps_and_labels (file_path : string) :
  let segments :=
    analyze_audio sample LIBROSA_AVAILABLE librosa_load rms_of yin median
                  zcr_mean_of py_round file_path in
  map seg_timestamp segments
  = map (fun i => _seconds_to_mmss (i * 10)) (seq 0 (List.length segments))
  /\ Forall (fun s => In (acoustic_arousal s) ["High"; "Medium"; "Low"])
            segments.
Proof.
  cbv zeta.
  assert (G : map seg_timestamp [generic_segment]
              = map (fun i => _seconds_to_mmss (i * 10)) (seq 0 1)
              /\ Forall (fun s => In (acoustic_arousal s) ["High"; "Medium"; "Low"])
                        [generic_segment]).
  { split; [reflexivity|]. constructor; [|constructor]. right. now left. }
  unfold analyze_audio.
  destruct LIBROSA_AVAILABLE; cbn [negb]; [|exact G].
  destruct (librosa_load file_path) as [y|]; [|exact G].
  rewrite (analyze_samples_windows sample rms_of yin median zcr_mean_of
             py_round SAMPLE_RATE y SAMPLE_RATE_pos).
  destruct (kept_windows SAMPLE_RATE y) as [|k]; [exact G|].
  set (l := map _ (seq 0 (S k))).
  assert (Hl : l = map (window_segment rms_of yin median zcr_mean_of py_round
                          SAMPLE_RATE y) (seq 0 (S k))) by reflexivity.
  replace (match l with [] => [generic_segment] | _ :: _ => l end) with l
    by (rewrite Hl; reflexivity).
  rewrite Hl, length_map, length_seq, map_map. split.
  - reflexivity.
  - apply Forall_map, Forall_forall. intros i _. apply classify_arousal_label.
Qed.

End SegmentList.

(** ** Tone of a line *)

Lemma lower_ascii_idempotent (c : ascii) :
  lower_ascii (lower_ascii c) = lower_ascii c.
Proof.
  destruct c as [[] [] [] [] [] [] [] []]; reflexivity.
Qed.

Lemma lower_idempotent (s : string) : lower (lower s) = lower s.
Proof.
  induction s as [|c s IH]; cbn; [reflexivity|].
  now rewrite lower_ascii_idempotent, IH.
Qed.

Lemma tone_of_scores_label (a p f u : nat) :
  In (tone_of_scores a p f u) TONE_LABELS.
Proof.
  unfold tone_of_scores, TONE_LABELS.
  destruct ((1 <=? a)%nat && (p <=? a)%nat); [now left|].
  destruct (1 <=? f)%nat; [right; now left|].
  destruct (1 <=? u)%nat; [right; right; now left|].
  destruct (1 <=? p)%nat; [right; right; right; now left|].
  right; right; right; right; now left.
Qed.

(** X4. The tone of a line does not depend on its letter case, and is always
    one of the five labels. *)
Theorem classify_tone_case_insensitive (message : string) :
  classify_tone (lower message) = classify_tone message
  /\ In (classify_tone message) TONE_LABELS.
Proof.
  rewrite !classify_tone_scores, lower_idempotent.
  split; [reflexivity | apply tone_of_scores_label].
Qed.

Lemma stem_score_positive (text : string) (stems : list string) (s : string) :
  In s stems -> contains s text = true -> (1 <= _stem_score text stems)%nat.
Proof.
  intros Hin Hc. rewrite stem_score_counts.
  assert (H : In s (filter (fun s => contains s text) stems))
    by (apply filter_In; split; assumption).
  destruct (filter _ stems); [easy | cbn; lia].
Qed.

Lemma stem_score_zero (text : string) (stems : list string) :
  (forall s, In s stems -> contains s text = false) ->
  _stem_score text stems = 0%nat.
Proof.
  intros H. rewrite stem_score_counts.
  induction stems as [|s l IH]; [reflexivity|]. cbn.
  rewrite (H s (or_introl eq_refl)). apply IH. intros; apply H; now right.
Qed.

(** X5. A line in which a stem of the angry lexicon occurs and no stem of the
    positive lexicon occurs is angry/frustrated, whatever fearful or urgent
    stems it holds; a line in which no stem of any lexicon occurs is
    neutral. *)
Theorem classify_tone_angry_and_neutral (message : string) :
  (forall s, In s ANGRY_STEMS -> contains s (lower message) = true ->
     (forall p, In p POSITIVE_STEMS -> contains p (lower message) = false) ->
     classify_tone message = "angry/frustrated")
  /\ ((forall s, In s (ANGRY_STEMS ++ POSITIVE_STEMS ++ FEARFUL_STEMS
                       ++ URGENT_STEMS)%list ->
                 contains s (lower message) = false) ->
      classify_tone message = "neutral").
Proof.
  rewrite classify_tone_scores. split.
  - intros s Hs Hc Hp.
    pose proof (stem_score_positive _ _ _ Hs Hc) as Ha.
    rewrite (stem_score_zero _ POSITIVE_STEMS Hp).
    unfold tone_of_scores.
    apply Nat.leb_le in Ha. rewrite Ha. reflexivity.
  - intros H.
    rewrite !stem_score_zero; [reflexivity | | | |];
      intros s Hs; apply H; repeat (apply in_or_app; (now left) || right);
      try assumption.
Qed.

Lemma classify_tone_angry_and_neutral_witness :
  classify_tone "This is HARASSMENT, stop calling me" = "angry/frustrated".
Proof.
  apply (proj1 (classify_tone_angry_and_neutral
                  "This is HARASSMENT, stop calling me") "harass").
  - cbn. tauto.
  - vm_compute. reflexivity.
  - intros p Hp.
    assert (A : forallb (fun p => negb (contains p
                  (lower "This is HARASSMENT, stop calling me")))
                  POSITIVE_STEMS = true) by (vm_compute; reflexivity).
    rewrite forallb_forall in A. apply negb_true_iff, A, Hp.
Defined.

(** ** The result of the calling-hours check *)

Lemma hour_minute_bounds (t : Z) :
  (0 <= hour_of t < 24)%Z /\ (0 <= minute_of t < 60)%Z.
Proof.
  unfold hour_of, minute_of.
  assert (Hd : (0 <= t mod US_PER_DAY < US_PER_DAY)%Z)
    by (apply Z.mod_pos_bound; reflexivity).
  assert (Hh : (0 <= (t mod US_PER_DAY) mod US_PER_HOUR < US_PER_HOUR)%Z)
    by (apply Z.mod_pos_bound; reflexivity).
  split; split.
  - apply Z.div_pos; [lia | reflexivity].
  - apply Z.div_lt_upper_bound; [reflexivity|].
    change (US_PER_HOUR * 24)%Z with US_PER_DAY. lia.
  - apply Z.div_pos; [lia | reflexivity].
  - apply Z.div_lt_upper_bound; [reflexivity|].
    change (US_PER_MINUTE * 60)%Z with US_PER_HOUR. lia.
Qed.

Lemma strftime_HM_two_digits (t : Z) :
  strftime_HM t
  = two_digits (Z.to_nat (hour_of t)) ++ ":"
    ++ two_digits (Z.to_nat (minute_of t)).
Proof.
  destruct (hour_minute_bounds t) as [Hh Hm]. unfold strftime_HM.
  rewrite !fmt_02d_two_digits by lia. reflexivity.
Qed.

(** X6. The result of the calling-hours check always carries the fixed
    clause id and rule name; its local time is either "unknown", and then no
    violation is reported, or the five characters HH:MM of an hour below 24
    and a minute below 60, and then a violation is reported exactly when the
    hour is below 8 or at least 19. *)
Theorem check_time_violation_result_shape
    (fromisoformat : string -> option datetime) (s : string) :
  let r := check_time_violation fromisoformat s in
  tv_clause_id r = "INTERNAL-TIME-01"
  /\ tv_rule_name r = "Operating Hours Compliance"
  /\ ((tv_ist_time r = "unknown" /\ tv_violation r = false)
      \/ exists h m : nat,
           (h < 24)%nat /\ (m < 60)%nat
           /\ tv_ist_time r = two_digits h ++ ":" ++ two_digits m
           /\ (tv_violation r = true <-> (h < 8 \/ 19 <= h)%nat)).
Proof.
  cbv zeta. rewrite check_time_violation_unfold.
  destruct (fromisoformat (timestamp_text s)) as [dt|];
    [|repeat split; left; split; reflexivity].
  destruct (representable (utc_wall_clock dt) && representable (ist_wall_clock dt));
    [|repeat split; left; split; reflexivity].
  cbv zeta. cbn [tv_clause_id tv_rule_name tv_ist_time tv_violation].
  split; [reflexivity|]. split; [reflexivity|]. right.
  rewrite <- hour_of_local_hour.
  destruct (hour_minute_bounds (ist_wall_clock dt)) as [Hh Hm].
  exists (Z.to_nat (hour_of (ist_wall_clock dt))),
         (Z.to_nat (minute_of (ist_wall_clock dt))).
  split; [lia|]. split; [lia|]. split; [apply strftime_HM_two_digits|].
  rewrite orb_true_iff, Z.ltb_lt, Z.leb_le. lia.
Qed.

(** X7. The verdict depends on the instant only: two texts that parse to the
    same UTC wall clock, whatever offsets they are written with, get the
    same result. *)
Theorem check_time_violation_same_instant
    (fromisoformat : string -> option datetime) (s1 s2 : string)
    (dt1 dt2 : datetime) :
  fromisoformat (timestamp_text s1) = Some dt1 ->
  fromisoformat (timestamp_text s2) = Some dt2 ->
  utc_wall_clock dt1 = utc_wall_clock dt2 ->
  check_time_violation fromisoformat s1 = check_time_violation fromisoformat s2.
Proof.
  intros H1 H2 E. rewrite !check_time_violation_unfold, H1, H2.
  unfold ist_local_hour, ist_wall_clock. rewrite E. reflexivity.
Qed.

Lemma check_time_violation_same_instant_witness :
  check_time_violation IsoBasic.fromisoformat "2026-02-20T19:30:00+05:30"
  = check_time_violation IsoBasic.fromisoformat "2026-02-20T14:00:00Z".
Proof.
  apply (check_time_violation_same_instant IsoBasic.fromisoformat
           "2026-02-20T19:30:00+05:30" "2026-02-20T14:00:00Z"
           (mk_datetime 2026 2 20 19 30 0 0 (Some 19800000000%Z))
           (mk_datetime 2026 2 20 14 0 0 0 (Some 0%Z)));
    reflexivity.
Defined.

(** ** The transcript annotation *)

Lemma annotate_turn_ok (turn : json) :
  turn_with_text turn = true ->
  exists d m,
    turn = JObj d
    /\ dict_get_default "message" d (JStr "") = JStr m
    /\ annotate_turn turn
       = inr (JObj (dict_set "tone" (JStr (classify_tone m)) d)).
Proof.
  destruct turn as [| | | | | |d]; try discriminate. cbn [turn_with_text].
  unfold annotate_turn, dict_get_default. cbn [as_dict].
  destruct (dict_get "message" d) as [[| | | |m| |]|] eqn:E;
    try discriminate; intros _.
  - exists d, m. rewrite E. repeat split.
  - exists d, "". rewrite E. repeat split.
Qed.

Lemma annotate_turn_fails (turn : json) :
  turn_with_text turn = false ->
  exists x,
    annotate_turn turn = inl (no_attribute x "get") /\ x = turn
    \/ annotate_turn turn = inl (no_attribute x "lower")
       /\ exists d, turn = JObj d /\ dict_get "message" d = Some x.
Proof.
  destruct turn as [| | | | | |d]; cbn [turn_with_text];
    try (intros _; eexists; left; split; reflexivity).
  unfold annotate_turn, dict_get_default. cbn [as_dict].
  destruct (dict_get "message" d) as [[| | | |m| |]|] eqn:E; try discriminate;
    intros _; eexists; right; (split; [reflexivity|]); exists d; split;
    reflexivity || exact E.
Qed.

(** X8. On a list of turns, [add_tone_to_transcript] returns exactly when
    every turn is an object whose message is absent or a text.  It then
    keeps the number and order of the turns, gives every turn the tone of
    its message under the key "tone" (the tone of the empty text, neutral,
    when it has no message) and keeps every other key.  Otherwise it raises
    at the first offending turn: the attribute error of [turn.get] for a
    turn that is no object, that of [message.lower] for a message that is
    no text, null included. *)
Theorem add_tone_to_transcript_annotates (turns : list json) :
  ((exists out, add_tone_to_transcript (JArr turns) = inr out)
   <-> forallb turn_with_text turns = true)
  /\ (forall out, add_tone_to_transcript (JArr turns) = inr out ->
        exists annotated,
          out = JArr annotated
          /\ Forall2
               (fun turn turn' =>
                  exists d d' m,
                    turn = JObj d /\ turn' = JObj d'
                    /\ dict_get_default "message" d (JStr "") = JStr m
                    /\ dict_get "tone" d' = Some (JStr (classify_tone m))
                    /\ (dict_get "message" d = None ->
                        dict_get "tone" d' = Some (JStr "neutral"))
                    /\ forall k, k <> "tone" -> dict_get k d' = dict_get k d)
               turns annotated)
  /\ (forall before v after,
        turns = (before ++ v :: after)%list ->
        forallb turn_with_text before = true ->
        turn_with_text v = false ->
        (is_object v = false ->
         add_tone_to_transcript (JArr turns) = inl (no_attribute v "get"))
        /\ (forall d x, v = JObj d -> dict_get "message" d = Some x ->
            add_tone_to_transcript (JArr turns)
            = inl (no_attribute x "lower"))).
Proof.
  unfold add_tone_to_transcript. cbn [py_iter].
  assert (S : forall out,
             traverse annotate_turn turns = inr out ->
             forallb turn_with_text turns = true
             /\ Forall2
                  (fun turn turn' =>
                     exists d d' m,
                       turn = JObj d /\ turn' = JObj d'
                       /\ dict_get_default "message" d (JStr "") = JStr m
                       /\ dict_get "tone" d' = Some (JStr (classify_tone m))
                       /\ (dict_get "message" d = None ->
                           dict_get "tone" d' = Some (JStr "neutral"))
                       /\ forall k, k <> "tone" -> dict_get k d' = dict_get k d)
                  turns out).
  { intros out H. apply traverse_Forall2 in H.
    induction H as [|turn turn' l l' E _ [IH1 IH2]];
      [split; [reflexivity | constructor]|].
    destruct (turn_with_text turn) eqn:T.
    - destruct (annotate_turn_ok turn T) as (d & m & -> & Hm & Ha).
      rewrite Ha in E. injection E as <-.
      split; [cbn [forallb]; rewrite T; exact IH1|].
      constructor; [|exact IH2].
      exists d, (dict_set "tone" (JStr (classify_tone m)) d), m.
      repeat split; try assumption.
      + apply dict_get_set_same.
      + intros Hn. rewrite dict_get_set_same. unfold dict_get_default in Hm.
        rewrite Hn in Hm. injection Hm as <-. vm_compute. reflexivity.
      + intros k Hk. now apply dict_get_set_other.
    - destruct (annotate_turn_fails turn T) as [x [[Hx _]|[Hx _]]];
        rewrite Hx in E; discriminate. }
  assert (T : forall l, forallb turn_with_text l = true ->
                        forall y, In y l -> exists z, annotate_turn y = inr z).
  { intros l Hl y Hy. rewrite forallb_forall in Hl.
    destruct (annotate_turn_ok y (Hl y Hy)) as (d & m & _ & _ & Ha). eauto. }
  split; [|split].
  - split.
    + intros [out H].
      destruct (traverse annotate_turn turns) as [e|annotated] eqn:E;
        [discriminate|]. now destruct (S annotated eq_refl).
    + intros H. destruct (traverse_total annotate_turn turns (T turns H))
        as [annotated ->]. eauto.
  - intros out H.
    destruct (traverse annotate_turn turns) as [e|annotated] eqn:E;
      [discriminate|]. injection H as <-. exists annotated.
    split; [reflexivity|]. now destruct (S annotated eq_refl).
  - intros before v after -> Hb Hv. split.
    + intros Ho.
      rewrite (traverse_fails_at annotate_turn before after v
                 (no_attribute v "get") (T before Hb)); [reflexivity|].
      destruct v; try discriminate; reflexivity.
    + intros d x -> Hx.
      rewrite (traverse_fails_at annotate_turn before after (JObj d)
                 (no_attribute x "lower") (T before Hb)); [reflexivity|].
      unfold annotate_turn, dict_get_default. cbn [as_dict]. rewrite Hx.
      cbn [turn_with_text] in Hv. rewrite Hx in Hv.
      destruct x; try discriminate; reflexivity.
Qed.

(** A run of the theorem: the second turn has a null message, and the
    annotation raises on it. *)
Lemma add_tone_to_transcript_annotates_witness :
  add_tone_to_transcript (JArr null_message_turns)
  = inl (mk_exn AttributeError "'NoneType' object has no attribute 'lower'").
Proof.
  exact (proj2 (proj2 (proj2 (add_tone_to_transcript_annotates
                                null_message_turns))
                  [JObj [("speaker", JStr "agent");
                         ("message", JStr "Hello");
                         ("timestamp", JStr "00:05")]]
                  (JObj [("speaker", JStr "customer");
                         ("message", JNull);
                         ("timestamp", JStr "00:12")])
                  [] eq_refl eq_refl eq_refl)
           _ JNull eq_refl eq_refl).
Defined.

(** ** The audit section: totality and errors *)

Lemma normalize_violation_object (d : dict) :
  exists d', normalize_violation (JObj d) = inr (JObj d')
    /\ forall k, k <> "severity" -> dict_get k d' = dict_get k d.
Proof.
  unfold normalize_violation. cbn [as_dict].
  destruct (severity_unknown d).
  - eexists. split; [reflexivity|]. intros k Hk. now apply dict_get_set_other.
  - exists d. split; [reflexivity | reflexivity].
Qed.

Lemma normalize_violation_keeps_ok (v v' : json) :
  normalize_violation v = inr v' ->
  violation_entry_ok v = true -> violation_entry_ok v' = true.
Proof.
  destruct v as [| | | | | |d]; try discriminate.
  destruct (normalize_violation_object d) as (d' & E & K).
  rewrite E. intros [= <-]. cbn. unfold dict_get_default.
  now rewrite K by discriminate.
Qed.

(** X9. [build_audit] returns a section whenever the reported violations are
    absent or a list of objects whose clause ids are not lists or objects;
    it never raises on such an input. *)
Theorem build_audit_total (cr : dict) (tv : time_result) (items : list json) :
  reported_violations cr = JArr items ->
  forallb violation_entry_ok items = true ->
  exists doc, build_audit cr tv = inr doc.
Proof.
  intros Hi Hok. rewrite forallb_forall in Hok.
  unfold build_audit. fold (reported_violations cr). rewrite Hi.
  cbn [normalize_violations].
  destruct (traverse_total normalize_violation items) as [items' Ht].
  { intros v Hv. specialize (Hok v Hv).
    destruct v; try discriminate.
    destruct (normalize_violation_object fields) as (d' & E & _). eauto. }
  rewrite Ht.
  assert (Hok' : forall v', In v' items' -> violation_entry_ok v' = true).
  { apply traverse_Forall2 in Ht. clear -Ht Hok.
    induction Ht as [|v v' l l' Hv _ IH]; intros w Hw; [destruct Hw|].
    destruct Hw as [<-|Hw].
    - eapply normalize_violation_keeps_ok; [exact Hv | apply Hok; now left].
    - apply IH; [intros; apply Hok; now right | exact Hw]. }
  assert (He : exists pv, ensure_time_violation tv (JArr items') = inr pv
                          /\ exists out, pv = JArr out).
  { unfold ensure_time_violation. destruct (tv_violation tv).
    - cbn [py_iter].
      destruct (traverse_total clause_id_of items') as [ids ->].
      { intros v Hv. specialize (Hok' v Hv). destruct v; try discriminate.
        unfold clause_id_of. cbn [as_dict]. cbn [violation_entry_ok] in Hok'.
        destruct (dict_get_default "clause_id" fields JNull);
          try discriminate; cbn [hashable]; eauto. }
      destruct (negb _); cbn [py_append]; eauto.
    - eauto. }
  destruct He as (pv & -> & out & ->). cbn [py_len]. eauto.
Qed.

Lemma build_audit_total_witness :
  exists doc, build_audit one_threat_reported evening_call = inr doc.
Proof.
  exact (build_audit_total one_threat_reported evening_call _ eq_refl eq_refl).
Defined.

(** X10. When the reported violations are a list and its first entry that is
    not an object is [v], [build_audit] raises the attribute error of
    [v.get]: no section is produced. *)
Theorem build_audit_rejects_non_object (cr : dict) (tv : time_result)
    (before after : list json) (v : json) :
  reported_violations cr = JArr (before ++ v :: after) ->
  forallb is_object before = true ->
  is_object v = false ->
  build_audit cr tv = inl (no_attribute v "get").
Proof.
  intros Hi Hb Hv. unfold build_audit. fold (reported_violations cr).
  rewrite Hi. cbn [normalize_violations]. rewrite traverse_app.
  destruct (traverse_total normalize_violation before) as [b' ->].
  { rewrite forallb_forall in Hb. intros x Hx. specialize (Hb x Hx).
    destruct x; try discriminate.
    destruct (normalize_violation_object fields) as (d' & E & _). eauto. }
  cbn [traverse]. unfold normalize_violation at 1.
  destruct v; try discriminate; reflexivity.
Qed.

Lemma build_audit_rejects_non_object_witness :
  build_audit text_entry_reported afternoon_call
  = inl (mk_exn AttributeError "'str' object has no attribute 'get'").
Proof.
  exact (build_audit_rejects_non_object text_entry_reported afternoon_call
           [JObj [("clause_id", JStr "RBI-REC-04")]] [] (JStr "RBI-REC-07")
           eq_refl eq_refl eq_refl).
Defined.

(** ** The audit section: flags and untouched fields *)

Lemma build_audit_flags (cr : dict) (tv : time_result) (doc : audit) :
  build_audit cr tv = inr doc ->
  exists n,
    py_len (policy_violations doc) = inr n
    /\ compliance_flags doc
       = if (0 <? n)%nat
            && negb (truthy (dict_get_default "compliance_flags" cr (JArr [])))
         then JArr [JStr "Policy Violation Detected"]
         else dict_get_default "compliance_flags" cr (JArr []).
Proof.
  unfold build_audit.
  destruct (normalize_violations _) as [e|pv1]; [discriminate|].
  destruct (ensure_time_violation tv pv1) as [e|pv2]; [discriminate|].
  destruct (py_len pv2) as [e|n] eqn:E3; [discriminate|].
  intros [= <-]. exists n. cbn [policy_violations compliance_flags]. auto.
Qed.

(** X11. When the violation list of the section is not empty and the reasoning
    output supplied no flag (none, or an empty list), the single flag
    "Policy Violation Detected" is synthesized; otherwise the supplied flags
    are kept as they are. *)
Theorem compliance_flags_synthesized (cr : dict) (tv : time_result)
    (doc : audit) :
  build_audit cr tv = inr doc ->
  let supplied := dict_get_default "compliance_flags" cr (JArr []) in
  exists n,
    py_len (policy_violations doc) = inr n
    /\ ((0 < n)%nat -> truthy supplied = false ->
        compliance_flags doc = JArr [JStr "Policy Violation Detected"])
    /\ (n = 0%nat \/ truthy supplied = true ->
        compliance_flags doc = supplied).
Proof.
  intros Hb supplied.
  destruct (build_audit_flags cr tv doc Hb) as (n & Hn & Hf).
  exists n. split; [exact Hn|]. fold supplied in Hf. rewrite Hf. split.
  - intros Hp Ht. apply Nat.ltb_lt in Hp. now rewrite Hp, Ht.
  - intros [-> | Ht]; [reflexivity|]. rewrite Ht.
    now rewrite andb_false_r.
Qed.

Lemma compliance_flags_synthesized_witness :
  exists doc,
    build_audit one_threat_reported afternoon_call = inr doc
    /\ compliance_flags doc = JArr [JStr "Policy Violation Detected"].
Proof.
  eexists. split; [reflexivity|].
  destruct (compliance_flags_synthesized one_threat_reported afternoon_call _
              eq_refl) as (n & Hn & Hs & _).
  injection Hn as <-. apply Hs; [cbn; lia | reflexivity].
Defined.

(** X12. The normalising step changes nothing but the severity: with no
    temporal violation, the violation list of the section has the entries
    of the reported list, in order, and every entry keeps the value of every
    key other than "severity". *)
Theorem normalization_keeps_other_fields (cr : dict) (tv : time_result)
    (doc : audit) (items : list json) :
  tv_violation tv = false ->
  reported_violations cr = JArr items ->
  build_audit cr tv = inr doc ->
  exists out,
    policy_violations doc = JArr out
    /\ Forall2 (fun v v' =>
                  exists d d', v = JObj d /\ v' = JObj d'
                    /\ forall k, k <> "severity" ->
                                 dict_get k d' = dict_get k d)
               items out.
Proof.
  intros Hv Hi Hb.
  destruct (build_audit_returns cr tv doc Hb)
    as (pv1 & pv2 & n & H1 & H2 & _ & Hd & _).
  rewrite Hi in H1.
  destruct (normalize_violations_list items pv1 H1) as (items' & -> & HF).
  unfold ensure_time_violation in H2. rewrite Hv in H2. injection H2 as <-.
  exists items'. split; [exact Hd|].
  clear -HF. induction HF as [|v v' l l' E _ IH]; constructor; [|exact IH].
  destruct v; try discriminate.
  destruct (normalize_violation_object fields) as (d' & E' & K).
  rewrite E' in E. injection E as <-. eauto.
Qed.

Lemma normalization_keeps_other_fields_witness :
  exists doc out,
    build_audit odd_severities_reported afternoon_call = inr doc
    /\ policy_violations doc = JArr out
    /\ List.length out = 2%nat.
Proof.
  eexists.
  destruct (normalization_keeps_other_fields odd_severities_reported
              afternoon_call _ _ eq_refl eq_refl eq_refl) as (out & Ho & HF).
  exists out. split; [reflexivity|]. split; [exact Ho|].
  apply Forall2_length in HF. now rewrite <- HF.
Defined.

(** X13. Normalising twice is normalising once: the list the normalising step
    returns is left as it is by a second pass. *)
Theorem normalize_violations_idempotent (items : list json) (pv : json) :
  normalize_violations (JArr items) = inr pv ->
  normalize_violations pv = inr pv.
Proof.
  intros H.
  destruct (normalize_violations_list items pv H) as (items' & -> & HF).
  cbn [normalize_violations].
  replace (traverse normalize_violation items') with (@inr exn _ items');
    [reflexivity|].
  symmetry. apply traverse_Forall2.
  clear -HF. induction HF as [|v v' l l' E _ IH]; constructor; [|exact IH].
  destruct (normalize_violation_spec v v' E) as (_ & _ & _ & _ & (d' & -> & Hacc) & _).
  unfold normalize_violation. cbn [as_dict].
  apply severity_unknown_false in Hacc. now rewrite Hacc.
Qed.

Lemma normalize_violations_idempotent_witness :
  normalize_violations
    (JArr [JObj [("clause_id", JStr "RBI-REC-04");
                 ("severity", JStr "medium")]])
  = inr (JArr [JObj [("clause_id", JStr "RBI-REC-04");
                     ("severity", JStr "medium")]]).
Proof.
  exact (normalize_violations_idempotent
           [JObj [("clause_id", JStr "RBI-REC-04")]] _ eq_refl).
Defined.

(** X14. The fallback document of the orchestrator always passes the
    assembler: the section says "within policy"; its violation list is
    empty, or holds exactly the synthesized temporal entry when the
    temporal checker reported a violation, and then the flag is
    synthesized although the section still says "within policy". *)
Theorem fallback_document_assembled (error : string) (tv : time_result) :
  exists doc,
    build_audit (_build_fallback_compliance error) tv = inr doc
    /\ is_within_policy doc = JBool true
    /\ policy_violations doc
       = JArr (if tv_violation tv then [time_violation_entry tv] else [])
    /\ compliance_flags doc
       = JArr (if tv_violation tv then [JStr "Policy Violation Detected"]
               else []).
Proof.
  unfold build_audit, _build_fallback_compliance, ensure_time_violation.
  cbn [dict_get_default dict_get String.eqb Ascii.eqb Bool.eqb
       normalize_violations traverse].
  destruct (tv_violation tv); cbn; eexists; repeat split.
Qed.

(** ** Entities *)

Lemma clean_entities_from_nth (items : list json) (i : nat)
    (cleaned : list json) :
  clean_entities_from i items = inr cleaned ->
  List.length cleaned = List.length items
  /\ forall j c, nth_error cleaned j = Some c ->
       exists d, nth_error items j = Some (JObj d)
                 /\ clean_entity (i + j) (JObj d) = inr c.
Proof.
  revert i cleaned. induction items as [|e items IH]; intros i cleaned; cbn.
  - intros [= <-]. split; [reflexivity|]. intros [|j] c; discriminate.
  - destruct (clean_entity i e) as [x|c0] eqn:E; [discriminate|].
    destruct (clean_entities_from (S i) items) as [x|rest] eqn:R; [discriminate|].
    intros [= <-]. destruct (IH _ _ R) as [Hl Hn]. split; [cbn; now rewrite Hl|].
    intros [|j] c; cbn.
    + intros [= <-]. unfold clean_entity in E.
      destruct e; cbn in E; try discriminate.
      exists fields. split; [reflexivity|]. rewrite Nat.add_0_r.
      unfold clean_entity. cbn [as_dict]. exact E.
    + intros Hc. destruct (Hn j c Hc) as (d & Hd & Hce).
      exists d. split; [exact Hd|]. now rewrite Nat.add_succ_r.
Qed.

(** X15. When the entities are a list and the cleaning returns, every entity
    was an object and its cleaned form has exactly the keys text, id and
    type, in this order; the entity's own values are kept, and an entity
    without id at position i (below 100) gets the id "entity_" with the two
    decimal digits of i. *)
Theorem clean_entities_shape (items cleaned : list json) :
  clean_entities (JArr items) = inr cleaned ->
  List.length cleaned = List.length items
  /\ forall i c, nth_error cleaned i = Some c ->
       exists d fields,
         nth_error items i = Some (JObj d)
         /\ c = JObj fields
         /\ map fst fields = ["text"; "id"; "type"]
         /\ (forall k v, In k ["text"; "id"; "type"] ->
               dict_get k d = Some v -> dict_get k fields = Some v)
         /\ (dict_get "text" d = None -> dict_get "text" fields = Some (JStr ""))
         /\ (dict_get "type" d = None ->
             dict_get "type" fields = Some (JStr "UNKNOWN"))
         /\ (dict_get "id" d = None -> (i < 100)%nat ->
             dict_get "id" fields = Some (JStr ("entity_" ++ two_digits i))).
Proof.
  unfold clean_entities. cbn [py_iter]. intros H.
  destruct (clean_entities_from_nth items 0 cleaned H) as [Hl Hn].
  split; [exact Hl|]. intros i c Hc.
  destruct (Hn i c Hc) as (d & Hd & E). cbn [Nat.add] in E.
  unfold clean_entity in E. cbn [as_dict] in E. injection E as <-.
  exists d. eexists. split; [exact Hd|]. split; [reflexivity|].
  split; [reflexivity|].
  unfold dict_get_default. cbn [dict_get String.eqb Ascii.eqb Bool.eqb].
  repeat split.
  - intros k v [<-|[<-|[<-|[]]]] Hv; cbn [dict_get String.eqb Ascii.eqb Bool.eqb];
      now rewrite Hv.
  - now intros ->.
  - now intros ->.
  - intros -> Hi. now rewrite fmt_02d_two_digits.
Qed.

Lemma clean_entities_shape_witness :
  List.length [JObj [("text", JStr "Rs. 50,000"); ("id", JStr "entity_00");
                     ("type", JStr "CURRENCY")];
               JObj [("text", JStr "")   ; ("id", JStr "entity_01");
                     ("type", JStr "UNKNOWN")]]
  = 2%nat.
Proof.
  exact (proj1 (clean_entities_shape
                  [JObj [("text", JStr "Rs. 50,000"); ("type", JStr "CURRENCY")];
                   JObj []] _ eq_refl)).
Defined.

(** ** The emotional graph *)

Lemma dict_get_set {V} (k k' : string) (v : V) (d : list (string * V)) :
  dict_get k (dict_set k' v d)
  = if String.eqb k k' then Some v else dict_get k d.
Proof.
  destruct (String.eqb_spec k k') as [->|ne].
  - apply dict_get_set_same.
  - now apply dict_get_set_other.
Qed.

Lemma find_app {A} (f : A -> bool) (l1 l2 : list A) :
  find f (l1 ++ l2)
  = match find f l1 with
    | Some x => Some x
    | None => find f l2
    end.
Proof.
  induction l1 as [|x l1 IH]; cbn; [reflexivity|].
  destruct (f x); [reflexivity | exact IH].
Qed.

(** The map holds, for every time stamp, the arousal of the last segment
    that carries it. *)
Lemma acoustic_map_lookup (acoustic_segments : list segment) (ts : string) :
  dict_get ts (acoustic_map acoustic_segments)
  = option_map acoustic_arousal (last_segment_at ts acoustic_segments).
Proof.
  unfold acoustic_map, last_segment_at.
  assert (G : forall m,
             dict_get ts
               (fold_left (fun m seg =>
                             dict_set (seg_timestamp seg) (acoustic_arousal seg) m)
                          acoustic_segments m)
             = match find (fun seg => String.eqb ts (seg_timestamp seg))
                          (rev acoustic_segments) with
               | Some seg => Some (acoustic_arousal seg)
               | None => dict_get ts m
               end).
  { induction acoustic_segments as [|s l IH]; intros m; cbn [fold_left rev];
      [reflexivity|].
    rewrite IH, find_app. cbn [find].
    destruct (find _ (rev l)); [reflexivity|].
    rewrite dict_get_set. now destruct (String.eqb ts (seg_timestamp s)). }
  rewrite G. now destruct (find _ (rev acoustic_segments)).
Qed.

Lemma merge_point_spec (acoustic_segments : list segment) (p p' : dict) :
  merge_point (acoustic_map acoustic_segments) p = inr p' ->
  (needs_arousal p = false -> p' = p)
  /\ (needs_arousal p = true ->
      p' = dict_set "acoustic_arousal"
             (JStr (merged_arousal acoustic_segments p)) p).
Proof.
  unfold merge_point. destruct (needs_arousal p).
  - unfold lookup_arousal, merged_arousal.
    destruct (dict_get_default "timestamp" p (JStr "")); cbn [hashable];
      try discriminate; intros [= <-]; (split; [discriminate|]); intros _;
      try reflexivity.
    unfold dict_get_default at 1. rewrite acoustic_map_lookup.
    now destruct (last_segment_at s acoustic_segments).
  - intros [= <-]. split; [reflexivity | discriminate].
Qed.

(** X16. The merge of the acoustic arousal leaves the graph as it is when
    there is no segment; otherwise it keeps the number and order of the
    points, leaves every point with a non-empty arousal as it is, and gives
    every other point the arousal of the last segment with exactly its time
    stamp, or "Low" when no segment has it. *)
Theorem merge_acoustic_arousal_fills (acoustic_segments : list segment)
    (emotional_graph graph' : list dict) :
  merge_acoustic_arousal acoustic_segments emotional_graph = inr graph' ->
  (acoustic_segments = [] -> graph' = emotional_graph)
  /\ Forall2 (fun p p' =>
                (needs_arousal p = false -> p' = p)
                /\ (needs_arousal p = true -> acoustic_segments <> [] ->
                    p' = dict_set "acoustic_arousal"
                           (JStr (merged_arousal acoustic_segments p)) p))
             emotional_graph graph'.
Proof.
  unfold merge_acoustic_arousal.
  destruct acoustic_segments as [|s segs].
  - intros [= <-]. split; [reflexivity|].
    induction emotional_graph; constructor; [|assumption].
    split; [reflexivity | intros _ N; now elim N].
  - destruct emotional_graph as [|p0 g].
    + intros [= <-]. split; [discriminate | constructor].
    + intros H. split; [discriminate|].
      apply traverse_Forall2 in H.
      induction H as [|p p' l l' E _ IH]; constructor; [|exact IH].
      destruct (merge_point_spec _ _ _ E) as [A B]. split; [exact A|].
      intros Hn _. now apply B.
Qed.

Lemma merge_acoustic_arousal_fills_witness :
  merge_acoustic_arousal
    [mk_segment "00:00" 0.7 220 0.05 "High"]
    [[("timestamp", JStr "00:00"); ("tone", JStr "Angry")];
     [("timestamp", JStr "00:30"); ("tone", JStr "Neutral")]]
  = inr [[("timestamp", JStr "00:00"); ("tone", JStr "Angry");
          ("acoustic_arousal", JStr "High")];
         [("timestamp", JStr "00:30"); ("tone", JStr "Neutral");
          ("acoustic_arousal", JStr "Low")]].
Proof.
  destruct (merge_acoustic_arousal_fills
              [mk_segment "00:00" 0.7 220 0.05 "High"]
              [[("timestamp", JStr "00:00"); ("tone", JStr "Angry")];
               [("timestamp", JStr "00:30"); ("tone", JStr "Neutral")]]
              _ eq_refl) as [_ H].
  reflexivity.
Defined.

(** ** Texts and character lists *)

Lemma list_ascii_of_string_app (a b : string) :
  list_ascii_of_string (a ++ b)
  = (list_ascii_of_string a ++ list_ascii_of_string b)%list.
Proof. induction a as [|c a IH]; cbn; [reflexivity | now rewrite IH]. Qed.

Lemma lstrip_chars_app_space (l : list ascii) (c : ascii) :
  is_space c = true ->
  lstrip_chars (l ++ [c])
  = match lstrip_chars l with
    | [] => []
    | x :: r => (x :: r ++ [c])%list
    end.
Proof.
  intros Hc. induction l as [|a l IH]; cbn.
  - now rewrite Hc.
  - destruct (is_space a); [exact IH | reflexivity].
Qed.

Lemma strip_app_newline (body : string) :
  strip (string_of_list_ascii (list_ascii_of_string body ++ [newline]))
  = strip body.
Proof.
  unfold strip. rewrite list_ascii_of_string_of_list_ascii.
  rewrite lstrip_chars_app_space by reflexivity.
  destruct (lstrip_chars (list_ascii_of_string body)) as [|x r]; [reflexivity|].
  change (x :: r ++ [newline])%list with ((x :: r) ++ [newline])%list.
  rewrite rev_app_distr. cbn [rev app lstrip_chars].
  change (is_space newline) with true. reflexivity.
Qed.

Lemma drop_lower_letters_app (lang rest : list ascii) :
  forallb is_lower_letter lang = true ->
  drop_lower_letters (lang ++ newline :: rest) = (newline :: rest).
Proof.
  induction lang as [|c lang IH]; cbn; [reflexivity|].
  intros H. apply andb_true_iff in H. destruct H as [-> H]. now apply IH.
Qed.

Lemma lstrip_chars_nonspace (c : ascii) (l : list ascii) :
  is_space c = false -> lstrip_chars (c :: l) = c :: l.
Proof. intros H. cbn. now rewrite H. Qed.

Lemma strip_chars_keep (a z : ascii) (m : list ascii) :
  is_space a = false -> is_space z = false ->
  rev (lstrip_chars (rev (lstrip_chars (a :: m ++ [z])))) = (a :: m ++ [z])%list.
Proof.
  intros Ha Hz. rewrite lstrip_chars_nonspace by exact Ha.
  change (a :: m ++ [z])%list with ((a :: m) ++ [z])%list.
  rewrite rev_app_distr. cbn [rev app].
  rewrite lstrip_chars_nonspace by exact Hz.
  cbn [rev]. rewrite rev_app_distr, rev_involutive. reflexivity.
Qed.

Lemma fenced_chars (lang body : string) :
  list_ascii_of_string (fenced lang body)
  = (ticks ++ list_ascii_of_string lang ++ newline
       :: list_ascii_of_string body ++ newline :: ticks)%list.
Proof.
  unfold fenced, fence, ticks.
  repeat first [ rewrite list_ascii_of_string_app
               | progress cbn [list_ascii_of_string app append] ].
  reflexivity.
Qed.

Section ExtractJson.

Variable json_loads : string -> exn + json.

(** X17. A reply wrapped in a markdown fence with a lower-case language tag
    is parsed as its body: the fences, the tag and the surrounding white
    space are removed before [json.loads] sees the text. *)
Theorem extract_json_fenced (lang body : string) :
  forallb is_lower_letter (list_ascii_of_string lang) = true ->
  _extract_json json_loads (fenced lang body) = json_loads (strip body).
Proof.
  intros Hl. unfold _extract_json.
  set (B := list_ascii_of_string body).
  set (L := list_ascii_of_string lang).
  assert (Hstrip : strip (fenced lang body) = fenced lang body).
  { unfold strip. rewrite fenced_chars. fold B L. unfold ticks.
    cbn [app].
    replace (backtick :: backtick :: backtick :: L ++ newline :: B
               ++ [newline; backtick; backtick; backtick])%list
      with (backtick :: (backtick :: backtick :: L ++ newline :: B
               ++ [newline; backtick; backtick]) ++ [backtick])%list.
    - rewrite strip_chars_keep by reflexivity.
      replace (backtick :: (backtick :: backtick :: L ++ newline :: B
               ++ [newline; backtick; backtick]) ++ [backtick])%list
        with (list_ascii_of_string (fenced lang body)).
      + apply string_of_list_ascii_of_string.
      + rewrite fenced_chars. fold B L. unfold ticks. cbn [app].
        rewrite <- !app_assoc. cbn [app]. rewrite <- !app_assoc. reflexivity.
    - cbn [app]. rewrite <- !app_assoc. cbn [app].
      rewrite <- !app_assoc. reflexivity. }
  rewrite Hstrip.
  replace (String.prefix fence (fenced lang body)) with true
    by (symmetry; apply prefix_spec; unfold fenced; eauto).
  assert (Hopen : sub_opening_fence (fenced lang body)
                  = string_of_list_ascii (B ++ newline :: ticks)).
  { unfold sub_opening_fence. rewrite fenced_chars. fold B L.
    unfold ticks at 1. cbn [app]. rewrite !Ascii.eqb_refl. cbn [andb].
    rewrite drop_lower_letters_app by exact Hl.
    now rewrite Ascii.eqb_refl. }
  rewrite Hopen.
  assert (Hclose : sub_closing_fence
                     (string_of_list_ascii (B ++ newline :: ticks))
                   = string_of_list_ascii (B ++ [newline])).
  { unfold sub_closing_fence. rewrite list_ascii_of_string_of_list_ascii.
    rewrite rev_app_distr. unfold ticks. cbn [rev app].
    rewrite !Ascii.eqb_refl. cbn [andb].
    cbn [rev]. now rewrite rev_involutive. }
  rewrite Hclose. unfold B. now rewrite strip_app_newline.
Qed.

End ExtractJson.

Lemma extract_json_fenced_witness :
  _extract_json (fun text => inr (JStr text)) (fenced "json" "{}")
  = inr (JStr "{}").
Proof.
  exact (extract_json_fenced (fun text => inr (JStr text)) "json" "{}" eq_refl).
Defined.

(** ** Replies the orchestrator accepts *)

Section AcceptedReplies.

Variable generate_content : generation_call -> exn + string.
Variable json_loads : string -> exn + json.

(** X18. An attempt succeeds exactly when the call returns a text that parses
    to a JSON object whose "policy_violations", if present, is a text, a
    list or an object; the attempt then yields that object.  A reply that
    parses to anything but an object fails with the attribute error of
    [result.get], which is no JSON decoding error and so leads to the
    retry. *)
Theorem attempt_accepts_objects (call : generation_call) :
  (forall d, attempt generate_content json_loads call = inr d <->
     exists text,
       generate_content call = inr text
       /\ _extract_json json_loads text = inr (JObj d)
       /\ sized (dict_get_default "policy_violations" d (JArr [])) = true)
  /\ (forall text v,
        generate_content call = inr text ->
        _extract_json json_loads text = inr v ->
        is_object v = false ->
        attempt generate_content json_loads call = inl (no_attribute v "get")
        /\ is_JSONDecodeError (no_attribute v "get") = false).
Proof.
  unfold attempt. split.
  - intros d. split.
    + destruct (generate_content call) as [e|text] eqn:G; [discriminate|].
      destruct (_extract_json json_loads text) as [e|v] eqn:X; [discriminate|].
      unfold print_done. destruct v; cbn [as_dict]; try discriminate.
      destruct (py_len _) as [e|n] eqn:E; [discriminate|].
      intros [= <-]. exists text. split; [reflexivity|]. split; [exact X|].
      destruct (dict_get_default "policy_violations" fields (JArr []));
        cbn in E; try discriminate; reflexivity.
    + intros (text & -> & -> & Hs). unfold print_done. cbn [as_dict].
      destruct (dict_get_default "policy_violations" d (JArr []));
        try discriminate; reflexivity.
  - intros text v -> -> Hv. unfold print_done.
    destruct v; try discriminate; split; reflexivity.
Qed.

End AcceptedReplies.

(** A run: both models answer with a JSON list; the orchestrator retries
    and then falls back, the note being the attribute error. *)
Lemma attempt_accepts_objects_witness :
  attempt (service_says "[]") loads_empty_list (primary_call "PROMPT")
  = inl (mk_exn AttributeError "'list' object has no attribute 'get'")
  /\ snd (run_compliance_analysis (service_says "[]") loads_empty_list "PROMPT")
     = [primary_call "PROMPT"; secondary_call "PROMPT"].
Proof.
  split; [|reflexivity].
  exact (proj1 (proj2 (attempt_accepts_objects (service_says "[]")
                         loads_empty_list (primary_call "PROMPT"))
                  "[]" (JArr []) eq_refl eq_refl eq_refl)).
Defined.

(** ** Retrieval: degraded runs and queries *)

Lemma comprehension_pure (cond : json -> exn + bool) (c : json -> bool)
    (turns : list json) :
  (forall t, In t turns -> cond t = inr (c t)) ->
  (forall t, c t = true -> TranscriptRetrieval.message_value t = message_in t) ->
  TranscriptRetrieval.comprehension cond turns
  = inr (map message_in (filter c turns)).
Proof.
  intros H M. induction turns as [|t l IH]; [reflexivity|].
  cbn [TranscriptRetrieval.comprehension filter].
  rewrite (H t (or_introl eq_refl)), IH by (intros; apply H; now right).
  destruct (c t) eqn:C; [|reflexivity]. cbn [map]. now rewrite (M t C).
Qed.

Lemma message_value_in (t : json) :
  TranscriptRetrieval.message_value t = message_in t.
Proof.
  destruct t as [| | | | | |d]; reflexivity.
Qed.

Lemma comprehension_fails_at (cond : json -> exn + bool)
    (before after : list json) (v : json) (e : exn) :
  (forall t, In t before -> exists b, cond t = inr b) ->
  cond v = inl e ->
  TranscriptRetrieval.comprehension cond (before ++ v :: after) = inl e.
Proof.
  intros Hb Hv. induction before as [|t l IH];
    cbn [app TranscriptRetrieval.comprehension].
  - now rewrite Hv.
  - destruct (Hb t (or_introl eq_refl)) as [b ->].
    rewrite IH; [reflexivity|]. intros; apply Hb; now right.
Qed.

Lemma comprehension_returns (cond : json -> exn + bool) (turns : list json)
    (messages : list json) :
  TranscriptRetrieval.comprehension cond turns = inr messages ->
  forall t, In t turns -> exists b, cond t = inr b.
Proof.
  revert messages. induction turns as [|t l IH]; intros messages H u Hu;
    [destruct Hu|].
  cbn [TranscriptRetrieval.comprehension] in H.
  destruct (cond t) as [e|b] eqn:E; [discriminate|].
  destruct (TranscriptRetrieval.comprehension cond l) as [e|ms] eqn:R;
    [discriminate|].
  destruct Hu as [<-|Hu]; [eauto | exact (IH ms eq_refl u Hu)].
Qed.

Lemma is_agent_message_speaker (t : json) :
  turn_with_speaker t = true ->
  TranscriptRetrieval.is_agent_message t
  = inr (spoken_by_agent t && with_message t)
  /\ TranscriptRetrieval.has_message t = inr (with_message t).
Proof.
  destruct t as [| | | | | |d]; try discriminate.
  cbn [turn_with_speaker spoken_by_agent with_message].
  unfold TranscriptRetrieval.is_agent_message, TranscriptRetrieval.has_message,
    dict_get_default.
  cbn [as_dict].
  destruct (dict_get "speaker" d) as [[| | | |sp| |]|]; try discriminate;
    intros _; destruct (dict_get "message" d); split; reflexivity.
Qed.

Lemma is_agent_message_fails (t : json) :
  turn_with_speaker t = false ->
  TranscriptRetrieval.is_agent_message t
  = match t with
    | JObj d =>
        inl (no_attribute (dict_get_default "speaker" d (JStr "")) "lower")
    | _ => inl (no_attribute t "get")
    end.
Proof.
  destruct t as [| | | | | |d]; try reflexivity.
  cbn [turn_with_speaker].
  unfold TranscriptRetrieval.is_agent_message, dict_get_default.
  cbn [as_dict].
  destruct (dict_get "speaker" d) as [[| | | |sp| |]|];
    try discriminate; reflexivity.
Qed.

(** X20. On a list of turns, the messages [retrieve_relevant_clauses]
    queries with are collected exactly when every turn is an object whose
    speaker is absent or a text.  They are then the messages of the agent
    turns that have one, in order, or, when no agent turn has one, the
    messages of all turns that have one; no query is an absent, null or
    empty message.  Otherwise the collection raises at the first offending
    turn: the attribute error of [t.get] for a turn that is no object, that
    of [speaker.lower] for a speaker that is no text, null included. *)
Theorem agent_messages_queried (turns : list json) :
  ((exists messages,
      TranscriptRetrieval.agent_messages (JArr turns) = inr messages)
   <-> forallb turn_with_speaker turns = true)
  /\ (forall messages,
        TranscriptRetrieval.agent_messages (JArr turns) = inr messages ->
        messages
        = map message_in
            (match filter (fun t => spoken_by_agent t && with_message t)
                          turns with
             | [] => filter with_message turns
             | agent_turns => agent_turns
             end)
        /\ Forall (fun m => truthy m = true) messages)
  /\ (forall before v after,
        turns = (before ++ v :: after)%list ->
        forallb turn_with_speaker before = true ->
        turn_with_speaker v = false ->
        (is_object v = false ->
         TranscriptRetrieval.agent_messages (JArr turns)
         = inl (no_attribute v "get"))
        /\ (forall d x, v = JObj d -> dict_get "speaker" d = Some x ->
            TranscriptRetrieval.agent_messages (JArr turns)
            = inl (no_attribute x "lower"))).
Proof.
  assert (P : forall l, forallb turn_with_speaker l = true ->
              (forall t, In t l ->
                 TranscriptRetrieval.is_agent_message t
                 = inr (spoken_by_agent t && with_message t))
              /\ (forall t, In t l ->
                    TranscriptRetrieval.has_message t = inr (with_message t))).
  { intros l Hl. rewrite forallb_forall in Hl.
    split; intros t Ht; apply is_agent_message_speaker, Hl, Ht. }
  assert (R : forall messages,
            TranscriptRetrieval.comprehension
              TranscriptRetrieval.is_agent_message turns = inr messages ->
            forallb turn_with_speaker turns = true).
  { intros messages H. apply forallb_forall. intros t Ht.
    destruct (comprehension_returns _ _ _ H t Ht) as [b Hb].
    destruct (turn_with_speaker t) eqn:T; [reflexivity|].
    rewrite (is_agent_message_fails t T) in Hb.
    destruct t; discriminate. }
  assert (E0 : forall messages,
             TranscriptRetrieval.agent_messages (JArr turns) = inr messages ->
             forallb turn_with_speaker turns = true).
  { intros messages H. unfold TranscriptRetrieval.agent_messages in H.
    cbn [py_iter] in H.
    destruct (TranscriptRetrieval.comprehension
                TranscriptRetrieval.is_agent_message turns)
      as [e|ms] eqn:E; [discriminate|]. exact (R ms eq_refl). }
  assert (G : forallb turn_with_speaker turns = true ->
            TranscriptRetrieval.agent_messages (JArr turns)
            = inr (map message_in
                     (match filter (fun t => spoken_by_agent t && with_message t)
                                   turns with
                      | [] => filter with_message turns
                      | agent_turns => agent_turns
                      end))).
  { intros Hl. destruct (P turns Hl) as [P1 P2].
    unfold TranscriptRetrieval.agent_messages. cbn [py_iter].
    rewrite (comprehension_pure _ _ turns P1)
      by (intros; apply message_value_in).
    rewrite (comprehension_pure _ _ turns P2)
      by (intros; apply message_value_in).
    destruct (filter (fun t => spoken_by_agent t && with_message t) turns);
      reflexivity. }
  split; [|split].
  - split.
    + intros [messages H]. exact (E0 messages H).
    + intros Hl. rewrite (G Hl). eauto.
  - intros messages H.
    assert (Hl : forallb turn_with_speaker turns = true)
      by exact (E0 messages H).
    rewrite (G Hl) in H. injection H as <-. split; [reflexivity|].
    apply Forall_forall. intros m Hm. apply in_map_iff in Hm.
    destruct Hm as (t & <- & Ht).
    assert (W : with_message t = true).
    { destruct (filter (fun t => spoken_by_agent t && with_message t) turns)
        as [|a l] eqn:F.
      - now apply filter_In in Ht.
      - rewrite <- F in Ht. apply filter_In in Ht.
        destruct Ht as [_ Ht]. now apply andb_true_iff in Ht. }
    destruct t as [| | | | | |d]; try discriminate.
    cbn [with_message message_in] in *.
    now destruct (dict_get "message" d).
  - intros before v after -> Hb Hv.
    assert (B : forall t, In t before ->
                exists b, TranscriptRetrieval.is_agent_message t = inr b).
    { intros t Ht. destruct (P before Hb) as [P1 _]. rewrite (P1 t Ht). eauto. }
    unfold TranscriptRetrieval.agent_messages. cbn [py_iter].
    split.
    + intros Ho.
      rewrite (comprehension_fails_at _ before after v (no_attribute v "get") B);
        [reflexivity|].
      destruct v; try discriminate; reflexivity.
    + intros d x -> Hx.
      rewrite (comprehension_fails_at _ before after (JObj d)
                 (no_attribute x "lower") B); [reflexivity|].
      rewrite (is_agent_message_fails _ Hv). unfold dict_get_default.
      now rewrite Hx.
Qed.

(** A run of the theorem: the customer turn has no message, and the one
    query is the message of the agent. *)
Lemma agent_messages_queried_witness :
  TranscriptRetrieval.agent_messages (JArr two_turns)
  = inr [JStr "You must pay now or we call the police"].
Proof.
  exact (f_equal (fun messages => @inr exn (list json) messages)
           (proj1 (proj1 (proj2 (agent_messages_queried two_turns))
                     [JStr "You must pay now or we call the police"]
                     eq_refl))).
Defined.

Section RetrievalEdges.

Variable store : Type.
Variable from_documents : list Document -> exn + store.
Variable invoke : store -> nat -> json -> option (list Document).
Variable search_clause_id : string -> option string.
Variable search_rule_name : string -> option string.

Lemma queries_all_raise (rbi : store) (client_retriever : option store)
    (messages : list json) (st : retrieval_state) :
  (forall st k message, invoke st k message = None) ->
  fold_left (TranscriptRetrieval.query_message store invoke search_clause_id
               search_rule_name rbi client_retriever) messages st
  = st.
Proof.
  intros H. induction messages as [|m ms IH]; cbn [fold_left]; [reflexivity|].
  unfold TranscriptRetrieval.query_message at 2. rewrite H.
  destruct client_retriever; [rewrite H|]; exact IH.
Qed.

(** X19. [retrieve_relevant_clauses] degrades to the empty clause list in
    two cases: when the policy store was never initialised, whatever the
    transcript and the configuration are, and when the client index was
    built, the messages were collected and every query of the retrievers
    raises.  It does not degrade on a transcript it cannot read or on a
    client index it cannot build: the exception of the collection, raised
    outside every [try], and that of the index come out of the function. *)
Theorem retrieval_degrades_to_empty (transcript_threads : json)
    (cfg : option client_config) :
  let client_index :=
    match cfg with
    | Some c => TranscriptRetrieval.load_client_rules store from_documents c
    | None => inr None
    end in
  TranscriptRetrieval.retrieve_relevant_clauses store from_documents invoke
    search_clause_id search_rule_name None transcript_threads cfg = inr []
  /\ (forall rbi client_retriever messages,
        client_index = inr client_retriever ->
        TranscriptRetrieval.agent_messages transcript_threads = inr messages ->
        (forall st k message, invoke st k message = None) ->
        TranscriptRetrieval.retrieve_relevant_clauses store from_documents
          invoke search_clause_id search_rule_name (Some rbi)
          transcript_threads cfg = inr [])
  /\ (forall rbi client_retriever e,
        client_index = inr client_retriever ->
        TranscriptRetrieval.agent_messages transcript_threads = inl e ->
        TranscriptRetrieval.retrieve_relevant_clauses store from_documents
          invoke search_clause_id search_rule_name (Some rbi)
          transcript_threads cfg = inl e)
  /\ (forall rbi e,
        client_index = inl e ->
        TranscriptRetrieval.retrieve_relevant_clauses store from_documents
          invoke search_clause_id search_rule_name (Some rbi)
          transcript_threads cfg = inl e).
Proof.
  cbv zeta. unfold TranscriptRetrieval.retrieve_relevant_clauses.
  split; [reflexivity|]. split; [|split].
  - intros rbi cr messages -> -> Hfail. now rewrite queries_all_raise.
  - intros rbi cr e -> ->. reflexivity.
  - intros rbi e ->. reflexivity.
Qed.

End RetrievalEdges.

(** A run of the theorem: the store is initialised and no client
    configuration is given; the second turn has a null speaker, and the
    function raises instead of returning an empty list. *)
Lemma retrieval_degrades_to_empty_witness :
  TranscriptRetrieval.retrieve_relevant_clauses unit unit_store_built
    queries_raise no_match no_match (Some tt) (JArr null_speaker_turns) None
  = inl (mk_exn AttributeError "'NoneType' object has no attribute 'lower'").
Proof.
  exact (proj1 (proj2 (proj2 (retrieval_degrades_to_empty unit unit_store_built
                                queries_raise no_match no_match
                                (JArr null_speaker_turns) None)))
           tt None _ eq_refl eq_refl).
Defined.

(** ** The merge: nothing lost, nothing invented *)

Lemma first_by_id_In (seen : list string) (cs : list clause) (c : clause) :
  In c (first_by_id seen cs) -> In c cs /\ ~ In (clause_id c) seen.
Proof.
  intros H.
  assert (K : In (clause_id c, c)
                 (first_by_key seen (map (fun c => (clause_id c, c)) cs))).
  { rewrite <- first_by_id_keys. apply in_map_iff. now exists c. }
  apply first_by_key_In in K. destruct K as [K1 K2]. split; [|exact K2].
  apply in_map_iff in K1. destruct K1 as [c' [[= _ <-] Hc']]. exact Hc'.
Qed.

Lemma first_by_id_length (seen : list string) (cs : list clause) :
  (List.length (first_by_id seen cs) <= List.length cs)%nat.
Proof.
  revert seen. induction cs as [|c l IH]; intros seen; cbn; [lia|].
  destruct (mem (clause_id c) seen); cbn.
  - specialize (IH seen). lia.
  - specialize (IH (seen ++ [clause_id c])%list). lia.
Qed.

(** X21. The merge keeps the corpus as it is at the front; every clause it
    adds is a retrieved clause whose id the corpus lacks; and the id of
    every retrieved clause occurs in the merged list, so no retrieved id is
    lost. *)
Theorem merge_clauses_complete (all_clauses rag_clauses : list clause) :
  firstn (List.length all_clauses) (merge_clauses all_clauses rag_clauses)
  = all_clauses
  /\ (forall c, In c (skipn (List.length all_clauses)
                            (merge_clauses all_clauses rag_clauses)) ->
        In c rag_clauses /\ ~ In (clause_id c) (clause_ids all_clauses))
  /\ (forall c, In c rag_clauses ->
        In (clause_id c)
           (clause_ids (merge_clauses all_clauses rag_clauses)))
  /\ (List.length (merge_clauses all_clauses rag_clauses)
      <= List.length all_clauses + List.length rag_clauses)%nat.
Proof.
  rewrite merge_clauses_first_by_id.
  rewrite firstn_app, firstn_all, Nat.sub_diag, firstn_0, app_nil_r.
  rewrite skipn_app, skipn_all, Nat.sub_diag, skipn_0. cbn [app].
  split; [reflexivity|]. split; [intros c; apply first_by_id_In|]. split.
  - intros c Hc.
    pose proof (first_by_key_covers (map (fun c => (clause_id c, c)) rag_clauses)
                  (clause_ids all_clauses) (clause_id c, c)) as K.
    cbn [fst] in K. unfold clause_ids at 1. rewrite map_app.
    rewrite <- first_by_id_keys, map_map in K. cbn [fst] in K.
    apply K. apply in_map_iff. now exists c.
  - rewrite length_app. apply Nat.add_le_mono_l, first_by_id_length.
Qed.

(** ** Extracted rule names *)

Lemma substring_length_le (n m : nat) (s : string) :
  (String.length (String.substring n m s) <= m)%nat.
Proof.
  revert n m. induction s as [|c s IH]; intros [|n] [|m]; cbn; try lia.
  - specialize (IH 0%nat m). lia.
  - apply IH.
  - apply IH.
Qed.

(** X22. The rule name extracted from a policy text never exceeds 80
    characters: it is the first 80 characters of the stripped match, or the
    fixed name "Policy Clause" when the pattern does not match. *)
Theorem extract_rule_name_bounded (search_rule_name : string -> option string)
    (text : string) :
  (String.length (_extract_rule_name search_rule_name text) <= 80)%nat
  /\ (search_rule_name text = None ->
      _extract_rule_name search_rule_name text = "Policy Clause").
Proof.
  unfold _extract_rule_name. destruct (search_rule_name text).
  - split; [apply substring_length_le | discriminate].
  - split; [cbn; lia | reflexivity].
Qed.

(** ** The index and the corpus *)

Section IndexAndCorpus.

Variable clause_matches : string -> list (string * string * string).
Variable search_clause_id : string -> option string.
Variable search_rule_name : string -> option string.

Lemma parse_clause_documents_indexed (files : list (string * string)) :
  _parse_clause_documents clause_matches files
  = map indexed_clause (get_all_policy_clauses clause_matches files).
Proof.
  unfold _parse_clause_documents, get_all_policy_clauses.
  induction files as [|[name content] files IH]; cbn [flat_map map];
    [reflexivity|].
  rewrite map_app, IH. f_equal. rewrite map_map.
  apply map_ext. intros [[g1 g2] g3]. reflexivity.
Qed.

Lemma rbi_candidate_indexed (c : clause) :
  clause_id c <> "" ->
  fst (rbi_candidate search_clause_id search_rule_name (indexed_clause c))
  = clause_id c.
Proof.
  intros H. unfold rbi_candidate, indexed_clause. cbn.
  destruct (String.eqb_spec (clause_id c) ""); [contradiction | reflexivity].
Qed.

Lemma first_by_id_all_seen (seen : list string) (cs : list clause) :
  (forall c, In c cs -> In (clause_id c) seen) -> first_by_id seen cs = [].
Proof.
  induction cs as [|c l IH]; intros H; cbn; [reflexivity|].
  replace (mem (clause_id c) seen) with true
    by (symmetry; apply mem_true_In, H; now left).
  apply IH. intros; apply H; now right.
Qed.

(** X23. The index and the corpus are parsed alike: the documents of the
    index are, one for one and in order, the clauses of the corpus.  So the
    hits of the primary index add nothing to the merged clause list: when
    every retrieved clause is the clause made from an indexed document with
    a non-empty clause id, merging the retrieved clauses into the corpus
    returns the corpus. *)
Theorem indexed_hits_add_nothing (files : list (string * string))
    (rag_clauses : list clause) :
  (forall c, In c rag_clauses ->
     exists doc,
       In doc (_parse_clause_documents clause_matches files)
       /\ dict_get "clause_id" (metadata doc) <> Some ""
       /\ c = snd (rbi_candidate search_clause_id search_rule_name doc)) ->
  _parse_clause_documents clause_matches files
  = map indexed_clause (get_all_policy_clauses clause_matches files)
  /\ merge_clauses (get_all_policy_clauses clause_matches files) rag_clauses
     = get_all_policy_clauses clause_matches files.
Proof.
  intros H. split; [apply parse_clause_documents_indexed|].
  rewrite merge_clauses_first_by_id, first_by_id_all_seen;
    [apply app_nil_r|].
  intros c Hc. destruct (H c Hc) as (doc & Hin & Hne & ->).
  rewrite parse_clause_documents_indexed in Hin.
  apply in_map_iff in Hin. destruct Hin as [c0 [<- Hc0]].
  assert (Hid : clause_id c0 <> "").
  { intros E. apply Hne. cbn. now rewrite E. }
  unfold clause_ids. apply in_map_iff. exists c0. split; [|exact Hc0].
  pose proof (rbi_candidate_indexed c0 Hid) as K.
  unfold rbi_candidate in *. cbn [fst snd clause_id] in *. now rewrite K.
Qed.

End IndexAndCorpus.

Lemma indexed_hits_add_nothing_witness :
  merge_clauses
    (get_all_policy_clauses one_clause_per_file two_policy_files)
    (map (fun doc => snd (rbi_candidate no_match no_match doc))
         (_parse_clause_documents one_clause_per_file two_policy_files))
  = get_all_policy_clauses one_clause_per_file two_policy_files.
Proof.
  refine (proj2 (indexed_hits_add_nothing one_clause_per_file no_match no_match
                   two_policy_files _ _)).
  intros c Hc. apply in_map_iff in Hc. destruct Hc as (doc & <- & Hdoc).
  exists doc. split; [exact Hdoc|]. split; [|reflexivity].
  destruct Hdoc as [<-|[<-|[]]]; discriminate.
Defined.

(** ** The clause section of the prompt *)

Lemma length_append (a b : string) :
  String.length (a ++ b) = (String.length a + String.length b)%nat.
Proof. induction a as [|c a IH]; cbn; [reflexivity | now rewrite IH]. Qed.

Lemma join_fold_length (sep : string) (rest : list string) (acc : string) :
  String.length (fold_left (fun acc line => acc ++ sep ++ line) rest acc)
  = (String.length acc
     + list_sum (map (fun line => String.length sep + String.length line) rest))%nat.
Proof.
  unfold list_sum. revert acc.
  induction rest as [|l rest IH]; intros acc; cbn [fold_left map fold_right].
  - lia.
  - rewrite IH, !length_append. lia.
Qed.

Lemma substring_length_0 (m : nat) (s : string) :
  String.length (String.substring 0 m s) = Nat.min m (String.length s).
Proof.
  revert m. induction s as [|c s IH]; intros [|m]; cbn; try reflexivity.
  now rewrite IH.
Qed.

Lemma format_clause_length_exact (c : clause) :
  String.length (format_clause c)
  = (String.length (clause_id c) + String.length (rule_name c) + 6
     + Nat.min 200 (String.length (description c)))%nat.
Proof.
  unfold format_clause. rewrite !length_append, substring_length_0.
  change (String.length LF) with 1%nat. cbn [String.length]. lia.
Qed.

(** X24. The clause section of the prompt is never empty.  Without clauses
    it is the fixed sentence.  With clauses its length is exactly, summed
    over the clauses, the length of the id, of the rule name and of the
    description cut to 200 characters plus seven characters of layout, less
    the one newline the last clause does not get; so it stays below the
    sum of id, name and 207 per clause, however long the descriptions
    are. *)
Theorem format_clauses_length (clauses : list clause) :
  _format_clauses clauses <> ""
  /\ (clauses = [] ->
      _format_clauses clauses
      = "No specific clauses retrieved. Apply general RBI recovery guidelines.")
  /\ (clauses <> [] ->
      (String.length (_format_clauses clauses) + 1
       = list_sum (map (fun c => String.length (clause_id c)
                                 + String.length (rule_name c) + 7
                                 + Nat.min 200 (String.length (description c)))
                       clauses))%nat
      /\ (String.length (_format_clauses clauses)
          < list_sum (map (fun c => String.length (clause_id c)
                                    + String.length (rule_name c) + 207)
                          clauses))%nat).
Proof.
  destruct clauses as [|c cs].
  - split; [discriminate|]. split; [reflexivity | intros H; now elim H].
  - assert (L : (String.length (_format_clauses (c :: cs)) + 1
                 = list_sum (map (fun c => String.length (clause_id c)
                                    + String.length (rule_name c) + 7
                                    + Nat.min 200 (String.length (description c)))
                                 (c :: cs)))%nat).
    { unfold _format_clauses, join. cbn [map]. rewrite join_fold_length.
      unfold list_sum. cbn [map fold_right].
      rewrite format_clause_length_exact.
      assert (fold_right Nat.add 0%nat
                (map (fun line => String.length LF + String.length line)
                     (map format_clause cs))
              = fold_right Nat.add 0%nat
                   (map (fun c => String.length (clause_id c)
                                  + String.length (rule_name c) + 7
                                  + Nat.min 200 (String.length (description c)))
                        cs))%nat as ->.
      { clear. induction cs as [|c' cs IH]; cbn [map fold_right]; [reflexivity|].
        rewrite IH, format_clause_length_exact.
        change (String.length LF) with 1%nat. lia. }
      lia. }
    assert (B : (list_sum (map (fun c => String.length (clause_id c)
                                  + String.length (rule_name c) + 7
                                  + Nat.min 200 (String.length (description c)))
                               (c :: cs))
                 <= list_sum (map (fun c => String.length (clause_id c)
                                     + String.length (rule_name c) + 207)
                                  (c :: cs)))%nat).
    { unfold list_sum. generalize (c :: cs). clear.
      induction l as [|c' l IH]; cbn [map fold_right]; lia. }
    split; [|split; [discriminate | intros _; split; [exact L | lia]]].
    intros E. rewrite E in L. cbn [String.length] in L.
    cbn [map] in L. unfold list_sum in L. cbn [fold_right] in L. lia.
Qed.

(** ** Validation of a client configuration *)

Lemma type_issue_nil (config : dict) (key : string) (wanted : json -> bool)
    (issue : string) :
  type_issue config key wanted issue = [] <-> key_ok config key wanted = true.
Proof.
  unfold type_issue, key_ok. destruct (dict_get key config) as [v|];
    [destruct (wanted v)|]; split; intros; try reflexivity; discriminate.
Qed.

Lemma rule_issues_nil (rules : list json) (i : nat) :
  rule_issues_from i rules = [] <-> forallb rule_ok rules = true.
Proof.
  revert i. induction rules as [|r rules IH]; intros i; cbn; [tauto|].
  rewrite andb_true_iff, <- (IH (S i)). split.
  - intros H. apply app_eq_nil in H. destruct H as [H1 H2]. split; [|exact H2].
    destruct r; cbn in *; try discriminate.
    destruct (has_key "rule_id" fields), (has_key "rule_name" fields);
      cbn in *; try discriminate; reflexivity.
  - intros [H1 H2]. rewrite H2, app_nil_r.
    destruct r; cbn in *; try discriminate.
    destruct (has_key "rule_id" fields), (has_key "rule_name" fields);
      cbn in *; try discriminate; reflexivity.
Qed.

Lemma rule_issues_length (rules : list json) (i : nat) :
  (List.length (rule_issues_from i rules) <= List.length rules)%nat.
Proof.
  revert i. induction rules as [|r rules IH]; intros i; cbn; [lia|].
  rewrite length_app. specialize (IH (S i)).
  assert ((List.length (rule_issue i r) <= 1)%nat).
  { destruct r; cbn; try lia. destruct (_ || _); cbn; lia. }
  lia.
Qed.

(** X25. The validation is sound and complete for the four fields it reads:
    a configuration is reported valid exactly when business_domain, if
    present, is a text, monitored_products and risk_triggers, if present,
    are lists, and custom_rules, if present, is a list of objects that each
    have a rule_id and a rule_name; there is at most one issue per field and
    per custom rule. *)
Theorem validate_config_sound_complete (default config : dict) :
  (valid (validate_config default config) = true <-> config_ok config = true)
  /\ (valid (validate_config default config) = true
      <-> issues (validate_config default config) = [])
  /\ (List.length (issues (validate_config default config))
      <= 3 + match dict_get "custom_rules" config with
             | Some (JArr rules) => List.length rules
             | Some _ => 1
             | None => 0
             end)%nat.
Proof.
  unfold validate_config. cbn [valid issues].
  assert (V : Nat.eqb (List.length (config_issues config)) 0 = true
              <-> config_issues config = []).
  { rewrite Nat.eqb_eq. split; [apply length_zero_iff_nil | now intros ->]. }
  split; [|split; [exact V|]].
  - rewrite V. unfold config_issues, config_ok.
    rewrite !andb_true_iff.
    rewrite <- (type_issue_nil config "business_domain" is_str
                  "'business_domain' must be a string.").
    rewrite <- (type_issue_nil config "monitored_products" is_list
                  "'monitored_products' must be an array of strings.").
    rewrite <- (type_issue_nil config "risk_triggers" is_list
                  "'risk_triggers' must be an array of strings.").
    assert (C : custom_rules_issues config = []
                <-> match dict_get "custom_rules" config with
                    | None => true
                    | Some (JArr rules) => forallb rule_ok rules
                    | Some _ => false
                    end = true).
    { unfold custom_rules_issues.
      destruct (dict_get "custom_rules" config) as [[| | | | |rules|]|];
        try (split; [discriminate | discriminate]);
        [apply rule_issues_nil | tauto]. }
    rewrite <- C. split.
    + intros H. apply app_eq_nil in H. destruct H as [H1 H].
      apply app_eq_nil in H. destruct H as [H2 H].
      apply app_eq_nil in H. destruct H as [H3 H4]. auto.
    + intros [[[-> ->] ->] ->]. reflexivity.
  - unfold config_issues. rewrite !length_app.
    assert (T : forall key wanted issue,
               (List.length (type_issue config key wanted issue) <= 1)%nat).
    { intros. unfold type_issue. destruct (dict_get key config) as [v|];
        [destruct (wanted v)|]; cbn; lia. }
    pose proof (T "business_domain" is_str "'business_domain' must be a string.").
    pose proof (T "monitored_products" is_list
                  "'monitored_products' must be an array of strings.").
    pose proof (T "risk_triggers" is_list
                  "'risk_triggers' must be an array of strings.").
    assert ((List.length (custom_rules_issues config)
             <= match dict_get "custom_rules" config with
                | Some (JArr rules) => List.length rules
                | Some _ => 1
                | None => 0
                end)%nat).
    { unfold custom_rules_issues.
      destruct (dict_get "custom_rules" config) as [[| | | | |rules|]|];
        cbn; try lia. apply rule_issues_length. }
    lia.
Qed.

Lemma dict_merge_lookup (default config : dict) (k : string) :
  NoDup (map fst config) ->
  dict_get k (dict_merge default config)
  = match dict_get k config with
    | Some v => Some v
    | None => dict_get k default
    end.
Proof.
  unfold dict_merge. revert default.
  induction config as [|[k0 v0] config IH]; intros default Hnd;
    cbn [fold_left dict_get map fst snd]; [reflexivity|].
  inversion Hnd as [|? ? Hnotin Hnd']; subst.
  rewrite (IH _ Hnd').
  destruct (String.eqb_spec k k0) as [->|ne].
  - assert (dict_get k0 config = None) as ->.
    { clear -Hnotin. induction config as [|[k1 v1] c IH]; [reflexivity|].
      cbn in *. destruct (String.eqb_spec k0 k1) as [->|]; [tauto|].
      apply IH. tauto. }
    apply dict_get_set_same.
  - destruct (dict_get k config); [reflexivity|].
    now apply dict_get_set_other.
Qed.

(** X26. In the effective configuration every key of the client
    configuration has the client's value, and every other key of the
    default configuration keeps the default value. *)
Theorem effective_config_overrides (default config : dict) (k : string) :
  NoDup (map fst config) ->
  dict_get k (effective_config (validate_config default config))
  = match dict_get k config with
    | Some v => Some v
    | None => dict_get k default
    end.
Proof. intros H. now apply dict_merge_lookup. Qed.

Lemma effective_config_overrides_witness :
  dict_get "business_domain"
           (effective_config
              (validate_config sample_default_config sample_client_config))
  = Some (JStr "Credit Cards").
Proof.
  refine (effective_config_overrides sample_default_config
            sample_client_config "business_domain" _).
  repeat constructor; cbn; intuition discriminate.
Defined.
